(** * grule: the feature-detection / rule-recommendation pipeline

    A shallow embedding of [src/grule.py] (the recommendation engine
    [RuleEngine], its configuration loader, and the scoped working-directory
    switch used by [ProjectAnalyzer.analyze]) together with the properties
    that the specification states about them.

    Conventions of the embedding:
    - Python [str] is [string] (UTF-8 bytes; [==] on [str] is [String.eqb]);
    - Python [int] is [Z];
    - a Python [dict] is an insertion-ordered association list with unique
      keys ([Dict]): assigning to an existing key keeps its position,
      assigning to a new key appends;
    - the dataclass default [confidence = 1.0] is the rational [1];
    - code that can raise returns a [result]. *)

From Stdlib Require Import List Ascii String ZArith Bool Lia Sorted Permutation QArith.
From Stdlib Require DecimalString.
Import ListNotations.

Local Open Scope string_scope.
Local Open Scope Z_scope.

(* ================================================================== *)
(** ** Data classes *)

(** [@dataclass class ProjectFeature] *)
Record ProjectFeature : Type := Build_ProjectFeature {
  key : string;
  value : string;
  description : string;
  feature_confidence : Q
}.

(** [@dataclass class RuleRecommendation] *)
Record RuleRecommendation : Type := Build_RuleRecommendation {
  name : string;
  reason : string;
  weight : Z;
  category : string;
  confidence : Q
}.

(** The generated [__init__] of each dataclass, called positionally with the
    default [confidence]. *)
Definition new_ProjectFeature (k v d : string) : ProjectFeature :=
  {| key := k; value := v; description := d; feature_confidence := 1%Q |}.

Definition new_RuleRecommendation (n r : string) (w : Z) (c : string)
  : RuleRecommendation :=
  {| name := n; reason := r; weight := w; category := c; confidence := 1%Q |}.

(* ================================================================== *)
(** ** Python dictionaries *)

Module Dict.
Section Ops.
Context {V : Type}.

Definition t : Type := list (string * V).

Definition empty : t := [].

(** [d.get(k)] / [d[k]] *)
Fixpoint get (d : t) (k : string) : option V :=
  match d with
  | [] => None
  | (k', v) :: d' => if String.eqb k' k then Some v else get d' k
  end.

(** [d.get(k, default)] *)
Definition get_default (d : t) (k : string) (default : V) : V :=
  match get d k with
  | Some v => v
  | None => default
  end.

(** [k in d] *)
Definition mem (d : t) (k : string) : bool :=
  match get d k with
  | Some _ => true
  | None => false
  end.

(** [d[k] = v] *)
Fixpoint set (d : t) (k : string) (v : V) : t :=
  match d with
  | [] => [(k, v)]
  | (k', v') :: d' =>
      if String.eqb k' k then (k', v) :: d' else (k', v') :: set d' k v
  end.

(** [d.keys()], [d.values()] : in insertion order *)
Definition keys (d : t) : list string := map fst d.
Definition values (d : t) : list V := map snd d.
End Ops.
Arguments t : clear implicits.
End Dict.

(* ================================================================== *)
(** ** [sorted(xs, key=..., reverse=True)]

    Python's [sorted] is a stable sort, and stays stable with
    [reverse=True]: elements with equal keys keep their input order.  It is
    embedded as the stable insertion sort into descending key order. *)

Section Sorted.
Context {A : Type} (sort_key : A -> Z).

Fixpoint insert_reverse (x : A) (l : list A) : list A :=
  match l with
  | [] => [x]
  | y :: l' =>
      if sort_key x <? sort_key y then y :: insert_reverse x l'
      else x :: y :: l'
  end.

Definition sorted_reverse (l : list A) : list A :=
  fold_right insert_reverse [] l.
End Sorted.

(* ================================================================== *)
(** ** The recommendation engine *)

(** JSON documents, as [json.load] returns them and as
    [_get_default_config] builds them. *)
#[local] Set Warnings "-register-all".
Inductive json : Type :=
| JNull
| JBool (b : bool)
| JNum (z : Z)
| JStr (s : string)
| JArr (l : list json)
| JObj (o : list (string * json)).

Definition Path : Type := string.

(** [Path.__truediv__] on an absolute left operand and a relative name. *)
Definition path_join (p : Path) (child : string) : Path := p ++ "/" ++ child.

(** The attributes of [PathManager] that the engine reads. *)
Record PathManager : Type := {
  original_cwd : Path;
  agent_rules_dir : Path
}.

Record RuleEngine : Type := {
  path_manager : PathManager;
  config_path : Path;
  config : json
}.

(** [RuleEngine._get_default_config] *)
Definition _get_default_config : json :=
  JObj [
    ("rules", JObj [
      ("implement-task", JObj [
         ("category", JStr "core");
         ("description", JStr "任务实现规则");
         ("conditions", JObj [("always", JBool true)]);
         ("weight", JNum 10);
         ("tags", JArr [JStr "essential"; JStr "development"])]);
      ("bug-fix", JObj [
         ("category", JStr "core");
         ("description", JStr "Bug修复规则");
         ("conditions", JObj [("always", JBool true)]);
         ("weight", JNum 10);
         ("tags", JArr [JStr "essential"; JStr "debugging"])]);
      ("quick-wins", JObj [
         ("category", JStr "productivity");
         ("description", JStr "快速胜利策略");
         ("conditions", JObj [("always", JBool true)]);
         ("weight", JNum 8);
         ("tags", JArr [JStr "productivity"; JStr "optimization"])])
    ])
  ].

(** [feature_dict = {f.key: f.value for f in features}] : a later fact
    with the same key overwrites the value of an earlier one. *)
Definition feature_dict (features : list ProjectFeature) : Dict.t string :=
  fold_left (fun d f => Dict.set d (key f) (value f)) features Dict.empty.

Definition core_rules : list RuleRecommendation :=
  [ new_RuleRecommendation "implement-task" "核心开发流程规则" 10 "core";
    new_RuleRecommendation "bug-fix" "核心开发流程规则" 10 "core";
    new_RuleRecommendation "quick-wins" "快速胜利策略" 8 "productivity" ].

(** The [if project_size == ... elif ... else] block. *)
Definition size_rules (project_size : string) : list RuleRecommendation :=
  if String.eqb project_size "large" then
    [ new_RuleRecommendation "code-analysis" "大型项目需要严格的代码质量控制" 9 "quality";
      new_RuleRecommendation "pr-review" "大型项目需要代码审查" 8 "collaboration";
      new_RuleRecommendation "continuous-improvement" "大型项目需要持续改进" 7 "process" ]
  else if String.eqb project_size "medium" then
    [ new_RuleRecommendation "code-analysis" "中型项目需要代码质量检查" 7 "quality";
      new_RuleRecommendation "check" "中型项目需要检查机制" 6 "quality" ]
  else
    [ new_RuleRecommendation "clean" "小型项目重点关注代码整洁" 7 "maintenance";
      new_RuleRecommendation "commit" "小型项目需要提交规范" 6 "workflow" ].

(** [x in [...]] on a list of strings *)
Definition str_in (x : string) (l : list string) : bool :=
  existsb (String.eqb x) l.

(** The body of [for lang in languages]. *)
Definition language_rules (lang : string) : list RuleRecommendation :=
  if String.eqb lang "swift" then
    [ new_RuleRecommendation "modern-swift" "Swift项目需要现代Swift开发规范" 9 "language_specific" ]
  else if str_in lang ["javascript"; "typescript"; "python"; "java"; "csharp"] then
    [ new_RuleRecommendation "code-analysis" (lang ++ "项目需要代码质量分析") 7 "quality" ]
  else [].

Definition team_rules (team_size : string) : list RuleRecommendation :=
  if str_in team_size ["medium"; "large"] then
    [ new_RuleRecommendation "pr-review" "团队项目需要代码审查" 8 "collaboration";
      new_RuleRecommendation "add-to-changelog" "团队项目需要变更记录" 6 "documentation" ]
  else [].

(** [feature_dict.get(k) == "true"] *)
Definition is_true (d : Dict.t string) (k : string) : bool :=
  match Dict.get d k with
  | Some v => String.eqb v "true"
  | None => false
  end.

Definition testing_rules (d : Dict.t string) : list RuleRecommendation :=
  if is_true d "has_testing" then
    [ new_RuleRecommendation "five" "已有测试框架，增强测试质量" 8 "testing" ]
  else [].

Definition git_rules (d : Dict.t string) : list RuleRecommendation :=
  if is_true d "has_git" then
    [ new_RuleRecommendation "commit" "Git项目需要提交规范" 8 "workflow" ]
  else [].

Definition tracker : RuleRecommendation :=
  new_RuleRecommendation "rule-effectiveness-tracker" "跟踪规则使用效果" 5 "meta".

(** [languages = [f.value for f in features if f.key == "languages"]] *)
Definition languages (features : list ProjectFeature) : list string :=
  map value (filter (fun f => String.eqb (key f) "languages") features).

(** The list [recommendations] as it stands just before deduplication. *)
Definition recommendations (features : list ProjectFeature)
  : list RuleRecommendation :=
  let d := feature_dict features in
  core_rules
    ++ size_rules (Dict.get_default d "project_size" "small")
    ++ flat_map language_rules (languages features)
    ++ team_rules (Dict.get_default d "team_size" "solo")
    ++ testing_rules d
    ++ git_rules d
    ++ [tracker].

(** One iteration of [for rec in recommendations]. *)
Definition dedup_step (unique : Dict.t RuleRecommendation)
  (rec : RuleRecommendation) : Dict.t RuleRecommendation :=
  match Dict.get unique (name rec) with
  | None => Dict.set unique (name rec) rec
  | Some stored =>
      if weight stored <? weight rec then Dict.set unique (name rec) rec
      else unique
  end.

(** The dictionary [unique_recommendations] after the loop. *)
Definition unique_recommendations (recs : list RuleRecommendation)
  : Dict.t RuleRecommendation :=
  fold_left dedup_step recs Dict.empty.

(** The last five lines of [recommend_rules]: deduplicate, then sort. *)
Definition rank (recs : list RuleRecommendation) : list RuleRecommendation :=
  sorted_reverse weight (Dict.values (unique_recommendations recs)).

(** [RuleEngine.recommend_rules] *)
Definition recommend_rules (self : RuleEngine)
  (features : list ProjectFeature) : list RuleRecommendation :=
  rank (recommendations features).

(* ================================================================== *)
(** ** Effects: process state and exceptions *)

(** An exception derived from [Exception]: its class name and [str(e)]. *)
Record exn : Type := Exception {
  exn_class : string;
  exn_message : string
}.

Inductive result (A : Type) : Type :=
| Ok (a : A)
| Raise (e : exn).
Arguments Ok {A} a.
Arguments Raise {A} e.

(** What the code can change: the process working directory, the records
    passed to [logging.warning], and [ProjectAnalyzer.features]. *)
Record State : Type := {
  cwd : Path;
  warnings : list string;
  self_features : list ProjectFeature
}.

(** A computation that reads and writes the state and either returns or
    raises. *)
Definition Py (A : Type) : Type := State -> State * result A.

Definition ret {A} (a : A) : Py A := fun s => (s, Ok a).

Definition raise {A} (e : exn) : Py A := fun s => (s, Raise e).

Definition bind {A B} (m : Py A) (k : A -> Py B) : Py B :=
  fun s =>
    match m s with
    | (s', Ok a) => k a s'
    | (s', Raise e) => (s', Raise e)
    end.

Notation "x <- m ;; k" := (bind m (fun x => k))
  (at level 61, m at next level, right associativity).
Notation "m ;;; k" := (bind m (fun _ => k))
  (at level 61, right associativity).

(** [try: body  except Exception as e: handler(e)] *)
Definition try_except {A} (body : Py A) (handler : exn -> Py A) : Py A :=
  fun s =>
    match body s with
    | (s', Ok a) => (s', Ok a)
    | (s', Raise e) => handler e s'
    end.

(** [try: body  finally: cleanup] : the cleanup runs on both exits; the
    outcome of the body is kept unless the cleanup itself raises. *)
Definition try_finally {A} (body : Py A) (cleanup : Py unit) : Py A :=
  fun s =>
    match body s with
    | (s', r) =>
        match cleanup s' with
        | (s'', Ok _) => (s'', r)
        | (s'', Raise e) => (s'', Raise e)
        end
    end.

Definition logging_warning (msg : string) : Py unit :=
  fun s => ({| cwd := cwd s; warnings := warnings s ++ [msg];
               self_features := self_features s |}, Ok tt).

(* ================================================================== *)
(** ** Loading the configuration *)

(** What the file system holds at a path, as far as testing for it and
    opening it for reading go: nothing; something that [stat] cannot reach
    (the existence test itself raises, as for a path under a directory
    without search permission); a file that exists and cannot be opened or
    decoded; a file with its text. *)
Inductive file_state : Type :=
| Absent
| Unstatable (e : exn)
| Unreadable (e : exn)
| Readable (content : string).

Section LoadConfig.
(** The file system, and [json.load] applied to the text of a file. *)
Variable files : Path -> file_state.
Variable json_load : string -> result json.

(** [Path.exists] : [False] for a missing path; an error of [stat] other
    than a missing path is raised. *)
Definition path_exists (p : Path) : Py bool :=
  match files p with
  | Absent => ret false
  | Unstatable e => raise e
  | _ => ret true
  end.

(** [open(p, 'r', encoding='utf-8')] followed by reading the text. *)
Definition open_read (p : Path) : Py string :=
  match files p with
  | Absent => raise (Exception "FileNotFoundError" p)
  | Unstatable e => raise e
  | Unreadable e => raise e
  | Readable content => ret content
  end.

(** [RuleEngine._load_config] : the existence test stands before the
    [try]. *)
Definition _load_config (self_config_path : Path) : Py json :=
  present <- path_exists self_config_path ;;
  if negb present then ret _get_default_config
  else
    try_except
      (f <- open_read self_config_path ;;
       fun s => (s, json_load f))
      (fun e =>
         logging_warning
           ("加载配置文件失败: " ++ exn_message e ++ "，使用默认配置") ;;;
         ret _get_default_config).

(** [PathManager.__init__], given the working directory and the home
    directory of the process. *)
Definition new_PathManager (home : Path) : Py PathManager :=
  fun s => (s, Ok {| original_cwd := cwd s;
                     agent_rules_dir := path_join home ".agent-rules" |}).

(** [RuleEngine.__init__] *)
Definition new_RuleEngine (home : Path) (config_path_arg : option Path)
  : Py RuleEngine :=
  pm <- new_PathManager home ;;
  let cp := match config_path_arg with
            | Some p => p
            | None => path_join (agent_rules_dir pm) "rule-config.json"
            end in
  cfg <- _load_config cp ;;
  ret {| path_manager := pm; config_path := cp; config := cfg |}.
End LoadConfig.

(** Reading the rule table of a configuration document:
    [config["rules"][rule_id]["weight"]] and [...["category"]]. *)
Definition json_field (j : json) (k : string) : option json :=
  match j with
  | JObj o => Dict.get o k
  | _ => None
  end.

Definition rule_table_entry (cfg : json) (rule_id : string)
  : option (Z * string) :=
  match json_field cfg "rules" with
  | Some rules =>
      match json_field rules rule_id with
      | Some entry =>
          match json_field entry "weight", json_field entry "category" with
          | Some (JNum w), Some (JStr c) => Some (w, c)
          | _, _ => None
          end
      | None => None
      end
  | None => None
  end.

(* ================================================================== *)
(** ** The scoped working directory and [ProjectAnalyzer.analyze] *)

Definition is_absolute (p : Path) : bool := String.prefix "/" p.

Section Analyze.
(** The directories [os.chdir] can enter (absolute paths).  The probes
    only read the file system, so this does not change during a scan. *)
Variable is_dir : Path -> bool.

(** The five probes.  Each is a method reading [self.project_path]; what
    it does to the state, and whether it raises, is left open. *)
Variables _analyze_project_size _analyze_languages _analyze_frameworks
          _analyze_team_info _analyze_toolchain : Path -> Py unit.

(** [Path.cwd()] *)
Definition Path_cwd : Py Path := fun s => (s, Ok (cwd s)).

(** [os.chdir(path)] : a relative path is taken from the current
    directory. *)
Definition os_chdir (path : Path) : Py unit :=
  fun s =>
    let target := if is_absolute path then path
                  else path_join (cwd s) path in
    if is_dir target then
      ({| cwd := target; warnings := warnings s;
          self_features := self_features s |}, Ok tt)
    else (s, Raise (Exception "FileNotFoundError" path)).

(** [@contextmanager def working_directory(path)] applied to the body of
    the [with] statement. *)
Definition working_directory {A} (path : Path) (body : Py A) : Py A :=
  prev_cwd <- Path_cwd ;;
  os_chdir path ;;;
  try_finally body (os_chdir prev_cwd).

Definition set_features (l : list ProjectFeature) : Py unit :=
  fun s => ({| cwd := cwd s; warnings := warnings s;
               self_features := l |}, Ok tt).

Definition get_features : Py (list ProjectFeature) :=
  fun s => (s, Ok (self_features s)).

(** [ProjectAnalyzer.analyze] *)
Definition analyze (project_path : Path) : Py (list ProjectFeature) :=
  set_features [] ;;;
  working_directory project_path
    (_analyze_project_size project_path ;;;
     _analyze_languages project_path ;;;
     _analyze_frameworks project_path ;;;
     _analyze_team_info project_path ;;;
     _analyze_toolchain project_path) ;;;
  get_features.
End Analyze.

(* ================================================================== *)
(** ** Notions used to state and prove the properties *)

(** The position in [recs] of the first candidate proposing the id [n]
    (the length of [recs] when no candidate does). *)
Fixpoint first_index (n : string) (recs : list RuleRecommendation) : nat :=
  match recs with
  | [] => 0%nat
  | c :: recs' =>
      if String.eqb (name c) n then 0%nat else S (first_index n recs')
  end.

(** [r] occurs in [recs] at a place before which every candidate of the
    same id is strictly lighter and after which none is heavier: it is the
    first-emitted among the heaviest candidates of its id. *)
Definition first_heaviest (r : RuleRecommendation)
  (recs : list RuleRecommendation) : Prop :=
  exists p q,
    recs = (p ++ r :: q)%list /\
    (forall c, In c p -> name c = name r -> weight c < weight r) /\
    (forall c, In c q -> name c = name r -> weight c <= weight r).

(** What the loop maintains about [unique_recommendations] once the
    candidates [recs] have been processed. *)
Record store_inv (recs : list RuleRecommendation)
  (u : Dict.t RuleRecommendation) : Prop := {
  inv_nodup : NoDup (Dict.keys u);
  inv_keys : forall n, In n (Dict.keys u) <-> In n (map name recs);
  inv_vals : forall k v, In (k, v) u -> name v = k /\ first_heaviest v recs;
  inv_order :
    StronglySorted
      (fun a b => (first_index a recs < first_index b recs)%nat) (Dict.keys u)
}.

(** The values of the facts stored under one key, in profile order. *)
Definition values_of (k : string) (features : list ProjectFeature)
  : list string :=
  map value (filter (fun f => String.eqb (key f) k) features).

(** How many facts of a profile are stored under one key. *)
Definition count_key (k : string) (features : list ProjectFeature) : nat :=
  List.length (filter (fun f => String.eqb (key f) k) features).

(** The last element of a list, if any. *)
Definition last_opt {A} (l : list A) : option A :=
  fold_left (fun _ x => Some x) l None.

(** The keys that [recommend_rules] reads through [feature_dict]. *)
Definition scalar_keys : list string :=
  ["project_size"; "team_size"; "has_testing"; "has_git"].

(** Everything [recommend_rules] emits before the final meta rule. *)
Definition recommendations_body (features : list ProjectFeature)
  : list RuleRecommendation :=
  let d := feature_dict features in
  (core_rules
    ++ size_rules (Dict.get_default d "project_size" "small")
    ++ flat_map language_rules (languages features)
    ++ team_rules (Dict.get_default d "team_size" "solo")
    ++ testing_rules d
    ++ git_rules d)%list.

(** Id, weight and category of a candidate. *)
Definition rule_signature (r : RuleRecommendation) : string * Z * string :=
  (name r, weight r, category r).

(** The signatures the rule blocks before the meta rule can emit. *)
Definition emitted_signatures : list (string * Z * string) :=
  [ ("implement-task", 10, "core");
    ("bug-fix", 10, "core");
    ("quick-wins", 8, "productivity");
    ("code-analysis", 9, "quality");
    ("pr-review", 8, "collaboration");
    ("continuous-improvement", 7, "process");
    ("code-analysis", 7, "quality");
    ("check", 6, "quality");
    ("clean", 7, "maintenance");
    ("commit", 6, "workflow");
    ("modern-swift", 9, "language_specific");
    ("add-to-changelog", 6, "documentation");
    ("five", 8, "testing");
    ("commit", 8, "workflow") ].

Definition id_weight (r : RuleRecommendation) : string * Z :=
  (name r, weight r).

(** The signatures of the always-on core rules and of the meta rule. *)
Definition core_signatures : list (string * Z * string) :=
  [ ("implement-task", 10, "core");
    ("bug-fix", 10, "core");
    ("quick-wins", 8, "productivity");
    ("rule-effectiveness-tracker", 5, "meta") ].

(** The profile of the scenario of section 8 of the specification, with
    any descriptions. *)
Definition scenario_profile (d1 d2 d3 d4 d5 : string) : list ProjectFeature :=
  [ new_ProjectFeature "project_size" "large" d1;
    new_ProjectFeature "languages" "python" d2;
    new_ProjectFeature "team_size" "large" d3;
    new_ProjectFeature "has_testing" "true" d4;
    new_ProjectFeature "has_git" "true" d5 ].

(** A configuration document that gives [implement-task] another weight
    and category than the engine's own, and the engine that has loaded it. *)
Definition custom_config : json :=
  JObj [
    ("rules", JObj [
      ("implement-task", JObj [
         ("category", JStr "custom");
         ("description", JStr "");
         ("conditions", JObj [("always", JBool true)]);
         ("weight", JNum 3);
         ("tags", JArr [])])
    ])
  ].

(** A file system holding that document at the default location, and
    [json.load] on its text. *)
Definition custom_files (p : Path) : file_state :=
  if String.eqb p "/home/user/.agent-rules/rule-config.json"
  then Readable "{rules: {implement-task: {category: custom, weight: 3}}}"
  else Absent.

Definition custom_json_load (content : string) : result json :=
  Ok custom_config.

Definition custom_engine : RuleEngine :=
  {| path_manager := {| original_cwd := "/work";
                        agent_rules_dir := "/home/user/.agent-rules" |};
     config_path := "/home/user/.agent-rules/rule-config.json";
     config := custom_config |}.

(** The configuration document is missing, or it exists and opening,
    reading or parsing it raises. *)
Definition config_unavailable (files : Path -> file_state)
  (json_load : string -> result json) (p : Path) : Prop :=
  files p = Absent \/
  (exists e, files p = Unreadable e) \/
  (exists content e, files p = Readable content /\ json_load content = Raise e).

(** The path [RuleEngine.__init__] loads the configuration from. *)
Definition resolved_config_path (home : Path) (config_path_arg : option Path)
  : Path :=
  match config_path_arg with
  | Some p => p
  | None => path_join (path_join home ".agent-rules") "rule-config.json"
  end.

(** A candidate with the reason text of [code-analysis] left out of
    account: every other field, and the reason of every other id, is
    kept. *)
Definition blur (r : RuleRecommendation) : RuleRecommendation :=
  if String.eqb (name r) "code-analysis" then
    {| name := name r; reason := ""; weight := weight r;
       category := category r; confidence := confidence r |}
  else r.

(** The two tests of the language block. *)
Definition is_swift (lang : string) : bool := String.eqb lang "swift".

Definition is_analysed (lang : string) : bool :=
  negb (is_swift lang)
  && str_in lang ["javascript"; "typescript"; "python"; "java"; "csharp"].

Definition modern_swift : RuleRecommendation :=
  new_RuleRecommendation "modern-swift" "Swift项目需要现代Swift开发规范" 9
    "language_specific".

Definition code_analysis_blurred : RuleRecommendation :=
  new_RuleRecommendation "code-analysis" "" 7 "quality".

(** The candidates of the language block, each kept at its first
    occurrence only, with [code-analysis] blurred. *)
Fixpoint first_language_rules (langs : list string)
  : list RuleRecommendation :=
  match langs with
  | [] => []
  | lang :: rest =>
      if is_swift lang then
        modern_swift ::
          (if existsb is_analysed rest then [code_analysis_blurred] else [])
      else if is_analysed lang then
        code_analysis_blurred ::
          (if existsb is_swift rest then [modern_swift] else [])
      else first_language_rules rest
  end.

(** A stored candidate of the same id that is at least as heavy. *)
Definition covered (u : Dict.t RuleRecommendation) (x : RuleRecommendation)
  : Prop :=
  exists stored, Dict.get u (name x) = Some stored /\ weight x <= weight stored.

(** Two profiles that differ in the order of two facts of the same key. *)
Definition profile_size_large_small : list ProjectFeature :=
  [ new_ProjectFeature "project_size" "large" "";
    new_ProjectFeature "project_size" "small" "" ].

Definition profile_size_small_large : list ProjectFeature :=
  [ new_ProjectFeature "project_size" "small" "";
    new_ProjectFeature "project_size" "large" "" ].

Definition profile_python_java : list ProjectFeature :=
  [ new_ProjectFeature "languages" "python" "检测到语言: python";
    new_ProjectFeature "languages" "java" "检测到语言: java" ].

Definition profile_java_python : list ProjectFeature :=
  [ new_ProjectFeature "languages" "java" "检测到语言: java";
    new_ProjectFeature "languages" "python" "检测到语言: python" ].

(** An engine holding the built-in default table. *)
Definition default_engine : RuleEngine :=
  {| path_manager := {| original_cwd := "/work";
                        agent_rules_dir := "/home/user/.agent-rules" |};
     config_path := "/home/user/.agent-rules/rule-config.json";
     config := _get_default_config |}.

(** The ranking of the candidates emitted for the lookups [d], with the
    list [block] in the place of the language block, and [code-analysis]
    blurred. *)
Definition ranking_with (d : Dict.t string) (block : list RuleRecommendation)
  : list RuleRecommendation :=
  rank (map blur
          (core_rules ++ size_rules (Dict.get_default d "project_size" "small"))
        ++ block
        ++ map blur
             (team_rules (Dict.get_default d "team_size" "solo")
              ++ testing_rules d ++ git_rules d ++ [tracker]))%list.

(** The deduplication loop over the (blurred) language block. *)
Definition run_languages (langs : list string)
  (u : Dict.t RuleRecommendation) : Dict.t RuleRecommendation :=
  fold_left dedup_step (map blur (flat_map language_rules langs)) u.

(** ** Sample inputs *)

(** Four candidates over two ids, with a tie and a strictly heavier late
    proposal. *)
Definition sample_candidates : list RuleRecommendation :=
  [ new_RuleRecommendation "lint" "first" 7 "quality";
    new_RuleRecommendation "docs" "only" 9 "documentation";
    new_RuleRecommendation "lint" "second" 7 "quality";
    new_RuleRecommendation "lint" "third" 9 "style" ].

(** A dictionary holding one candidate, and a later candidate of the same
    id and weight. *)
Definition sample_stored : RuleRecommendation :=
  new_RuleRecommendation "pr-review" "大型项目需要代码审查" 8 "collaboration".

Definition sample_later : RuleRecommendation :=
  new_RuleRecommendation "pr-review" "团队项目需要代码审查" 8 "collaboration".

Definition sample_store : Dict.t RuleRecommendation :=
  [("pr-review", sample_stored)].

(** A profile with unique scalar keys and three [languages] facts. *)
Definition sample_profile : list ProjectFeature :=
  [ new_ProjectFeature "project_size" "small" "项目规模: small";
    new_ProjectFeature "languages" "python" "检测到语言: python";
    new_ProjectFeature "languages" "swift" "检测到语言: swift";
    new_ProjectFeature "languages" "java" "检测到语言: java";
    new_ProjectFeature "has_git" "true" "Git项目" ].

(** A file system whose configuration document is not valid JSON, and a
    parser that rejects it. *)
Definition sample_files (p : Path) : file_state :=
  if String.eqb p "/home/user/.agent-rules/rule-config.json"
  then Readable "{ rules: "
  else Absent.

(** A file system in which the configuration document cannot be reached:
    the existence test raises. *)
Definition sample_unstatable_files (p : Path) : file_state :=
  if String.eqb p "/home/user/.agent-rules/rule-config.json"
  then Unstatable (Exception "PermissionError" p)
  else Absent.

Definition sample_json_load (content : string) : result json :=
  Raise (Exception "JSONDecodeError" "Expecting property name").

Definition sample_state : State :=
  {| cwd := "/work"; warnings := []; self_features := [] |}.

(** Two directories, and a size probe that records a fact and then
    raises. *)
Definition sample_is_dir (p : Path) : bool :=
  String.eqb p "/work" || String.eqb p "/project".

Definition sample_failing_probe (project_path : Path) : Py unit :=
  fun s =>
    ({| cwd := cwd s; warnings := warnings s;
        self_features :=
          (self_features s ++ [new_ProjectFeature "project_size" "small" ""])%list |},
     Raise (Exception "PermissionError" project_path)).

Definition sample_quiet_probe (project_path : Path) : Py unit := ret tt.

(* ================================================================== *)
(** ** Further notions: the rule blocks *)

(** The candidates of every block but the size block. *)
Definition other_rules (features : list ProjectFeature)
  : list RuleRecommendation :=
  let d := feature_dict features in
  (core_rules
    ++ flat_map language_rules (languages features)
    ++ team_rules (Dict.get_default d "team_size" "solo")
    ++ testing_rules d
    ++ git_rules d
    ++ [tracker])%list.

(** The ids those blocks can propose. *)
Definition other_block_ids : list string :=
  [ "implement-task"; "bug-fix"; "quick-wins"; "modern-swift";
    "code-analysis"; "pr-review"; "add-to-changelog"; "five"; "commit";
    "rule-effectiveness-tracker" ].

(** The value the size block switches on. *)
Definition project_size_of (features : list ProjectFeature) : string :=
  Dict.get_default (feature_dict features) "project_size" "small".

(** A fact the engine does not look at: its key is none of the keys read
    through [feature_dict], and if it is a [languages] fact its value is
    none of the languages the language block knows. *)
Definition ignored_fact (f : ProjectFeature) : Prop :=
  ~ In (key f) scalar_keys /\
  (key f = "languages" -> language_rules (value f) = []).

(** All the ids the engine can recommend for one size value. *)
Definition branch_universe (size : string) : list string :=
  nodup string_dec (map name (size_rules size) ++ other_block_ids)%list.

(** The ids the engine always recommends for one size value. *)
Definition branch_required (size : string) : list string :=
  nodup string_dec
    (map name (size_rules size)
     ++ ["implement-task"; "bug-fix"; "quick-wins";
         "rule-effectiveness-tracker"])%list.


(** A profile and one more fact, placed anywhere in it. *)
Definition sample_ignored_fact : ProjectFeature :=
  new_ProjectFeature "frameworks" "django" "检测到框架: django".


(* ================================================================== *)
(** ** Installing the recommended rules *)

(** [dict.fromkeys(keys)] : every key, in order of first occurrence,
    mapped to [None]. *)
Definition dict_fromkeys (keys : list string) : Dict.t unit :=
  fold_left (fun d k => Dict.set d k tt) keys Dict.empty.

Definition foundational_rule_names : list string :=
  ["gissue-workflow"; "gmemory-best-practices"; "project-retrospective"].

(** [unique_rule_names] in [RuleManager.install_rules]:
    [list(dict.fromkeys(foundational + recommended_rule_names))]. *)
Definition unique_rule_names (recommendations : list RuleRecommendation)
  : list string :=
  let recommended_rule_names := map name recommendations in
  let all_rule_names :=
    (foundational_rule_names ++ recommended_rule_names)%list in
  Dict.keys (dict_fromkeys all_rule_names).

(** The rule names [install_rules] passes to [_install_cursor_rules] and
    to [_install_claude_rules] ([None] when the installer is not called
    for the target). *)
Definition install_rule_names (target : string)
  (recommendations : list RuleRecommendation)
  : option (list string) * option (list string) :=
  let recommended_rule_names := map name recommendations in
  ((if str_in target ["cursor"; "both"]
    then Some recommended_rule_names else None),
   (if str_in target ["claude"; "both"]
    then Some (unique_rule_names recommendations) else None)).

(** The line feed, and [str.split('\n')] / ['\n'.join(...)]. *)
Definition newline : ascii := Ascii.ascii_of_nat 10.

Definition LF : string := String newline EmptyString.

Fixpoint split_lines (s : string) : list string :=
  match s with
  | EmptyString => [EmptyString]
  | String c rest =>
      if Ascii.eqb c newline then EmptyString :: split_lines rest
      else
        match split_lines rest with
        | line :: lines => String c line :: lines
        | [] => [String c EmptyString]
        end
  end.

Definition join_lines (lines : list string) : string :=
  String.concat LF lines.

Section ClaudeRules.
(** [str.strip()], and the rule files of the library. *)
Variable str_strip : string -> string.
Variable files : Path -> file_state.

(** [line.strip() == '---'] *)
Definition is_fence (line : string) : bool :=
  String.eqb (str_strip line) "---".

(** [for i, line in enumerate(lines[1:], 1): if ...: start_idx = i + 1;
    break] : the index of the first fence among the lines after the
    first. *)
Fixpoint closing_fence (lines : list string) (i : nat) : option nat :=
  match lines with
  | [] => None
  | line :: rest =>
      if is_fence line then Some i else closing_fence rest (S i)
  end.

(** The computation of [start_idx]; [lines[0]] raises on an empty list. *)
Definition start_idx (lines : list string) : result nat :=
  match lines with
  | [] => Raise (Exception "IndexError" "list index out of range")
  | first :: rest =>
      if is_fence first then
        match closing_fence rest 1 with
        | Some i => Ok (i + 1)%nat
        | None => Ok 0%nat
        end
      else Ok 0%nat
  end.

(** ['\n'.join(lines[start_idx:])] for the text of a rule file. *)
Definition rule_body (rule_content : string) : result string :=
  let lines := split_lines rule_content in
  match start_idx lines with
  | Ok i => Ok (join_lines (skipn i lines))
  | Raise e => Raise e
  end.







End ClaudeRules.



(** Sample rule text with a front matter. *)
Definition sample_rule_lines : list string :=
  ["---"; "description: commit rule"; "---"; "# Commit"; "Use short subjects."].


(* ================================================================== *)
(** ** The probes of [ProjectAnalyzer] *)

(** The probes only ever append to [self.features].  A probe is embedded
    as the list of facts it appends together with the way it ends. *)
Definition Probe (A : Type) : Type := list ProjectFeature * result A.

Definition probe_ret {A} (a : A) : Probe A := ([], Ok a).

Definition probe_bind {A B} (m : Probe A) (k : A -> Probe B) : Probe B :=
  match m with
  | (fs, Ok a) => ((fs ++ fst (k a))%list, snd (k a))
  | (fs, Raise e) => (fs, Raise e)
  end.

Notation "x <~ m ;; k" := (probe_bind m (fun x => k))
  (at level 61, m at next level, right associativity).
Notation "m >>> k" := (probe_bind m (fun _ => k))
  (at level 61, right associativity).

(** [self.features.append(ProjectFeature(...))] *)
Definition probe_append (f : ProjectFeature) : Probe unit := ([f], Ok tt).

(** A call that returns or raises without touching the features. *)
Definition probe_call {A} (r : result A) : Probe A := ([], r).

(** [try: body  except: pass] *)
Definition probe_try (body : Probe unit) : Probe unit :=
  match body with
  | (fs, Raise _) => (fs, Ok tt)
  | (fs, Ok a) => (fs, Ok a)
  end.

(** A probe as a step on the state of the analyzer. *)
Definition run_probe {A} (m : Probe A) : Py A :=
  fun s =>
    ({| cwd := cwd s; warnings := warnings s;
        self_features := (self_features s ++ fst m)%list |}, snd m).

(** [str(n)] of an [int]. *)
Definition str_of_int (n : Z) : string :=
  DecimalString.NilZero.string_of_int (Z.to_int n).

(** [needle in hay] on strings. *)
Fixpoint contains (needle hay : string) : bool :=
  String.prefix needle hay
  || match hay with
     | EmptyString => false
     | String _ rest => contains needle rest
     end.

(** What the probes ask of the file system, of git and of the string
    library, for an analysis root. *)
Record Host : Type := {
  (** [list(root.rglob(pattern))] *)
  rglob : Path -> string -> result (list Path);
  (** [(root / name).exists()] : it can raise, as when [stat] is denied *)
  path_present : Path -> string -> result bool;
  (** [len(f.readlines())] after [open(path, 'r', encoding='utf-8')] *)
  count_lines : Path -> result nat;
  (** [(root / name).read_text(encoding='utf-8')] *)
  read_file : Path -> string -> result string;
  (** [json.load] of [root / name] *)
  load_json : Path -> string -> result json;
  (** [subprocess.run(args, capture_output=True, text=True, cwd=root)] :
      [returncode] and [stdout] *)
  run_git : Path -> list string -> result (Z * string);
  (** [str.lower], [str.strip], [int] *)
  py_lower : string -> string;
  py_strip : string -> string;
  py_int : string -> result Z
}.

Definition classify_size (file_count line_count : Z) : string :=
  if (50 <? file_count) || (10000 <? line_count) then "large"
  else if (10 <? file_count) || (1000 <? line_count) then "medium"
  else "small".

Definition classify_team (contributors : Z) : string :=
  if 10 <? contributors then "large"
  else if 3 <? contributors then "medium"
  else if 1 <? contributors then "small"
  else "solo".

Definition classify_maturity (commits : Z) : string :=
  if 100 <? commits then "mature"
  else if 10 <? commits then "developing"
  else "new".

Definition code_patterns : list string :=
  ["*.py"; "*.js"; "*.ts"; "*.go"; "*.rs"; "*.swift"; "*.java"; "*.cs"].

Definition language_indicators : list (string * list string) :=
  [ ("javascript", ["package.json"; "*.js"; "*.jsx"]);
    ("typescript", ["tsconfig.json"; "*.ts"; "*.tsx"]);
    ("python", ["requirements.txt"; "pyproject.toml"; "setup.py"; "*.py"]);
    ("rust", ["Cargo.toml"; "*.rs"]);
    ("go", ["go.mod"; "*.go"]);
    ("swift", ["Package.swift"; "*.swift"]);
    ("java", ["pom.xml"; "build.gradle"; "*.java"]);
    ("csharp", ["*.csproj"; "*.sln"; "*.cs"]) ].

Definition js_framework_map : list (string * list string) :=
  [ ("react", ["react"; "next"]);
    ("vue", ["vue"; "@vue"]);
    ("express", ["express"]);
    ("angular", ["@angular"]) ].

Definition python_framework_map : list (string * list string) :=
  [ ("django", ["django"]);
    ("fastapi", ["fastapi"]);
    ("flask", ["flask"]) ].

Definition test_indicators : list string :=
  ["test"; "tests"; "spec"; "__tests__"; "*.test.*"; "*.spec.*"].

Definition ci_indicators : list string :=
  [".github/workflows"; ".gitlab-ci.yml"; "Jenkinsfile"].

Section Probes.
Variable host : Host.
Variable root : Path.

(** The inner loop of [_analyze_project_size]: a file that cannot be
    opened or decoded is skipped. *)
Fixpoint count_file_lines (files : list Path) (line_count : Z) : Z :=
  match files with
  | [] => line_count
  | file_path :: rest =>
      match count_lines host file_path with
      | Ok n => count_file_lines rest (line_count + Z.of_nat n)
      | Raise _ => count_file_lines rest line_count
      end
  end.

(** The outer loop: [rglob] is not guarded. *)
Fixpoint scan_code (patterns : list string) (file_count line_count : Z)
  : result (Z * Z) :=
  match patterns with
  | [] => Ok (file_count, line_count)
  | pattern :: rest =>
      match rglob host root pattern with
      | Raise e => Raise e
      | Ok files =>
          scan_code rest (file_count + Z.of_nat (List.length files))
            (count_file_lines files line_count)
      end
  end.

(** [ProjectAnalyzer._analyze_project_size] *)
Definition _analyze_project_size : Probe unit :=
  match scan_code code_patterns 0 0 with
  | Raise e => probe_call (Raise e)
  | Ok (file_count, line_count) =>
      let size := classify_size file_count line_count in
      probe_append
        (new_ProjectFeature "project_size" size
           ("项目规模: " ++ size ++ " (" ++ str_of_int file_count
            ++ "文件, ~" ++ str_of_int line_count ++ "行代码)"))
  end.

(** The loop over the indicators of one language (and over the test
    indicators): the first indicator present ends it. *)
Fixpoint any_indicator (indicators : list string) : result bool :=
  match indicators with
  | [] => Ok false
  | indicator :: rest =>
      if String.prefix "*." indicator then
        match rglob host root indicator with
        | Raise e => Raise e
        | Ok [] => any_indicator rest
        | Ok (_ :: _) => Ok true
        end
      else
        match path_present host root indicator with
        | Raise e => Raise e
        | Ok true => Ok true
        | Ok false => any_indicator rest
        end
  end.

Fixpoint detect_languages (table : list (string * list string))
  : Probe unit :=
  match table with
  | [] => probe_ret tt
  | (lang, indicators) :: rest =>
      found <~ probe_call (any_indicator indicators) ;;
      (if found : bool then
         probe_append
           (new_ProjectFeature "languages" lang ("检测到语言: " ++ lang))
       else probe_ret tt) >>>
      detect_languages rest
  end.

(** [ProjectAnalyzer._analyze_languages] *)
Definition _analyze_languages : Probe unit :=
  detect_languages language_indicators.

(** [package_data.get(k, {})] *)
Definition package_get (package_data : json) (k : string) : result json :=
  match package_data with
  | JObj o => Ok (Dict.get_default o k (JObj []))
  | _ => Raise (Exception "AttributeError" "object has no attribute 'get'")
  end.

(** The keys contributed by [**mapping] *)
Definition mapping_keys (j : json) : result (list string) :=
  match j with
  | JObj o => Ok (Dict.keys o)
  | _ => Raise (Exception "TypeError" "object is not a mapping")
  end.

(** The keys of [{**package_data.get("dependencies", {}),
    **package_data.get("devDependencies", {})}] *)
Definition dependency_names (package_data : json) : result (list string) :=
  match package_get package_data "dependencies" with
  | Raise e => Raise e
  | Ok deps =>
      match mapping_keys deps with
      | Raise e => Raise e
      | Ok names =>
          match package_get package_data "devDependencies" with
          | Raise e => Raise e
          | Ok dev =>
              match mapping_keys dev with
              | Raise e => Raise e
              | Ok dev_names => Ok (names ++ dev_names)%list
              end
          end
      end
  end.

(** [for framework, names in framework_map.items():
       if any(test(n) for n in names): append] *)
Fixpoint match_frameworks (table : list (string * list string))
  (test : string -> bool) : Probe unit :=
  match table with
  | [] => probe_ret tt
  | (framework, names) :: rest =>
      (if existsb test names then
         probe_append
           (new_ProjectFeature "frameworks" framework
              ("检测到框架: " ++ framework))
       else probe_ret tt) >>>
      match_frameworks rest test
  end.

Definition package_json_frameworks : Probe unit :=
  present <~ probe_call (path_present host root "package.json") ;;
  if present : bool then
    probe_try
      (package_data <~ probe_call (load_json host root "package.json") ;;
       dependencies <~ probe_call (dependency_names package_data) ;;
       match_frameworks js_framework_map
         (fun pkg => str_in pkg dependencies))
  else probe_ret tt.

Definition python_file_frameworks (file_name : string) : Probe unit :=
  present <~ probe_call (path_present host root file_name) ;;
  if present : bool then
    probe_try
      (content <~ probe_call (read_file host root file_name) ;;
       match_frameworks python_framework_map
         (fun indicator => contains indicator (py_lower host content)))
  else probe_ret tt.

(** [ProjectAnalyzer._analyze_frameworks] *)
Definition _analyze_frameworks : Probe unit :=
  package_json_frameworks >>>
  python_file_frameworks "requirements.txt" >>>
  python_file_frameworks "pyproject.toml".

(** [len(set(result.stdout.strip().split('\n')))] *)
Definition count_contributors (stdout : string) : Z :=
  Z.of_nat
    (List.length (nodup string_dec (split_lines (py_strip host stdout)))).

Definition team_size_fact (stdout : string) : ProjectFeature :=
  let contributors := count_contributors stdout in
  let team_size := classify_team contributors in
  new_ProjectFeature "team_size" team_size
    ("团队规模: " ++ team_size ++ " (" ++ str_of_int contributors
     ++ "贡献者)").

Definition maturity_fact (commits : Z) : ProjectFeature :=
  let maturity := classify_maturity commits in
  new_ProjectFeature "project_maturity" maturity
    ("项目成熟度: " ++ maturity ++ " (" ++ str_of_int commits ++ "提交)").

(** [ProjectAnalyzer._analyze_team_info] *)
Definition _analyze_team_info : Probe unit :=
  present <~ probe_call (path_present host root ".git") ;;
  if present : bool then
    probe_append (new_ProjectFeature "has_git" "true" "Git项目") >>>
    probe_try
      (authors <~ probe_call
                    (run_git host root ["git"; "log"; "--format=%ae"]) ;;
       (if fst authors =? 0 then probe_append (team_size_fact (snd authors))
        else probe_ret tt) >>>
       (count <~ probe_call
                   (run_git host root
                      ["git"; "rev-list"; "--count"; "HEAD"]) ;;
        if fst count =? 0 then
          commits <~ probe_call (py_int host (py_strip host (snd count))) ;;
          probe_append (maturity_fact commits)
        else probe_ret tt))
  else probe_ret tt.

(** [for indicator in ci_indicators: if exists: append; break] *)
Fixpoint detect_cicd (indicators : list string) : Probe unit :=
  match indicators with
  | [] => probe_ret tt
  | indicator :: rest =>
      present <~ probe_call (path_present host root indicator) ;;
      if present : bool then
        probe_append (new_ProjectFeature "has_cicd" "true" "配置CI/CD")
      else detect_cicd rest
  end.

Definition detect_documentation : Probe unit :=
  present <~ probe_call (path_present host root "README.md") ;;
  if present : bool then
    probe_try
      (content <~ probe_call (read_file host root "README.md") ;;
       if 20 <? Z.of_nat (List.length (split_lines content)) then
         probe_append
           (new_ProjectFeature "has_documentation" "true" "文档完善")
       else probe_ret tt)
  else probe_ret tt.

(** [ProjectAnalyzer._analyze_toolchain] *)
Definition _analyze_toolchain : Probe unit :=
  has_testing <~ probe_call (any_indicator test_indicators) ;;
  (if has_testing : bool then
     probe_append (new_ProjectFeature "has_testing" "true" "包含测试")
   else probe_ret tt) >>>
  detect_cicd ci_indicators >>>
  (docker <~ probe_call (path_present host root "Dockerfile") ;;
   if docker : bool then
     probe_append (new_ProjectFeature "has_docker" "true" "容器化项目")
   else probe_ret tt) >>>
  detect_documentation.

(** The body of the [with] statement of [analyze], as one probe. *)
Definition scan_project : Probe unit :=
  _analyze_project_size >>>
  _analyze_languages >>>
  _analyze_frameworks >>>
  _analyze_team_info >>>
  _analyze_toolchain.
End Probes.

(** [ProjectAnalyzer.analyze] with the five probes of the class. *)
Definition ProjectAnalyzer_analyze (host : Host) (is_dir : Path -> bool)
  (project_path : Path) : Py (list ProjectFeature) :=
  analyze is_dir
    (fun root => run_probe (_analyze_project_size host root))
    (fun root => run_probe (_analyze_languages host root))
    (fun root => run_probe (_analyze_frameworks host root))
    (fun root => run_probe (_analyze_team_info host root))
    (fun root => run_probe (_analyze_toolchain host root))
    project_path.


(** The directory [os.chdir(path)] enters from the state [s]. *)
Definition chdir_target (s : State) (path : Path) : Path :=
  if is_absolute path then path else path_join (cwd s) path.

(** The keys of the facts the probes can emit. *)
Definition known_keys : list string :=
  [ "project_size"; "languages"; "frameworks"; "has_git"; "team_size";
    "project_maturity"; "has_testing"; "has_cicd"; "has_docker";
    "has_documentation" ].

(** The keys that occur at most once in a scan. *)
Definition single_keys : list string :=
  [ "project_size"; "has_git"; "team_size"; "project_maturity";
    "has_testing"; "has_cicd"; "has_docker"; "has_documentation" ].

(** [rglob] answers for every pattern under the root. *)
Definition rglob_succeeds (host : Host) (root : Path) : Prop :=
  forall pattern, exists files, rglob host root pattern = Ok files.

(** The existence test answers for every name under the root. *)
Definition exists_succeeds (host : Host) (root : Path) : Prop :=
  forall name, exists present, path_present host root name = Ok present.

(** A host with nothing under the root but one Python file of three
    lines, and no git. *)
Definition sample_host : Host :=
  {| rglob := fun _ pattern =>
                if String.eqb pattern "*.py" then Ok ["/project/main.py"]
                else Ok [];
     path_present := fun _ _ => Ok false;
     count_lines := fun _ => Ok 3%nat;
     read_file := fun _ name => Raise (Exception "FileNotFoundError" name);
     load_json := fun _ name => Raise (Exception "FileNotFoundError" name);
     run_git := fun _ _ => Raise (Exception "FileNotFoundError" "git");
     py_lower := fun s => s;
     py_strip := fun s => s;
     py_int := fun s => Raise (Exception "ValueError" s) |}.


(** Every fact of [l] has its key in [ks]. *)
Definition keys_within (l : list ProjectFeature) (ks : list string) : Prop :=
  Forall (fun f => In (key f) ks) l.


(** The arguments of the two git queries of [_analyze_team_info]. *)
Definition git_log_authors : list string := ["git"; "log"; "--format=%ae"].


(** The value of the [team_size] fact of a scan, if the team probe
    records one. *)
Definition team_size_value (host : Host) (root : Path) : option string :=
  match path_present host root ".git" with
  | Ok true =>
      match run_git host root git_log_authors with
      | Ok (returncode, stdout) =>
          if returncode =? 0
          then Some (classify_team (count_contributors host stdout))
          else None
      | Raise _ => None
      end
  | _ => None
  end.

(** A host whose project has a [.git] directory and whose author list
    names five authors. *)
Definition sample_team_host : Host :=
  {| rglob := fun _ _ => Ok [];
     path_present := fun _ name => Ok (String.eqb name ".git");
     count_lines := fun _ => Ok 0%nat;
     read_file := fun _ name => Raise (Exception "FileNotFoundError" name);
     load_json := fun _ name => Raise (Exception "FileNotFoundError" name);
     run_git := fun _ args =>
                  if String.eqb (nth 1 args "") "log"
                  then Ok (0, join_lines ["a@x"; "b@x"; "c@x"; "d@x"; "e@x"; "a@x"])
                  else Raise (Exception "FileNotFoundError" "git");
     py_lower := fun s => s;
     py_strip := fun s => s;
     py_int := fun s => Raise (Exception "ValueError" s) |}.


(** An indicator is present under the root: a glob indicator matches
    at least one file, a plain indicator names an existing path.  (A query
    that raises shows nothing.) *)
Definition indicator_present (host : Host) (root : Path)
  (indicator : string) : bool :=
  if String.prefix "*." indicator then
    match rglob host root indicator with
    | Ok (_ :: _) => true
    | _ => false
    end
  else
    match path_present host root indicator with
    | Ok true => true
    | _ => false
    end.

(** A language has a present indicator. *)
Definition language_detected (host : Host) (root : Path)
  (indicators : list string) : bool :=
  existsb (indicator_present host root) indicators.

(** The files matched by the code patterns, pattern by pattern, and the
    number of lines of those that can be read. *)
Definition matched_files (host : Host) (root : Path)
  (patterns : list string) : list Path :=
  flat_map (fun pattern =>
              match rglob host root pattern with
              | Ok files => files
              | Raise _ => []
              end) patterns.

Fixpoint readable_lines (host : Host) (files : list Path) : Z :=
  match files with
  | [] => 0
  | file_path :: rest =>
      match count_lines host file_path with
      | Ok n => Z.of_nat n + readable_lines host rest
      | Raise _ => readable_lines host rest
      end
  end.

(** The classes of the three classifications, from lowest to highest. *)
Definition size_level (size : string) : nat :=
  if String.eqb size "large" then 2
  else if String.eqb size "medium" then 1 else 0.

Definition team_level (team_size : string) : nat :=
  if String.eqb team_size "large" then 3
  else if String.eqb team_size "medium" then 2
  else if String.eqb team_size "small" then 1 else 0.

Definition maturity_level (maturity : string) : nat :=
  if String.eqb maturity "mature" then 2
  else if String.eqb maturity "developing" then 1 else 0.


(** A host whose recursive globs fail. *)
Definition sample_failing_host : Host :=
  {| rglob := fun _ pattern => Raise (Exception "PermissionError" pattern);
     path_present := fun _ _ => Ok false;
     count_lines := fun _ => Ok 0%nat;
     read_file := fun _ name => Raise (Exception "FileNotFoundError" name);
     load_json := fun _ name => Raise (Exception "FileNotFoundError" name);
     run_git := fun _ _ => Raise (Exception "FileNotFoundError" "git");
     py_lower := fun s => s;
     py_strip := fun s => s;
     py_int := fun s => Raise (Exception "ValueError" s) |}.


Definition sample_used_state : State :=
  {| cwd := "/work"; warnings := [];
     self_features := [new_ProjectFeature "project_size" "large" "old"] |}.

(** ** Branches selected by the facts of a profile *)

(** The branch of [recommend_rules] that a value stored under one of the
    keys of [scalar_keys] selects: [project_size == "large"],
    [elif project_size == "medium"], [else]; [team_size in ["medium",
    "large"]]; [feature_dict.get("has_testing") == "true"] and
    [feature_dict.get("has_git") == "true"]. *)
Definition branch_of (k v : string) : string :=
  if String.eqb k "project_size" then
    if String.eqb v "large" then "large"
    else if String.eqb v "medium" then "medium"
    else "small"
  else if String.eqb k "team_size" then
    if str_in v ["medium"; "large"] then "team" else "solo"
  else
    if String.eqb v "true" then "true" else "false".

(** The branch taken when the profile has no fact under the key: the
    defaults ["small"] and ["solo"] of [feature_dict.get], and [None],
    which is not ["true"]. *)
Definition default_branch (k : string) : string :=
  if String.eqb k "project_size" then "small"
  else if String.eqb k "team_size" then "solo"
  else "false".

(** The branch a dictionary of facts selects under a key. *)
Definition selected (d : Dict.t string) (k : string) : string :=
  match Dict.get d k with
  | Some v => branch_of k v
  | None => default_branch k
  end.

Definition selected_branches (d : Dict.t string) : list string :=
  map (selected d) scalar_keys.

(** All values of a list select the branch of the first one. *)
Definition same_branch (k : string) (values : list string) : bool :=
  match values with
  | [] => true
  | v :: rest =>
      forallb (fun v' => String.eqb (branch_of k v') (branch_of k v)) rest
  end.

(** For each key read through [feature_dict], the facts stored under it
    all select the same branch: the key occurs at most once, or its facts
    carry the same value, or values that the engine does not tell
    apart. *)
Definition branch_consistent (features : list ProjectFeature) : bool :=
  forallb (fun k => same_branch k (values_of k features)) scalar_keys.

(** Reading the branches back from an output. *)
Definition has_rule (n : string) (out : list RuleRecommendation) : bool :=
  existsb (fun r => String.eqb (name r) n) out.

Definition has_rule_at (n : string) (w : Z) (out : list RuleRecommendation)
  : bool :=
  existsb (fun r => String.eqb (name r) n && (weight r =? w)) out.

Definition observed_branches (out : list RuleRecommendation) : list string :=
  [ if has_rule "continuous-improvement" out then "large"
    else if has_rule "check" out then "medium" else "small";
    if has_rule "add-to-changelog" out then "team" else "solo";
    if has_rule "five" out then "true" else "false";
    if has_rule_at "commit" 8 out then "true" else "false" ].

(** The candidate the language block emits for an analysed language. *)
Definition code_analysis_for (lang : string) : RuleRecommendation :=
  new_RuleRecommendation "code-analysis" (lang ++ "项目需要代码质量分析") 7
    "quality".

(** The first analysed language of the profile, whose candidate is the
    first [code-analysis] of the language block. *)
Definition first_analysed (langs : list string) : option string :=
  find is_analysed langs.

(** The candidates of the language block, each kept at its first
    occurrence only. *)
Fixpoint first_rules (langs : list string) : list RuleRecommendation :=
  match langs with
  | [] => []
  | lang :: rest =>
      if is_swift lang then
        modern_swift ::
          match first_analysed rest with
          | Some l => [code_analysis_for l]
          | None => []
          end
      else if is_analysed lang then
        code_analysis_for lang ::
          (if existsb is_swift rest then [modern_swift] else [])
      else first_rules rest
  end.

(** The ranking of the candidates emitted for the lookups [d], with the
    list [block] in the place of the language block. *)
Definition full_ranking (d : Dict.t string) (block : list RuleRecommendation)
  : list RuleRecommendation :=
  rank (core_rules
        ++ size_rules (Dict.get_default d "project_size" "small")
        ++ block
        ++ team_rules (Dict.get_default d "team_size" "solo")
        ++ testing_rules d
        ++ git_rules d
        ++ [tracker])%list.

(** The deduplication loop over the language block. *)
Definition loop_languages (langs : list string)
  (u : Dict.t RuleRecommendation) : Dict.t RuleRecommendation :=
  fold_left dedup_step (flat_map language_rules langs) u.

(** The reason text the output gives for [code-analysis], if it has
    one. *)
Definition code_analysis_reason (out : list RuleRecommendation)
  : option string :=
  option_map reason
    (find (fun r => String.eqb (name r) "code-analysis") out).

(** A profile that repeats its scalar keys with values of one branch. *)
Definition sample_repeated_profile : list ProjectFeature :=
  [ new_ProjectFeature "project_size" "small" "项目规模: small";
    new_ProjectFeature "languages" "python" "检测到语言: python";
    new_ProjectFeature "project_size" "tiny" "";
    new_ProjectFeature "languages" "swift" "检测到语言: swift";
    new_ProjectFeature "has_git" "true" "Git项目";
    new_ProjectFeature "languages" "java" "检测到语言: java";
    new_ProjectFeature "has_git" "true" "Git项目";
    new_ProjectFeature "team_size" "medium" "";
    new_ProjectFeature "team_size" "large" "" ].

(* ================================================================== *)
(** * Properties *)

Local Open Scope list_scope.

(** ** Dictionaries *)

Module DictFacts.
Section Facts.
Context {V : Type}.
Implicit Types (d : Dict.t V) (k : string) (v : V).

Lemma get_in d k v : Dict.get d k = Some v -> In (k, v) d.
Proof.
  induction d as [|[k' v'] d IH]; simpl; [discriminate|].
  destruct (String.eqb_spec k' k) as [->|Hne]; intros H.
  - left. congruence.
  - right. auto.
Qed.

Lemma get_none d k : Dict.get d k = None <-> ~ In k (Dict.keys d).
Proof.
  induction d as [|[k' v'] d IH]; simpl.
  - tauto.
  - destruct (String.eqb_spec k' k) as [->|Hne].
    + split; [discriminate | intros H; exfalso; apply H; now left].
    + rewrite IH. intuition.
Qed.

Lemma in_get d k v : NoDup (Dict.keys d) -> In (k, v) d -> Dict.get d k = Some v.
Proof.
  induction d as [|[k' v'] d IH]; simpl; [tauto|].
  intros Hnd [Heq|Hin]; inversion Hnd as [|? ? Hnotin Hnd']; subst.
  - inversion Heq; subst. now rewrite String.eqb_refl.
  - destruct (String.eqb_spec k' k) as [->|Hne]; [|auto].
    exfalso. apply Hnotin. unfold Dict.keys.
    change k with (fst (k, v)). now apply in_map.
Qed.

Lemma keys_set d k v :
  Dict.keys (Dict.set d k v) =
  if Dict.mem d k then Dict.keys d else (Dict.keys d ++ [k])%list.
Proof.
  unfold Dict.mem.
  induction d as [|[k' v'] d IH]; simpl; [reflexivity|].
  destruct (String.eqb_spec k' k) as [->|Hne]; simpl; [reflexivity|].
  rewrite IH. now destruct (Dict.get d k).
Qed.

Lemma get_set_same d k v : Dict.get (Dict.set d k v) k = Some v.
Proof.
  induction d as [|[k' v'] d IH]; simpl.
  - now rewrite String.eqb_refl.
  - destruct (String.eqb_spec k' k) as [->|Hne]; simpl.
    + now rewrite String.eqb_refl.
    + destruct (String.eqb_spec k' k); [contradiction | exact IH].
Qed.

Lemma get_set_other d k v k' :
  k <> k' -> Dict.get (Dict.set d k v) k' = Dict.get d k'.
Proof.
  intros Hne.
  induction d as [|[k0 v0] d IH]; simpl.
  - destruct (String.eqb_spec k k'); [contradiction | reflexivity].
  - destruct (String.eqb_spec k0 k) as [->|Hne0]; simpl.
    + destruct (String.eqb_spec k k'); [contradiction | reflexivity].
    + now rewrite IH.
Qed.

Lemma in_set d k v k' v' :
  In (k', v') (Dict.set d k v) -> (k' = k /\ v' = v) \/ In (k', v') d.
Proof.
  induction d as [|[k0 v0] d IH]; simpl.
  - intros [H|[]]. inversion H; subst. now left.
  - destruct (String.eqb_spec k0 k) as [->|Hne0]; simpl.
    + intros [H|H]; [inversion H; subst; now left | now right; right].
    + intros [H|H]; [now right; left | ].
      destruct (IH H) as [?|?]; [now left | now right; right].
Qed.

Lemma set_in_other d k v k' v' :
  k' <> k -> In (k', v') d -> In (k', v') (Dict.set d k v).
Proof.
  intros Hne.
  induction d as [|[k0 v0] d IH]; simpl; [tauto|].
  destruct (String.eqb_spec k0 k) as [->|Hne0]; simpl.
  - intros [H|H]; [inversion H; subst; contradiction | now right].
  - intros [H|H]; [now left | right; auto].
Qed.

Lemma mem_in d k : Dict.mem d k = true <-> In k (Dict.keys d).
Proof.
  unfold Dict.mem. destruct (Dict.get d k) eqn:E.
  - split; [intros _ | reflexivity].
    apply get_in in E. unfold Dict.keys.
    change k with (fst (k, v)). now apply in_map.
  - apply get_none in E. split; [discriminate | contradiction].
Qed.
End Facts.
End DictFacts.

(** ** The stable descending sort *)

Section SortedFacts.
Context {A : Type} (sort_key : A -> Z).
Local Abbreviation insert := (insert_reverse sort_key).
Local Abbreviation sorted := (sorted_reverse sort_key).

Lemma Forall_perm (P : A -> Prop) l l' :
  Permutation l l' -> Forall P l -> Forall P l'.
Proof. intros Hp Hl. eapply Permutation_Forall; eassumption. Qed.

Lemma insert_reverse_perm x l : Permutation (insert x l) (x :: l).
Proof.
  induction l as [|y l IH]; simpl; [reflexivity|].
  destruct (sort_key x <? sort_key y); [|reflexivity].
  rewrite IH. apply perm_swap.
Qed.

Lemma sorted_reverse_perm l : Permutation (sorted l) l.
Proof.
  induction l as [|x l IH]; simpl; [reflexivity|].
  rewrite insert_reverse_perm. now constructor.
Qed.

Lemma sorted_reverse_in x l : In x (sorted l) <-> In x l.
Proof.
  split; apply Permutation_in;
    [ | symmetry ]; apply sorted_reverse_perm.
Qed.

(** Inserting keeps any relation between earlier and later elements that
    holds vacuously for elements of different keys. *)
Lemma insert_reverse_pairs (R : A -> A -> Prop) x l :
  (forall a b, sort_key a <> sort_key b -> R a b) ->
  Forall (R x) l ->
  StronglySorted R l ->
  StronglySorted R (insert x l).
Proof.
  intros Hvac Hx Hl.
  induction l as [|y l IH]; simpl.
  - repeat constructor.
  - inversion Hx as [|? ? Hxy Hxl]; subst.
    inversion Hl as [|? ? Hl' Hyl]; subst.
    destruct (Z.ltb_spec (sort_key x) (sort_key y)) as [Hlt|Hge].
    + constructor; [now apply IH|].
      apply (Forall_perm _ (x :: l)).
      * symmetry. apply insert_reverse_perm.
      * constructor; [apply Hvac; lia | exact Hyl].
    + constructor; [exact Hl | exact Hx].
Qed.

Lemma sorted_reverse_pairs (R : A -> A -> Prop) l :
  (forall a b, sort_key a <> sort_key b -> R a b) ->
  StronglySorted R l ->
  StronglySorted R (sorted l).
Proof.
  intros Hvac.
  induction 1 as [|x l Hl IH Hx]; simpl; [constructor|].
  apply insert_reverse_pairs; auto.
  apply (Forall_perm _ l); [symmetry; apply sorted_reverse_perm | exact Hx].
Qed.

Lemma insert_reverse_sorted x l :
  StronglySorted (fun a b => sort_key b <= sort_key a) l ->
  StronglySorted (fun a b => sort_key b <= sort_key a) (insert x l).
Proof.
  intros Hl.
  induction l as [|y l IH]; simpl.
  - repeat constructor.
  - inversion Hl as [|? ? Hl' Hyl]; subst.
    destruct (Z.ltb_spec (sort_key x) (sort_key y)) as [Hlt|Hge].
    + constructor; [now apply IH|].
      apply (Forall_perm _ (x :: l)).
      * symmetry. apply insert_reverse_perm.
      * constructor; [lia | exact Hyl].
    + constructor; [exact Hl|].
      constructor; [exact Hge|].
      eapply Forall_impl; [|exact Hyl]. simpl. intros; lia.
Qed.

Lemma sorted_reverse_sorted l :
  StronglySorted (fun a b => sort_key b <= sort_key a) (sorted l).
Proof.
  induction l as [|x l IH]; simpl; [constructor|].
  now apply insert_reverse_sorted.
Qed.

(** Stability, in its usual form: the elements of any one key come out
    in the order they went in. *)
Lemma insert_reverse_filter w x l :
  filter (fun a => sort_key a =? w) (insert x l) =
  filter (fun a => sort_key a =? w) (x :: l).
Proof.
  induction l as [|y l IH]; simpl; [reflexivity|].
  destruct (Z.ltb_spec (sort_key x) (sort_key y)) as [Hlt|Hge]; [|reflexivity].
  simpl. rewrite IH. simpl.
  destruct (Z.eqb_spec (sort_key x) w), (Z.eqb_spec (sort_key y) w);
    try reflexivity; lia.
Qed.

Lemma sorted_reverse_stable w l :
  filter (fun a => sort_key a =? w) (sorted l) =
  filter (fun a => sort_key a =? w) l.
Proof.
  induction l as [|x l IH]; simpl; [reflexivity|].
  rewrite insert_reverse_filter. simpl. now rewrite IH.
Qed.

(** An element smaller than all the others ends up last. *)
Lemma insert_reverse_snoc x l t :
  sort_key t < sort_key x ->
  insert x (l ++ [t]) = insert x l ++ [t].
Proof.
  intros Hlt.
  induction l as [|y l IH]; simpl.
  - destruct (Z.ltb_spec (sort_key x) (sort_key t)); [lia | reflexivity].
  - destruct (sort_key x <? sort_key y); [now rewrite IH | reflexivity].
Qed.

Lemma sorted_reverse_snoc l t :
  Forall (fun a => sort_key t < sort_key a) l ->
  sorted (l ++ [t]) = sorted l ++ [t].
Proof.
  induction 1 as [|x l Hx Hl IH]; simpl; [reflexivity|].
  rewrite IH. now apply insert_reverse_snoc.
Qed.

(** Inserting two elements of different keys commutes. *)
Lemma insert_reverse_comm a b l :
  sort_key a <> sort_key b ->
  insert a (insert b l) = insert b (insert a l).
Proof.
  intros Hne.
  induction l as [|y l IH]; simpl;
    repeat (match goal with
            | |- context [?u <? ?v] => destruct (Z.ltb_spec u v)
            end; simpl);
    try reflexivity; try lia.
  now rewrite IH.
Qed.
End SortedFacts.

(** ** Deduplication *)

Lemma StronglySorted_snoc {A} (R : A -> A -> Prop) l x :
  StronglySorted R l -> Forall (fun a => R a x) l -> StronglySorted R (l ++ [x]).
Proof.
  induction 1 as [|y l Hl IH Hy]; simpl; intros Hx.
  - repeat constructor.
  - inversion Hx; subst. constructor; [auto|].
    apply Forall_app. split; [exact Hy | now repeat constructor].
Qed.

Lemma StronglySorted_weaken {A} (R R' : A -> A -> Prop) l :
  (forall a b, In a l -> In b l -> R a b -> R' a b) ->
  StronglySorted R l -> StronglySorted R' l.
Proof.
  intros Himp. induction 1 as [|y l Hl IH Hy]; constructor.
  - apply IH. intros a b Ha Hb. apply Himp; now right.
  - rewrite Forall_forall in *. intros b Hb.
    apply Himp; [now left | now right | auto].
Qed.

Lemma first_index_app_in n l l' :
  In n (map name l) -> first_index n (l ++ l') = first_index n l.
Proof.
  induction l as [|c l IH]; simpl; [tauto|].
  destruct (String.eqb_spec (name c) n) as [_|Hne]; [reflexivity|].
  intros [H|H]; [contradiction | now rewrite IH].
Qed.

Lemma first_index_app_notin n l l' :
  ~ In n (map name l) ->
  first_index n (l ++ l') = (List.length l + first_index n l')%nat.
Proof.
  induction l as [|c l IH]; simpl; [reflexivity|].
  intros H. destruct (String.eqb_spec (name c) n) as [He|Hne]; [tauto|].
  rewrite IH; tauto.
Qed.

Lemma first_index_lt n l :
  In n (map name l) -> (first_index n l < List.length l)%nat.
Proof.
  induction l as [|c l IH]; simpl; [tauto|].
  destruct (String.eqb_spec (name c) n) as [_|Hne]; [lia|].
  intros [H|H]; [contradiction | apply IH in H; lia].
Qed.

Lemma first_heaviest_in r recs : first_heaviest r recs -> In r recs.
Proof.
  intros (p & q & -> & _). apply in_or_app. right. now left.
Qed.

Lemma first_heaviest_max r recs c :
  first_heaviest r recs -> In c recs -> name c = name r -> weight c <= weight r.
Proof.
  intros (p & q & -> & Hp & Hq) Hin Hn.
  apply in_app_or in Hin. destruct Hin as [Hin|[->|Hin]].
  - specialize (Hp c Hin Hn). lia.
  - lia.
  - auto.
Qed.

Lemma first_heaviest_snoc v recs r :
  first_heaviest v recs ->
  (name r = name v -> weight r <= weight v) ->
  first_heaviest v (recs ++ [r]).
Proof.
  intros (p & q & -> & Hp & Hq) Hr.
  exists p, (q ++ [r]). split; [now rewrite <- app_assoc|].
  split; [exact Hp|].
  intros c Hc Hn. apply in_app_or in Hc.
  destruct Hc as [Hc|[->|[]]]; auto.
Qed.

Lemma first_heaviest_last recs r :
  (forall c, In c recs -> name c = name r -> weight c < weight r) ->
  first_heaviest r (recs ++ [r]).
Proof.
  intros H. exists recs, []. repeat split; [exact H | intros c []].
Qed.

Lemma store_inv_nil : store_inv [] Dict.empty.
Proof.
  split; simpl; try constructor; tauto.
Qed.

Lemma store_inv_step recs u r :
  store_inv recs u -> store_inv (recs ++ [r]) (dedup_step u r).
Proof.
  intros [Hnd Hkeys Hvals Hord].
  assert (Hord' : StronglySorted
            (fun a b => (first_index a (recs ++ [r]) < first_index b (recs ++ [r]))%nat)
            (Dict.keys u)).
  { eapply StronglySorted_weaken; [|exact Hord].
    intros a b Ha Hb. simpl.
    rewrite !first_index_app_in by now apply Hkeys. auto. }
  assert (Hkeys_old : forall n, In n (Dict.keys u) -> In n (map name (recs ++ [r]))).
  { intros n Hn. rewrite map_app. apply in_or_app. left. now apply Hkeys. }
  unfold dedup_step.
  destruct (Dict.get u (name r)) as [stored|] eqn:Hget.
  - (* the id is already stored *)
    assert (Hin : In (name r, stored) u) by now apply DictFacts.get_in.
    assert (Hmem : Dict.mem u (name r) = true) by (unfold Dict.mem; now rewrite Hget).
    assert (Hk : In (name r) (Dict.keys u)) by now apply DictFacts.mem_in.
    assert (Hkeys' : forall n, In n (Dict.keys u) <-> In n (map name (recs ++ [r]))).
    { intros n. rewrite map_app, in_app_iff, <- Hkeys. simpl.
      split; [tauto|]. intros [H|[<-|[]]]; assumption. }
    destruct (Hvals _ _ Hin) as [Hname Hfh].
    destruct (Z.ltb_spec (weight stored) (weight r)) as [Hlt|Hge].
    + (* strictly heavier: replaced *)
      assert (Hks : Dict.keys (Dict.set u (name r) r) = Dict.keys u)
        by (rewrite DictFacts.keys_set; now rewrite Hmem).
      split; rewrite ?Hks; auto.
      intros k v Hkv.
      destruct (string_dec k (name r)) as [->|Hne].
      * assert (Hv : Dict.get (Dict.set u (name r) r) (name r) = Some v).
        { apply DictFacts.in_get; [now rewrite Hks | exact Hkv]. }
        rewrite DictFacts.get_set_same in Hv. inversion Hv; subst v.
        split; [reflexivity|].
        apply first_heaviest_last. intros c Hc Hn.
        assert (weight c <= weight stored); [|lia].
        apply (first_heaviest_max stored recs); congruence.
      * apply DictFacts.in_set in Hkv. destruct Hkv as [[? _]|Hkv]; [contradiction|].
        destruct (Hvals _ _ Hkv) as [Hn Hf]. split; [exact Hn|].
        apply first_heaviest_snoc; [exact Hf | congruence].
    + (* not heavier: kept *)
      split; auto.
      intros k v Hkv. destruct (Hvals _ _ Hkv) as [Hn Hf]. split; [exact Hn|].
      apply first_heaviest_snoc; [exact Hf|].
      intros Heq. rewrite <- Hn, <- Heq in Hkv.
      apply (DictFacts.in_get _ _ _ Hnd) in Hkv.
      rewrite Hget in Hkv. inversion Hkv; subst. exact Hge.
  - (* a new id *)
    assert (Hnk : ~ In (name r) (Dict.keys u)) by now apply DictFacts.get_none.
    assert (Hnr : ~ In (name r) (map name recs)) by now rewrite <- Hkeys.
    assert (Hks : Dict.keys (Dict.set u (name r) r) = Dict.keys u ++ [name r]).
    { rewrite DictFacts.keys_set. unfold Dict.mem. now rewrite Hget. }
    split; rewrite ?Hks.
    + apply NoDup_app; [exact Hnd | repeat constructor; tauto |].
      intros a Ha [<-|[]]. contradiction.
    + intros n. rewrite map_app, !in_app_iff, Hkeys. reflexivity.
    + intros k v Hkv. apply DictFacts.in_set in Hkv.
      destruct Hkv as [[-> ->]|Hkv].
      * split; [reflexivity|]. apply first_heaviest_last.
        intros c Hc Hn. exfalso. apply Hnr. rewrite <- Hn. now apply in_map.
      * destruct (Hvals _ _ Hkv) as [Hn Hf]. split; [exact Hn|].
        apply first_heaviest_snoc; [exact Hf|].
        intros Heq. exfalso. apply Hnk. rewrite Heq, Hn.
        unfold Dict.keys. change k with (fst (k, v)). now apply in_map.
    + apply StronglySorted_snoc; [exact Hord'|].
      rewrite Forall_forall. intros a Ha.
      rewrite first_index_app_in by now apply Hkeys.
      rewrite first_index_app_notin by exact Hnr.
      apply Hkeys, first_index_lt in Ha. lia.
Qed.

Lemma unique_recommendations_snoc recs r :
  unique_recommendations (recs ++ [r]) =
  dedup_step (unique_recommendations recs) r.
Proof.
  unfold unique_recommendations. now rewrite fold_left_app.
Qed.

Lemma store_inv_unique recs : store_inv recs (unique_recommendations recs).
Proof.
  induction recs as [|r recs IH] using rev_ind.
  - exact store_inv_nil.
  - rewrite unique_recommendations_snoc. now apply store_inv_step.
Qed.

Lemma names_of_values recs u :
  store_inv recs u -> map name (Dict.values u) = Dict.keys u.
Proof.
  intros [_ _ Hvals _]. clear -Hvals.
  induction u as [|[k v] u IH]; simpl; [reflexivity|].
  f_equal.
  - apply (Hvals k v). now left.
  - apply IH. intros k' v' H. apply Hvals. now right.
Qed.

Lemma StronglySorted_map_inv {A B} (f : A -> B) (R : B -> B -> Prop) l :
  StronglySorted R (map f l) -> StronglySorted (fun a b => R (f a) (f b)) l.
Proof.
  induction l as [|x l IH]; simpl; intros H; [constructor|].
  inversion H as [|? ? Hl Hx]; subst.
  constructor; [auto|].
  rewrite Forall_forall in *. intros b Hb. apply Hx. now apply in_map.
Qed.

Lemma in_values_entry {V} (u : Dict.t V) v :
  In v (Dict.values u) -> exists k, In (k, v) u.
Proof.
  unfold Dict.values. rewrite in_map_iff.
  intros [[k v'] [<- H]]. now exists k.
Qed.

Lemma rank_perm recs :
  Permutation (rank recs) (Dict.values (unique_recommendations recs)).
Proof. apply sorted_reverse_perm. Qed.

Lemma rank_first_heaviest recs r : In r (rank recs) -> first_heaviest r recs.
Proof.
  intros H. apply sorted_reverse_in, in_values_entry in H.
  destruct H as [k H]. now apply (inv_vals _ _ (store_inv_unique recs)) in H.
Qed.

Lemma rank_names recs n : In n (map name (rank recs)) <-> In n (map name recs).
Proof.
  rewrite <- (inv_keys _ _ (store_inv_unique recs)).
  rewrite <- (names_of_values _ _ (store_inv_unique recs)).
  split; apply Permutation_in; [|symmetry]; apply Permutation_map, rank_perm.
Qed.

(** C1.  For every list of candidates, the ranked output has each id once,
    has exactly the ids that were proposed, carries for each id a candidate
    of the input whose weight is the maximum proposed for that id, is
    ordered by non-increasing weight, and orders candidates of equal weight
    by the position at which their ids were first emitted.
    [recommend_rules] returns this ranking of the candidates it emits. *)
Theorem rank_unique_max_sorted_stable :
  forall recs : list RuleRecommendation,
    let out := rank recs in
    NoDup (map name out) /\
    (forall n, In n (map name out) <-> In n (map name recs)) /\
    (forall r, In r out ->
       In r recs /\
       forall c, In c recs -> name c = name r -> weight c <= weight r) /\
    StronglySorted (fun a b => weight b <= weight a) out /\
    StronglySorted
      (fun a b => weight a = weight b ->
                  (first_index (name a) recs < first_index (name b) recs)%nat)
      out /\
    (forall self features,
       recommend_rules self features = rank (recommendations features)).
Proof.
  intros recs out. subst out.
  pose proof (store_inv_unique recs) as Hinv.
  split; [|split; [|split; [|split; [|split]]]].
  - apply (Permutation_NoDup (l := Dict.keys (unique_recommendations recs))).
    + rewrite <- (names_of_values _ _ Hinv).
      symmetry. apply Permutation_map, rank_perm.
    + apply Hinv.
  - apply rank_names.
  - intros r Hr. apply rank_first_heaviest in Hr. split.
    + now apply first_heaviest_in.
    + intros c Hc Hn. now apply (first_heaviest_max r recs).
  - apply sorted_reverse_sorted.
  - apply sorted_reverse_pairs.
    + intros a b Hne Heq. contradiction.
    + pose proof (inv_order _ _ Hinv) as Hord.
      rewrite <- (names_of_values _ _ Hinv) in Hord.
      apply StronglySorted_map_inv in Hord.
      eapply StronglySorted_weaken; [|exact Hord]. auto.
  - reflexivity.
Qed.

(** C3.  One step of the deduplication loop on an id that is already
    stored: the entry becomes the later candidate, whole, exactly when its
    weight is strictly greater, and otherwise the dictionary is left as it
    was; other ids and the insertion order are untouched.  Over a whole run,
    the candidate kept for an id is the first-emitted among the heaviest
    ones for that id, with its own reason and category. *)
Theorem dedup_replaces_only_if_strictly_heavier :
  (forall (u : Dict.t RuleRecommendation) (rec stored : RuleRecommendation),
     Dict.get u (name rec) = Some stored ->
     Dict.get (dedup_step u rec) (name rec)
       = Some (if weight stored <? weight rec then rec else stored) /\
     (weight rec <= weight stored -> dedup_step u rec = u) /\
     (forall k, k <> name rec ->
        Dict.get (dedup_step u rec) k = Dict.get u k) /\
     Dict.keys (dedup_step u rec) = Dict.keys u) /\
  (forall a b : RuleRecommendation,
     name a = name b ->
     rank [a; b] = [if weight a <? weight b then b else a]) /\
  (forall recs r, In r (rank recs) -> first_heaviest r recs).
Proof.
  split; [|split].
  - intros u rec stored Hget. unfold dedup_step. rewrite Hget.
    destruct (Z.ltb_spec (weight stored) (weight rec)) as [Hlt|Hge].
    + split; [apply DictFacts.get_set_same|].
      split; [lia|].
      split; [intros k Hk; now apply DictFacts.get_set_other|].
      rewrite DictFacts.keys_set. unfold Dict.mem. now rewrite Hget.
    + repeat split; auto.
  - intros a b Hab. unfold rank, unique_recommendations, dedup_step. simpl.
    rewrite Hab, String.eqb_refl.
    destruct (weight a <? weight b); reflexivity.
  - apply rank_first_heaviest.
Qed.

(** ** The profile as the engine reads it *)

Lemma feature_dict_get_from fs (d : Dict.t string) k :
  Dict.get (fold_left (fun d f => Dict.set d (key f) (value f)) fs d) k =
  fold_left (fun _ x => Some x) (values_of k fs) (Dict.get d k).
Proof.
  revert d. induction fs as [|f fs IH]; intros d; simpl; [reflexivity|].
  rewrite IH. unfold values_of. simpl.
  destruct (String.eqb_spec (key f) k) as [<-|Hne]; simpl.
  - now rewrite DictFacts.get_set_same.
  - now rewrite DictFacts.get_set_other.
Qed.

Lemma feature_dict_get fs k :
  Dict.get (feature_dict fs) k = last_opt (values_of k fs).
Proof. apply feature_dict_get_from. Qed.

Lemma filter_perm {A} (f : A -> bool) l l' :
  Permutation l l' -> Permutation (filter f l) (filter f l').
Proof.
  induction 1 as [|x l l' _ IH|x y l|l l' l'' _ IH1 _ IH2]; simpl.
  - constructor.
  - destruct (f x); [now constructor | exact IH].
  - destruct (f x), (f y); try reflexivity. apply perm_swap.
  - now transitivity (filter f l').
Qed.

Lemma values_of_perm k fs fs' :
  Permutation fs fs' -> Permutation (values_of k fs) (values_of k fs').
Proof. intros H. apply Permutation_map, filter_perm, H. Qed.

Lemma values_of_app k fs1 fs2 :
  values_of k (fs1 ++ fs2) = values_of k fs1 ++ values_of k fs2.
Proof. unfold values_of. now rewrite filter_app, map_app. Qed.

Lemma perm_short {A} (l l' : list A) :
  Permutation l l' -> (List.length l <= 1)%nat -> l = l'.
Proof.
  destruct l as [|x [|y l]]; simpl; intros Hp Hlen.
  - now apply Permutation_nil in Hp.
  - now apply Permutation_length_1_inv in Hp.
  - lia.
Qed.

Lemma values_of_length k fs : List.length (values_of k fs) = count_key k fs.
Proof. apply length_map. Qed.

(** The output depends on the profile only through four dictionary
    lookups and the sequence of language values. *)
Lemma recommendations_ext fs fs' :
  (forall k, In k scalar_keys ->
     Dict.get (feature_dict fs) k = Dict.get (feature_dict fs') k) ->
  languages fs = languages fs' ->
  recommendations fs = recommendations fs'.
Proof.
  intros Hk Hl. unfold recommendations, testing_rules, git_rules, is_true,
    Dict.get_default.
  rewrite Hl.
  rewrite (Hk "project_size"), (Hk "team_size"), (Hk "has_testing"),
    (Hk "has_git") by (simpl; tauto).
  reflexivity.
Qed.

Lemma recommendations_split fs :
  recommendations fs = recommendations_body fs ++ [tracker].
Proof.
  unfold recommendations, recommendations_body.
  now rewrite <- !app_assoc.
Qed.

Ltac in_concrete_list :=
  simpl; repeat (first [left; reflexivity | right]).

Ltac forall_concrete tac :=
  repeat (apply Forall_cons; [tac|]); apply Forall_nil.

Lemma language_rules_signatures lang :
  Forall (fun c => In (rule_signature c) emitted_signatures)
    (language_rules lang).
Proof.
  unfold language_rules.
  destruct (String.eqb lang "swift"); [|destruct (str_in lang _)];
    forall_concrete in_concrete_list.
Qed.

Lemma body_signatures fs :
  Forall (fun c => In (rule_signature c) emitted_signatures)
    (recommendations_body fs).
Proof.
  unfold recommendations_body.
  repeat (apply Forall_app; split).
  - forall_concrete in_concrete_list.
  - unfold size_rules.
    destruct (String.eqb _ "large"); [|destruct (String.eqb _ "medium")];
      forall_concrete in_concrete_list.
  - apply Forall_flat_map. rewrite Forall_forall. intros lang _.
    apply language_rules_signatures.
  - unfold team_rules. destruct (str_in _ _); forall_concrete in_concrete_list.
  - unfold testing_rules. destruct (is_true _ _); forall_concrete in_concrete_list.
  - unfold git_rules. destruct (is_true _ _); forall_concrete in_concrete_list.
Qed.

Lemma emitted_signatures_heavier :
  Forall (fun s => fst (fst s) <> name tracker /\ weight tracker < snd (fst s))
    emitted_signatures.
Proof.
  forall_concrete ltac:(simpl; split; [discriminate | reflexivity]).
Qed.

Lemma body_heavier fs :
  Forall (fun c => name c <> name tracker /\ weight tracker < weight c)
    (recommendations_body fs).
Proof.
  eapply Forall_impl; [|apply body_signatures].
  intros c Hc.
  pose proof emitted_signatures_heavier as H.
  rewrite Forall_forall in H. apply (H _ Hc).
Qed.

Lemma values_set_new {V} (u : Dict.t V) k v :
  Dict.get u k = None -> Dict.values (Dict.set u k v) = Dict.values u ++ [v].
Proof.
  induction u as [|[k' v'] u IH]; simpl; [reflexivity|].
  destruct (String.eqb k' k); [discriminate|].
  intros H. simpl. now rewrite IH.
Qed.

(** ** The recommendation engine *)

Lemma lookup_perm_unique k fs fs' :
  Permutation fs fs' ->
  (count_key k fs <= 1)%nat ->
  Dict.get (feature_dict fs) k = Dict.get (feature_dict fs') k.
Proof.
  intros Hp Hc. rewrite !feature_dict_get. f_equal.
  apply perm_short; [now apply values_of_perm | now rewrite values_of_length].
Qed.

(** C5.  On the profile with no facts [recommend_rules] returns (it is a
    total function, nothing in it can raise) the six candidates of the core
    block, of the small size branch and of the meta rule: the absent
    [project_size] defaults to the small branch, and the team and toolchain
    blocks add nothing. *)
Theorem recommend_rules_empty_profile :
  forall self : RuleEngine,
    recommend_rules self [] =
      [ new_RuleRecommendation "implement-task" "核心开发流程规则" 10 "core";
        new_RuleRecommendation "bug-fix" "核心开发流程规则" 10 "core";
        new_RuleRecommendation "quick-wins" "快速胜利策略" 8 "productivity";
        new_RuleRecommendation "clean" "小型项目重点关注代码整洁" 7 "maintenance";
        new_RuleRecommendation "commit" "小型项目需要提交规范" 6 "workflow";
        new_RuleRecommendation "rule-effectiveness-tracker" "跟踪规则使用效果" 5 "meta" ] /\
    recommend_rules self [] <> [] /\
    Forall (fun n => In n (map name (recommend_rules self [])))
      [ "implement-task"; "bug-fix"; "quick-wins";
        "rule-effectiveness-tracker"; "clean"; "commit" ] /\
    recommendations [] = core_rules ++ size_rules "small" ++ [tracker].
Proof.
  intros self. split; [reflexivity|]. split; [discriminate|].
  split; [forall_concrete in_concrete_list | reflexivity].
Qed.

(** C2.  For the profile project_size=large, languages=[python],
    team_size=large, has_testing=true, has_git=true (whatever the
    descriptions and the order of the five facts), [recommend_rules]
    returns exactly ten candidates: the ids and weights of the scenario,
    in non-increasing order of weight; [code-analysis] carries the weight 9
    and the reason of the size-large branch.  Among the four candidates of
    weight 8 the order is quick-wins, pr-review, five, commit. *)
Theorem recommend_rules_scenario :
  forall (self : RuleEngine) (d1 d2 d3 d4 d5 : string)
         (features : list ProjectFeature),
    Permutation features (scenario_profile d1 d2 d3 d4 d5) ->
    let out := recommend_rules self features in
    out =
      [ new_RuleRecommendation "implement-task" "核心开发流程规则" 10 "core";
        new_RuleRecommendation "bug-fix" "核心开发流程规则" 10 "core";
        new_RuleRecommendation "code-analysis" "大型项目需要严格的代码质量控制" 9 "quality";
        new_RuleRecommendation "quick-wins" "快速胜利策略" 8 "productivity";
        new_RuleRecommendation "pr-review" "大型项目需要代码审查" 8 "collaboration";
        new_RuleRecommendation "five" "已有测试框架，增强测试质量" 8 "testing";
        new_RuleRecommendation "commit" "Git项目需要提交规范" 8 "workflow";
        new_RuleRecommendation "continuous-improvement" "大型项目需要持续改进" 7 "process";
        new_RuleRecommendation "add-to-changelog" "团队项目需要变更记录" 6 "documentation";
        new_RuleRecommendation "rule-effectiveness-tracker" "跟踪规则使用效果" 5 "meta" ] /\
    Permutation (map id_weight out)
      [ ("implement-task", 10); ("bug-fix", 10); ("code-analysis", 9);
        ("pr-review", 8); ("quick-wins", 8); ("five", 8); ("commit", 8);
        ("continuous-improvement", 7); ("add-to-changelog", 6);
        ("rule-effectiveness-tracker", 5) ] /\
    StronglySorted (fun a b => weight b <= weight a) out.
Proof.
  intros self d1 d2 d3 d4 d5 features Hperm out.
  assert (Hrecs : recommendations features =
                  recommendations (scenario_profile d1 d2 d3 d4 d5)).
  { apply recommendations_ext.
    - intros k Hk. symmetry. apply lookup_perm_unique; [now symmetry|].
      simpl in Hk. decompose [or] Hk; subst; try contradiction;
        vm_compute; lia.
    - symmetry. apply (perm_short (values_of "languages" _)).
      + apply values_of_perm. now symmetry.
      + vm_compute. lia. }
  assert (Hout : out = recommend_rules self (scenario_profile d1 d2 d3 d4 d5)).
  { subst out. unfold recommend_rules. now rewrite Hrecs. }
  rewrite Hout. split; [reflexivity|]. split.
  - simpl. do 3 apply perm_skip. apply perm_swap.
  - rewrite <- Hout. apply sorted_reverse_sorted.
Qed.

Lemma core_signatures_determined :
  Forall (fun s =>
            Forall (fun s' => fst (fst s) = fst (fst s') -> s = s')
              core_signatures)
    (emitted_signatures ++ [rule_signature tracker]).
Proof.
  forall_concrete
    ltac:(forall_concrete
            ltac:(simpl; intros H; first [reflexivity | discriminate H])).
Qed.

Lemma recommendations_signatures fs c :
  In c (recommendations fs) ->
  In (rule_signature c) (emitted_signatures ++ [rule_signature tracker]).
Proof.
  rewrite recommendations_split. intros H.
  apply in_app_or in H. apply in_or_app. destruct H as [H|[<-|[]]].
  - left. pose proof (body_signatures fs) as Hb.
    rewrite Forall_forall in Hb. now apply Hb.
  - right. now left.
Qed.

Lemma recommend_rules_sub self fs c :
  In c (recommend_rules self fs) -> In c (recommendations fs).
Proof.
  intros H. now apply rank_first_heaviest, first_heaviest_in in H.
Qed.

(** C6.  Whatever the profile, the output contains the ids
    [implement-task], [bug-fix], [quick-wins] and
    [rule-effectiveness-tracker], each with its fixed weight and
    category. *)
Theorem core_and_meta_rules_always_present :
  forall (self : RuleEngine) (features : list ProjectFeature),
    let out := recommend_rules self features in
    Forall (fun n => In n (map name out))
      [ "implement-task"; "bug-fix"; "quick-wins";
        "rule-effectiveness-tracker" ] /\
    Forall (fun s => In s (map rule_signature out)) core_signatures.
Proof.
  intros self fs out.
  assert (Hnames : forall n, In n (map fst (map fst core_signatures)) ->
                             In n (map name out)).
  { intros n Hn. apply rank_names. rewrite recommendations_split.
    unfold recommendations_body. rewrite !map_app.
    simpl in Hn. decompose [or] Hn; subst; try contradiction.
    - apply in_or_app; left. apply in_or_app; left. in_concrete_list.
    - apply in_or_app; left. apply in_or_app; left. in_concrete_list.
    - apply in_or_app; left. apply in_or_app; left. in_concrete_list.
    - apply in_or_app; right. in_concrete_list. }
  split.
  - rewrite Forall_forall. intros n Hn. apply Hnames. exact Hn.
  - rewrite Forall_forall. intros s Hs.
    assert (Hn : In (fst (fst s)) (map name out)).
    { apply Hnames. now apply in_map, in_map. }
    apply in_map_iff in Hn. destruct Hn as (c & Hc & Hin).
    apply in_map_iff. exists c. split; [|exact Hin].
    apply recommend_rules_sub, recommendations_signatures in Hin.
    pose proof core_signatures_determined as Hd.
    rewrite Forall_forall in Hd. specialize (Hd _ Hin).
    rewrite Forall_forall in Hd. apply (Hd s Hs). exact Hc.
Qed.

(** C10.  Whatever the profile, [rule-effectiveness-tracker] is the last
    element of the output: every other candidate the engine emits has
    another id and a weight of at least 6, above the tracker's 5. *)
Theorem tracker_is_last :
  forall (self : RuleEngine) (features : list ProjectFeature),
    weight tracker = 5 /\
    exists init,
      recommend_rules self features = init ++ [tracker] /\
      Forall (fun c => name c <> name tracker /\ 6 <= weight c) init /\
      forall d, last (recommend_rules self features) d = tracker.
Proof.
  intros self fs. split; [reflexivity|].
  pose proof (body_heavier fs) as Hbody. rewrite Forall_forall in Hbody.
  pose proof (store_inv_unique (recommendations_body fs)) as Hinv.
  set (u := unique_recommendations (recommendations_body fs)) in *.
  assert (Hnew : Dict.get u (name tracker) = None).
  { apply DictFacts.get_none. rewrite (inv_keys _ _ Hinv).
    intros H. apply in_map_iff in H. destruct H as (c & Hc & Hin).
    now apply (Hbody c Hin). }
  assert (Hvals : forall c, In c (Dict.values u) ->
                            name c <> name tracker /\ weight tracker < weight c).
  { intros c Hc. apply in_values_entry in Hc. destruct Hc as [k Hc].
    apply (inv_vals _ _ Hinv) in Hc. destruct Hc as [_ Hc].
    apply Hbody. now apply first_heaviest_in in Hc. }
  exists (sorted_reverse weight (Dict.values u)).
  assert (Heq : recommend_rules self fs =
                sorted_reverse weight (Dict.values u) ++ [tracker]).
  { unfold recommend_rules, rank.
    rewrite recommendations_split, unique_recommendations_snoc.
    fold u. unfold dedup_step. rewrite Hnew.
    rewrite values_set_new by exact Hnew.
    apply sorted_reverse_snoc. rewrite Forall_forall.
    intros c Hc. now apply Hvals. }
  split; [exact Heq|]. split.
  - rewrite Forall_forall. intros c Hc. apply sorted_reverse_in in Hc.
    destruct (Hvals c Hc) as [Hn Hw]. split; [exact Hn|].
    change (weight tracker) with 5 in Hw. lia.
  - intros d. rewrite Heq. apply last_last.
Qed.

(** C4 (as amended).  The engine consumes no part of the loaded
    configuration: the output is the same whatever rule table the engine
    holds.  The weights and categories of the candidates are the engine's
    own; they agree with the built-in default table on every id that table
    lists. *)
Theorem candidates_independent_of_config :
  (forall (self self' : RuleEngine) (features : list ProjectFeature),
     recommend_rules self features = recommend_rules self' features) /\
  (forall (features : list ProjectFeature) (c : RuleRecommendation)
          (w : Z) (cat : string),
     In c (recommendations features) ->
     rule_table_entry _get_default_config (name c) = Some (w, cat) ->
     weight c = w /\ category c = cat) /\
  (forall (self : RuleEngine) (features : list ProjectFeature)
          (c : RuleRecommendation) (w : Z) (cat : string),
     In c (recommend_rules self features) ->
     rule_table_entry _get_default_config (name c) = Some (w, cat) ->
     weight c = w /\ category c = cat).
Proof.
  assert (Hbody : forall features c w cat,
             In c (recommendations features) ->
             rule_table_entry _get_default_config (name c) = Some (w, cat) ->
             weight c = w /\ category c = cat).
  { intros fs c w cat Hin Hentry.
    apply recommendations_signatures in Hin.
    assert (Htable :
      Forall (fun s => forall w cat,
                rule_table_entry _get_default_config (fst (fst s)) = Some (w, cat) ->
                snd (fst s) = w /\ snd s = cat)
        (emitted_signatures ++ [rule_signature tracker])).
    { forall_concrete
        ltac:(intros w' cat' H; vm_compute in H;
              first [discriminate H | inversion H; split; reflexivity]). }
    rewrite Forall_forall in Htable.
    apply (Htable _ Hin w cat Hentry). }
  split; [reflexivity|]. split; [exact Hbody|].
  intros self fs c w cat Hin. apply Hbody with (features := fs).
  now apply recommend_rules_sub in Hin.
Qed.

(** C4, the claim as stated, fails: the engine constructed from a
    configuration document that gives [implement-task] the weight 3 and the
    category [custom] still emits it with the weight 10 and the category
    [core]. *)
Lemma config_table_not_consumed :
  new_RuleEngine custom_files custom_json_load "/home/user" None sample_state
    = (sample_state, Ok custom_engine) /\
  rule_table_entry (config custom_engine) "implement-task" = Some (3, "custom") /\
  ~ (forall (c : RuleRecommendation) (w : Z) (cat : string),
       In c (recommend_rules custom_engine []) ->
       rule_table_entry (config custom_engine) (name c) = Some (w, cat) ->
       weight c = w /\ category c = cat).
Proof.
  split; [reflexivity|]. split; [reflexivity|].
  intros H.
  specialize (H (new_RuleRecommendation "implement-task" "核心开发流程规则" 10 "core")
                3 "custom").
  destruct H as [Hw _]; [in_concrete_list | reflexivity | discriminate Hw].
Qed.

(** ** Loading the configuration *)

Lemma load_config_default files json_load p s :
  config_unavailable files json_load p ->
  exists s',
    _load_config files json_load p s = (s', Ok _get_default_config) /\
    cwd s' = cwd s /\ self_features s' = self_features s.
Proof.
  unfold _load_config, path_exists, open_read, try_except, bind.
  intros [H|[[e H]|(content & e & H & Hj)]]; rewrite H; simpl.
  - exists s. auto.
  - eexists. split; [reflexivity|]. split; reflexivity.
  - rewrite Hj. eexists. split; [reflexivity|]. split; reflexivity.
Qed.

Lemma engine_construction_default files json_load home config_path_arg s :
  config_unavailable files json_load
    (resolved_config_path home config_path_arg) ->
  exists s' engine,
    new_RuleEngine files json_load home config_path_arg s = (s', Ok engine) /\
    config engine = _get_default_config /\
    config_path engine = resolved_config_path home config_path_arg.
Proof.
  intros Hun.
  destruct (load_config_default files json_load _ s Hun) as (s' & Hload & _).
  unfold new_RuleEngine, new_PathManager, bind. simpl.
  fold (resolved_config_path home config_path_arg).
  rewrite Hload. unfold ret.
  eexists. eexists. split; [reflexivity|]. split; reflexivity.
Qed.

(** C7.  The constructor of [RuleEngine] falls back to the built-in
    default table, without raising, when the configuration document is
    missing and when it exists but opening, reading or parsing it raises.
    The existence test stands before the [try]: when it raises (the
    document cannot be reached), [_load_config] and the constructor raise
    the same exception, and no engine is built. *)
Theorem engine_construction_raises_on_unreachable_config :
  forall (files : Path -> file_state) (json_load : string -> result json)
         (home : Path) (config_path_arg : option Path) (s : State),
    (config_unavailable files json_load
       (resolved_config_path home config_path_arg) ->
     exists s' engine,
       new_RuleEngine files json_load home config_path_arg s = (s', Ok engine) /\
       config engine = _get_default_config) /\
    (forall e,
       files (resolved_config_path home config_path_arg) = Unstatable e ->
       _load_config files json_load
         (resolved_config_path home config_path_arg) s = (s, Raise e) /\
       new_RuleEngine files json_load home config_path_arg s = (s, Raise e)).
Proof.
  intros files json_load home arg s. split.
  - intros Hun.
    destruct (engine_construction_default files json_load home arg s Hun)
      as (s' & engine & E & Hc & _).
    now exists s', engine.
  - intros e Hf.
    assert (Hload : _load_config files json_load
                      (resolved_config_path home arg) s = (s, Raise e)).
    { unfold _load_config, path_exists, bind, raise. now rewrite Hf. }
    split; [exact Hload|].
    unfold new_RuleEngine, new_PathManager, bind. simpl.
    fold (resolved_config_path home arg). now rewrite Hload.
Qed.

(** ** The scoped working directory *)

Lemma os_chdir_back is_dir prev s :
  is_absolute prev = true -> is_dir prev = true ->
  exists s', os_chdir is_dir prev s = (s', Ok tt) /\ cwd s' = prev.
Proof.
  intros Habs Hdir. unfold os_chdir. rewrite Habs, Hdir.
  eexists. split; reflexivity.
Qed.

Lemma working_directory_cwd {A} is_dir path (body : Py A) s :
  is_absolute (cwd s) = true -> is_dir (cwd s) = true ->
  cwd (fst (working_directory is_dir path body s)) = cwd s.
Proof.
  intros Habs Hdir.
  unfold working_directory, bind, Path_cwd, try_finally.
  destruct (os_chdir is_dir path s) as [s1 [[]|e]] eqn:Hin.
  - destruct (body s1) as [s2 r].
    destruct (os_chdir_back is_dir (cwd s) s2 Habs Hdir) as (s3 & -> & Hs3).
    exact Hs3.
  - unfold os_chdir in Hin.
    destruct (is_dir (if is_absolute path then path else _));
      inversion Hin; subst; reflexivity.
Qed.

(** C9.  Whatever the project path and whatever the probes do (change the
    state, raise), the working directory after [analyze] is the one before
    it, on normal return and when an exception propagates; the same holds
    of [working_directory] around any body.  The process starts in an
    existing directory, given by its absolute path. *)
Theorem analyze_restores_working_directory :
  forall (is_dir : Path -> bool)
         (_analyze_project_size _analyze_languages _analyze_frameworks
          _analyze_team_info _analyze_toolchain : Path -> Py unit)
         (project_path : Path) (s : State),
    is_absolute (cwd s) = true ->
    is_dir (cwd s) = true ->
    cwd (fst (analyze is_dir _analyze_project_size _analyze_languages
                _analyze_frameworks _analyze_team_info _analyze_toolchain
                project_path s)) = cwd s /\
    forall (A : Type) (path : Path) (body : Py A),
      cwd (fst (working_directory is_dir path body s)) = cwd s.
Proof.
  intros is_dir p1 p2 p3 p4 p5 project_path s Habs Hdir.
  split; [|intros; now apply working_directory_cwd].
  unfold analyze. unfold bind at 1. simpl.
  set (s0 := {| cwd := cwd s; warnings := warnings s; self_features := [] |}).
  unfold bind at 1.
  match goal with
  | |- context [working_directory is_dir project_path ?b s0] =>
      pose proof (working_directory_cwd is_dir project_path b s0 Habs Hdir) as Hwd;
      destruct (working_directory is_dir project_path b s0) as [s1 [[]|e]]
  end; simpl in *; exact Hwd.
Qed.

(** ** Order of the facts *)

Section RankMap.
Variable f : RuleRecommendation -> RuleRecommendation.
Hypothesis f_name : forall r, name (f r) = name r.
Hypothesis f_weight : forall r, weight (f r) = weight r.

Let lift (u : Dict.t RuleRecommendation) : Dict.t RuleRecommendation :=
  map (fun kv => (fst kv, f (snd kv))) u.

Lemma lift_get u k : Dict.get (lift u) k = option_map f (Dict.get u k).
Proof.
  induction u as [|[k' v] u IH]; simpl; [reflexivity|].
  destruct (String.eqb k' k); [reflexivity | exact IH].
Qed.

Lemma lift_set u k v : Dict.set (lift u) k (f v) = lift (Dict.set u k v).
Proof.
  induction u as [|[k' v'] u IH]; simpl; [reflexivity|].
  destruct (String.eqb k' k); simpl; [reflexivity | now rewrite IH].
Qed.

Lemma lift_step u r : dedup_step (lift u) (f r) = lift (dedup_step u r).
Proof.
  unfold dedup_step. rewrite f_name, lift_get.
  destruct (Dict.get u (name r)) as [stored|]; simpl.
  - rewrite !f_weight.
    destruct (weight stored <? weight r); [apply lift_set | reflexivity].
  - apply lift_set.
Qed.

Lemma lift_fold l u :
  fold_left dedup_step (map f l) (lift u) = lift (fold_left dedup_step l u).
Proof.
  revert u. induction l as [|r l IH]; intros u; simpl; [reflexivity|].
  now rewrite lift_step, IH.
Qed.

Lemma insert_reverse_map x l :
  insert_reverse weight (f x) (map f l) = map f (insert_reverse weight x l).
Proof.
  induction l as [|y l IH]; simpl; [reflexivity|].
  rewrite !f_weight.
  destruct (weight x <? weight y); simpl; [now rewrite IH | reflexivity].
Qed.

Lemma sorted_reverse_map l :
  sorted_reverse weight (map f l) = map f (sorted_reverse weight l).
Proof.
  induction l as [|x l IH]; simpl; [reflexivity|].
  now rewrite IH, insert_reverse_map.
Qed.

(** Ranking commutes with any change of the candidates that keeps ids
    and weights. *)
Lemma rank_map l : rank (map f l) = map f (rank l).
Proof.
  unfold rank, unique_recommendations.
  change (@Dict.empty RuleRecommendation) with (lift Dict.empty) at 1.
  rewrite lift_fold. unfold lift, Dict.values.
  rewrite map_map. simpl.
  rewrite <- sorted_reverse_map. now rewrite map_map.
Qed.
End RankMap.

Lemma blur_name r : name (blur r) = name r.
Proof. unfold blur. now destruct (String.eqb _ _). Qed.

Lemma blur_weight r : weight (blur r) = weight r.
Proof. unfold blur. now destruct (String.eqb _ _). Qed.

Lemma rank_blur l : rank (map blur l) = map blur (rank l).
Proof. apply rank_map; [apply blur_name | apply blur_weight]. Qed.

Lemma step_covered u x : covered u x -> dedup_step u x = u.
Proof.
  intros (stored & Hget & Hle). unfold dedup_step. rewrite Hget.
  destruct (Z.ltb_spec (weight stored) (weight x)); [lia | reflexivity].
Qed.

Lemma covered_step_self u x : covered (dedup_step u x) x.
Proof.
  unfold covered, dedup_step.
  destruct (Dict.get u (name x)) as [stored|] eqn:Hget.
  - destruct (Z.ltb_spec (weight stored) (weight x)).
    + exists x. rewrite DictFacts.get_set_same. split; [reflexivity | lia].
    + exists stored. now split.
  - exists x. rewrite DictFacts.get_set_same. split; [reflexivity | lia].
Qed.

Lemma covered_step_mono u x y : covered u x -> covered (dedup_step u y) x.
Proof.
  intros (stored & Hget & Hle). unfold covered, dedup_step.
  destruct (string_dec (name y) (name x)) as [Heq|Hne].
  - rewrite Heq, Hget.
    destruct (Z.ltb_spec (weight stored) (weight y)).
    + exists y. rewrite DictFacts.get_set_same. split; [reflexivity | lia].
    + exists stored. now split.
  - destruct (Dict.get u (name y)) as [s'|];
      [destruct (weight s' <? weight y)|];
      exists stored; rewrite ?DictFacts.get_set_other by exact Hne; now split.
Qed.

Lemma blur_language_rules lang :
  map blur (language_rules lang) =
  if is_swift lang then [modern_swift]
  else if is_analysed lang then [code_analysis_blurred]
  else [].
Proof.
  unfold language_rules, is_analysed, is_swift.
  destruct (String.eqb lang "swift"); [reflexivity|].
  simpl negb. rewrite andb_true_l.
  now destruct (str_in lang _).
Qed.

Lemma map_flat_map_blur langs :
  map blur (flat_map language_rules langs) =
  flat_map (fun lang => map blur (language_rules lang)) langs.
Proof.
  induction langs as [|lang langs IH]; simpl; [reflexivity|].
  now rewrite map_app, IH.
Qed.

Lemma run_languages_cons lang langs u :
  run_languages (lang :: langs) u =
  run_languages langs
    (fold_left dedup_step (map blur (language_rules lang)) u).
Proof.
  unfold run_languages. simpl. now rewrite map_app, fold_left_app.
Qed.

Lemma is_analysed_not_swift lang : is_swift lang = true -> is_analysed lang = false.
Proof. unfold is_analysed. now intros ->. Qed.

Lemma run_languages_covered langs u :
  covered u modern_swift -> covered u code_analysis_blurred ->
  run_languages langs u = u.
Proof.
  intros Hs Ha. induction langs as [|lang langs IH]; [reflexivity|].
  rewrite run_languages_cons, blur_language_rules.
  destruct (is_swift lang); [|destruct (is_analysed lang)]; simpl;
    rewrite ?step_covered by assumption; exact IH.
Qed.

Lemma run_languages_swift_covered langs u :
  covered u modern_swift ->
  run_languages langs u =
  if existsb is_analysed langs then dedup_step u code_analysis_blurred else u.
Proof.
  intros Hs. induction langs as [|lang langs IH]; [reflexivity|].
  rewrite run_languages_cons, blur_language_rules. simpl existsb.
  destruct (is_swift lang) eqn:Hsw.
  - rewrite (is_analysed_not_swift _ Hsw). simpl.
    now rewrite step_covered by assumption.
  - destruct (is_analysed lang); simpl; [|exact IH].
    apply run_languages_covered;
      [now apply covered_step_mono | apply covered_step_self].
Qed.

Lemma run_languages_analysed_covered langs u :
  covered u code_analysis_blurred ->
  run_languages langs u =
  if existsb is_swift langs then dedup_step u modern_swift else u.
Proof.
  intros Ha. induction langs as [|lang langs IH]; [reflexivity|].
  rewrite run_languages_cons, blur_language_rules. simpl existsb.
  destruct (is_swift lang) eqn:Hsw; simpl.
  - apply run_languages_covered;
      [apply covered_step_self | now apply covered_step_mono].
  - destruct (is_analysed lang); simpl; [|exact IH].
    now rewrite step_covered by assumption.
Qed.

Lemma run_languages_first langs u :
  run_languages langs u = fold_left dedup_step (first_language_rules langs) u.
Proof.
  induction langs as [|lang langs IH]; [reflexivity|].
  rewrite run_languages_cons, blur_language_rules. simpl first_language_rules.
  destruct (is_swift lang); [|destruct (is_analysed lang)]; simpl.
  - rewrite run_languages_swift_covered by apply covered_step_self.
    now destruct (existsb is_analysed langs).
  - rewrite run_languages_analysed_covered by apply covered_step_self.
    now destruct (existsb is_swift langs).
  - exact IH.
Qed.

Lemma existsb_perm {A} (p : A -> bool) l l' :
  Permutation l l' -> existsb p l = existsb p l'.
Proof.
  induction 1 as [|x l l' _ IH|x y l|l l' l'' _ IH1 _ IH2]; simpl.
  - reflexivity.
  - now rewrite IH.
  - now destruct (p x), (p y).
  - congruence.
Qed.

(** The first occurrences in the language block are fixed by which kinds
    of language are present, up to their order when both are. *)
Lemma first_language_rules_shape langs :
  first_language_rules langs =
    (if existsb is_swift langs then [modern_swift] else [])
    ++ (if existsb is_analysed langs then [code_analysis_blurred] else []) \/
  (existsb is_swift langs = true /\ existsb is_analysed langs = true /\
   first_language_rules langs = [code_analysis_blurred; modern_swift]).
Proof.
  induction langs as [|lang langs IH]; simpl; [now left|].
  destruct (is_swift lang) eqn:Hsw.
  - rewrite (is_analysed_not_swift _ Hsw). simpl. now left.
  - destruct (is_analysed lang); simpl.
    + destruct (existsb is_swift langs); [right | left]; auto.
    + exact IH.
Qed.

Lemma blur_recommend_rules self fs :
  map blur (recommend_rules self fs) =
  ranking_with (feature_dict fs) (first_language_rules (languages fs)).
Proof.
  unfold recommend_rules, ranking_with. rewrite <- rank_blur.
  unfold recommendations, rank, unique_recommendations.
  rewrite (app_assoc core_rules), !(map_app blur (core_rules ++ _)),
    (map_app blur (flat_map _ _)).
  rewrite !fold_left_app, <- run_languages_first. reflexivity.
Qed.

Lemma ranking_with_ext d d' block :
  (forall k, In k scalar_keys -> Dict.get d k = Dict.get d' k) ->
  ranking_with d block = ranking_with d' block.
Proof.
  intros Hk.
  unfold ranking_with, testing_rules, git_rules, is_true, Dict.get_default.
  rewrite (Hk "project_size"), (Hk "team_size"), (Hk "has_testing"),
    (Hk "has_git") by (simpl; tauto).
  reflexivity.
Qed.

(** With both kinds of language present, the order of their first
    occurrences does not show in the ranking: a check of the twenty-four
    combinations of size branch, team branch and toolchain flags. *)
Lemma ranking_with_swap d :
  ranking_with d [modern_swift; code_analysis_blurred] =
  ranking_with d [code_analysis_blurred; modern_swift].
Proof.
  unfold ranking_with, size_rules, team_rules, testing_rules, git_rules.
  destruct (String.eqb _ "large"); [|destruct (String.eqb _ "medium")];
    destruct (str_in _ _);
    destruct (is_true d "has_testing");
    destruct (is_true d "has_git"); reflexivity.
Qed.

(** *** The branches selected by the facts *)

Lemma last_opt_snoc {A} (l : list A) x : last_opt (l ++ [x]) = Some x.
Proof. unfold last_opt. now rewrite fold_left_app. Qed.

Lemma last_opt_in {A} (l : list A) x : last_opt l = Some x -> In x l.
Proof.
  destruct l as [|y l] using rev_ind; [discriminate|].
  rewrite last_opt_snoc. intros [= <-]. apply in_or_app. right. now left.
Qed.

Lemma last_opt_none {A} (l : list A) : last_opt l = None -> l = [].
Proof.
  destruct l as [|y l] using rev_ind; [reflexivity|].
  rewrite last_opt_snoc. discriminate.
Qed.

Lemma same_branch_spec k values :
  same_branch k values = true ->
  forall v v', In v values -> In v' values -> branch_of k v = branch_of k v'.
Proof.
  destruct values as [|v0 rest]; simpl; [contradiction|].
  intros H.
  assert (Hall : forall v, v0 = v \/ In v rest ->
                           branch_of k v = branch_of k v0).
  { intros v [<-|Hin]; [reflexivity|].
    rewrite forallb_forall in H. now apply String.eqb_eq, H. }
  intros v v' Hv Hv'. rewrite (Hall v Hv), (Hall v' Hv'). reflexivity.
Qed.

Lemma forallb_false {A} (p : A -> bool) l :
  forallb p l = false -> exists x, In x l /\ p x = false.
Proof.
  induction l as [|x l IH]; simpl; [discriminate|].
  destruct (p x) eqn:E; simpl.
  - intros H. destruct (IH H) as (y & Hy & Hp). exists y. auto.
  - intros _. exists x. auto.
Qed.

Lemma branch_consistent_spec fs :
  branch_consistent fs = true ->
  forall k v v', In k scalar_keys ->
    In v (values_of k fs) -> In v' (values_of k fs) ->
    branch_of k v = branch_of k v'.
Proof.
  unfold branch_consistent. rewrite forallb_forall.
  intros H k v v' Hk. now apply same_branch_spec, H.
Qed.

Lemma branch_inconsistent_spec fs :
  branch_consistent fs = false ->
  exists k v v', In k scalar_keys /\
    In v (values_of k fs) /\ In v' (values_of k fs) /\
    branch_of k v <> branch_of k v'.
Proof.
  unfold branch_consistent. intros H.
  destruct (forallb_false _ _ H) as (k & Hk & Hs).
  unfold same_branch in Hs.
  destruct (values_of k fs) as [|v0 rest] eqn:E; [discriminate|].
  destruct (forallb_false _ _ Hs) as (v & Hv & Hne).
  exists k, v, v0. split; [exact Hk|]. rewrite E.
  split; [now right|]. split; [now left|].
  now apply String.eqb_neq.
Qed.

(** Permuting a branch-consistent profile keeps the selected branches. *)
Lemma selected_perm fs fs' :
  Permutation fs fs' -> branch_consistent fs = true ->
  selected_branches (feature_dict fs) = selected_branches (feature_dict fs').
Proof.
  intros Hperm Hcons. unfold selected_branches.
  apply map_ext_in. intros k Hk. unfold selected.
  rewrite !feature_dict_get.
  pose proof (values_of_perm k _ _ Hperm) as Hv.
  destruct (last_opt (values_of k fs)) as [v|] eqn:E;
    destruct (last_opt (values_of k fs')) as [v'|] eqn:E'.
  - apply (branch_consistent_spec fs Hcons); [exact Hk | |].
    + now apply last_opt_in.
    + apply (Permutation_in _ (Permutation_sym Hv)). now apply last_opt_in.
  - apply last_opt_none in E'. rewrite E' in Hv.
    apply Permutation_sym, Permutation_nil in Hv. rewrite Hv in E.
    discriminate E.
  - apply last_opt_none in E. rewrite E in Hv.
    apply Permutation_nil in Hv. rewrite Hv in E'. discriminate E'.
  - reflexivity.
Qed.

(** The four blocks that read [feature_dict] depend on it only through
    the selected branches. *)
Lemma blocks_selected d d' :
  selected_branches d = selected_branches d' ->
  size_rules (Dict.get_default d "project_size" "small")
    = size_rules (Dict.get_default d' "project_size" "small") /\
  team_rules (Dict.get_default d "team_size" "solo")
    = team_rules (Dict.get_default d' "team_size" "solo") /\
  testing_rules d = testing_rules d' /\
  git_rules d = git_rules d'.
Proof.
  unfold selected_branches, selected, scalar_keys, Dict.get_default,
    testing_rules, git_rules, is_true. cbn [map].
  intros [= Hs Ht Hte Hg].
  repeat split.
  - clear Ht Hte Hg. unfold size_rules.
    destruct (Dict.get d "project_size") as [v|],
             (Dict.get d' "project_size") as [v'|];
      cbn in Hs |- *;
      repeat match goal with
             | H : context [String.eqb ?v ?s] |- _ =>
                 destruct (String.eqb v s)
             end;
      first [reflexivity | discriminate Hs].
  - clear Hs Hte Hg. unfold team_rules.
    destruct (Dict.get d "team_size") as [v|],
             (Dict.get d' "team_size") as [v'|];
      cbn in Ht |- *;
      repeat match goal with
             | H : context [String.eqb ?v ?s] |- _ =>
                 destruct (String.eqb v s)
             end;
      first [reflexivity | discriminate Ht].
  - clear Hs Ht Hg.
    destruct (Dict.get d "has_testing") as [v|],
             (Dict.get d' "has_testing") as [v'|];
      cbn in Hte |- *;
      repeat match goal with
             | H : context [String.eqb ?v ?s] |- _ =>
                 destruct (String.eqb v s)
             end;
      first [reflexivity | discriminate Hte].
  - clear Hs Ht Hte.
    destruct (Dict.get d "has_git") as [v|],
             (Dict.get d' "has_git") as [v'|];
      cbn in Hg |- *;
      repeat match goal with
             | H : context [String.eqb ?v ?s] |- _ =>
                 destruct (String.eqb v s)
             end;
      first [reflexivity | discriminate Hg].
Qed.

Lemma ranking_with_selected d d' block :
  selected_branches d = selected_branches d' ->
  ranking_with d block = ranking_with d' block.
Proof.
  intros H. destruct (blocks_selected d d' H) as (Hs & Ht & Hte & Hg).
  unfold ranking_with. now rewrite Hs, Ht, Hte, Hg.
Qed.

Lemma full_ranking_selected d d' block :
  selected_branches d = selected_branches d' ->
  full_ranking d block = full_ranking d' block.
Proof.
  intros H. destruct (blocks_selected d d' H) as (Hs & Ht & Hte & Hg).
  unfold full_ranking. now rewrite Hs, Ht, Hte, Hg.
Qed.

(** *** The language block, first occurrences *)

Lemma language_rules_cases lang :
  language_rules lang =
  if is_swift lang then [modern_swift]
  else if is_analysed lang then [code_analysis_for lang]
  else [].
Proof.
  unfold language_rules, is_analysed, is_swift.
  destruct (String.eqb lang "swift"); [reflexivity|].
  simpl negb. rewrite andb_true_l.
  now destruct (str_in lang _).
Qed.

Lemma loop_languages_cons lang langs u :
  loop_languages (lang :: langs) u =
  loop_languages langs (fold_left dedup_step (language_rules lang) u).
Proof. unfold loop_languages. simpl. now rewrite fold_left_app. Qed.

Lemma covered_code_analysis u lang :
  covered u code_analysis_blurred -> covered u (code_analysis_for lang).
Proof. exact (fun H => H). Qed.

Lemma loop_languages_covered langs u :
  covered u modern_swift -> covered u code_analysis_blurred ->
  loop_languages langs u = u.
Proof.
  intros Hs Ha. induction langs as [|lang langs IH]; [reflexivity|].
  rewrite loop_languages_cons, language_rules_cases.
  destruct (is_swift lang); [|destruct (is_analysed lang)]; simpl;
    rewrite ?step_covered
      by first [assumption | now apply covered_code_analysis];
    exact IH.
Qed.

Lemma loop_languages_swift_covered langs u :
  covered u modern_swift ->
  loop_languages langs u =
  match first_analysed langs with
  | Some l => dedup_step u (code_analysis_for l)
  | None => u
  end.
Proof.
  intros Hs. unfold first_analysed.
  induction langs as [|lang langs IH]; [reflexivity|].
  rewrite loop_languages_cons, language_rules_cases. simpl find.
  destruct (is_swift lang) eqn:Hsw.
  - rewrite (is_analysed_not_swift _ Hsw). simpl.
    now rewrite step_covered by assumption.
  - destruct (is_analysed lang); simpl; [|exact IH].
    apply loop_languages_covered;
      [now apply covered_step_mono
      | exact (covered_step_self u (code_analysis_for lang))].
Qed.

Lemma loop_languages_analysed_covered langs u :
  covered u code_analysis_blurred ->
  loop_languages langs u =
  if existsb is_swift langs then dedup_step u modern_swift else u.
Proof.
  intros Ha. induction langs as [|lang langs IH]; [reflexivity|].
  rewrite loop_languages_cons, language_rules_cases. simpl existsb.
  destruct (is_swift lang) eqn:Hsw; simpl.
  - apply loop_languages_covered;
      [apply covered_step_self | now apply covered_step_mono].
  - destruct (is_analysed lang); simpl; [|exact IH].
    now rewrite step_covered by now apply covered_code_analysis.
Qed.

Lemma loop_languages_first langs u :
  loop_languages langs u = fold_left dedup_step (first_rules langs) u.
Proof.
  induction langs as [|lang langs IH]; [reflexivity|].
  rewrite loop_languages_cons, language_rules_cases. simpl first_rules.
  destruct (is_swift lang); [|destruct (is_analysed lang)]; simpl.
  - rewrite loop_languages_swift_covered by apply covered_step_self.
    now destruct (first_analysed langs).
  - rewrite loop_languages_analysed_covered
      by exact (covered_step_self u (code_analysis_for lang)).
    now destruct (existsb is_swift langs).
  - exact IH.
Qed.

(** The output is the ranking with the first occurrences of the language
    block in the place of the block. *)
Lemma recommend_rules_first self fs :
  recommend_rules self fs =
  full_ranking (feature_dict fs) (first_rules (languages fs)).
Proof.
  unfold recommend_rules, full_ranking, recommendations, rank,
    unique_recommendations.
  rewrite !fold_left_app.
  now rewrite <- (loop_languages_first (languages fs)).
Qed.

Lemma first_analysed_none langs :
  first_analysed langs = None -> existsb is_analysed langs = false.
Proof.
  unfold first_analysed. induction langs as [|l langs IH]; simpl;
    [reflexivity|].
  destruct (is_analysed l); [discriminate | exact IH].
Qed.

(** The first occurrences in the language block are fixed by the presence
    of swift and by the first analysed language, up to their order when
    both are there. *)
Lemma first_rules_shape langs :
  first_rules langs =
    (if existsb is_swift langs then [modern_swift] else [])
    ++ match first_analysed langs with
       | Some l => [code_analysis_for l]
       | None => []
       end \/
  (existsb is_swift langs = true /\
   exists l, first_analysed langs = Some l /\
             first_rules langs = [code_analysis_for l; modern_swift]).
Proof.
  unfold first_analysed.
  induction langs as [|lang langs IH]; simpl; [now left|].
  destruct (is_swift lang) eqn:Hsw.
  - rewrite (is_analysed_not_swift _ Hsw). simpl. now left.
  - destruct (is_analysed lang); simpl.
    + destruct (existsb is_swift langs); [right | left]; eauto.
    + exact IH.
Qed.

Ltac destruct_branches d :=
  unfold full_ranking, ranking_with, size_rules, team_rules, testing_rules,
    git_rules;
  destruct (String.eqb (Dict.get_default d "project_size" "small") "large");
    [|destruct (String.eqb (Dict.get_default d "project_size" "small")
                 "medium")];
  destruct (str_in (Dict.get_default d "team_size" "solo") ["medium"; "large"]);
  destruct (is_true d "has_testing");
  destruct (is_true d "has_git").

(** With swift and an analysed language both present, the order of their
    first occurrences does not show in the ranking. *)
Lemma full_ranking_swap d l :
  full_ranking d [modern_swift; code_analysis_for l] =
  full_ranking d [code_analysis_for l; modern_swift].
Proof. destruct_branches d; reflexivity. Qed.

(** In the large and medium size branches the [code-analysis] of the
    language block never replaces the one of the size block. *)
Lemma full_ranking_heavy d block l :
  In (Dict.get_default d "project_size" "small") ["large"; "medium"] ->
  In block [ [code_analysis_for l]; [modern_swift; code_analysis_for l];
             [code_analysis_for l; modern_swift] ] ->
  full_ranking d block =
  full_ranking d (filter (fun r => negb (String.eqb (name r) "code-analysis"))
                    block).
Proof.
  intros Hsize Hblock.
  assert (Hb : String.eqb (Dict.get_default d "project_size" "small") "large"
               = true \/
               (String.eqb (Dict.get_default d "project_size" "small") "large"
                = false /\
                String.eqb (Dict.get_default d "project_size" "small") "medium"
                = true)).
  { simpl in Hsize. destruct Hsize as [<-|[<-|[]]]; [left | right]; auto. }
  unfold full_ranking, size_rules, team_rules, testing_rules, git_rules.
  simpl in Hblock.
  destruct Hb as [-> | [-> ->]];
    destruct Hblock as [<-|[<-|[<-|[]]]];
    destruct (str_in (Dict.get_default d "team_size" "solo") ["medium"; "large"]);
    destruct (is_true d "has_testing");
    destruct (is_true d "has_git"); reflexivity.
Qed.

Lemma full_ranking_heavy_first d langs :
  In (Dict.get_default d "project_size" "small") ["large"; "medium"] ->
  full_ranking d (first_rules langs) =
  full_ranking d (if existsb is_swift langs then [modern_swift] else []).
Proof.
  intros Hsize.
  destruct (first_rules_shape langs) as [E|(Es & l & Ea & E)]; rewrite E.
  - destruct (first_analysed langs) as [l|]; [|now rewrite app_nil_r].
    destruct (existsb is_swift langs); simpl app;
      rewrite (full_ranking_heavy d _ l Hsize) by in_concrete_list;
      reflexivity.
  - rewrite Es, (full_ranking_heavy d _ l Hsize) by in_concrete_list.
    reflexivity.
Qed.

Lemma first_analysed_perm langs langs' :
  Permutation langs langs' ->
  first_analysed langs = None -> first_analysed langs' = None.
Proof.
  intros Hp Hn. apply first_analysed_none in Hn.
  rewrite (existsb_perm is_analysed _ _ Hp) in Hn.
  unfold first_analysed.
  destruct (find is_analysed langs') as [l|] eqn:E; [|reflexivity].
  apply find_some in E. destruct E as [Hin Hl].
  assert (existsb is_analysed langs' = true); [|congruence].
  apply existsb_exists. now exists l.
Qed.

(** The output up to the reason text of [code-analysis]. *)
Lemma recommend_rules_blur_consistent self fs fs' :
  Permutation fs fs' -> branch_consistent fs = true ->
  map blur (recommend_rules self fs) = map blur (recommend_rules self fs').
Proof.
  intros Hperm Hcons.
  rewrite !blur_recommend_rules.
  rewrite (ranking_with_selected (feature_dict fs) (feature_dict fs'))
    by now apply selected_perm.
  assert (Hl : Permutation (languages fs) (languages fs'))
    by now apply (values_of_perm "languages").
  pose proof (existsb_perm is_swift _ _ Hl) as Hs.
  pose proof (existsb_perm is_analysed _ _ Hl) as Ha.
  destruct (first_language_rules_shape (languages fs)) as [E|(Es & Ea & E)];
    destruct (first_language_rules_shape (languages fs')) as [E'|(Es' & Ea' & E')];
    rewrite E, E'.
  - now rewrite Hs, Ha.
  - rewrite Hs, Ha, Es', Ea'. apply ranking_with_swap.
  - rewrite <- Hs, <- Ha, Es, Ea. symmetry. apply ranking_with_swap.
  - reflexivity.
Qed.

(** The output, reason texts included. *)
Lemma recommend_rules_full_consistent self fs fs' :
  Permutation fs fs' -> branch_consistent fs = true ->
  In (project_size_of fs) ["large"; "medium"] \/
  first_analysed (languages fs) = first_analysed (languages fs') ->
  recommend_rules self fs = recommend_rules self fs'.
Proof.
  intros Hperm Hcons Hcase.
  rewrite !recommend_rules_first.
  rewrite <- (full_ranking_selected (feature_dict fs) (feature_dict fs'))
    by now apply selected_perm.
  assert (Hl : Permutation (languages fs) (languages fs'))
    by now apply (values_of_perm "languages").
  pose proof (existsb_perm is_swift _ _ Hl) as Hs.
  destruct Hcase as [Hsize|Hfirst].
  - rewrite !full_ranking_heavy_first by exact Hsize. now rewrite Hs.
  - destruct (first_rules_shape (languages fs)) as [E|(Es & l & Ea & E)];
      destruct (first_rules_shape (languages fs'))
        as [E'|(Es' & l' & Ea' & E')];
      rewrite E, E'.
    + now rewrite Hs, Hfirst.
    + rewrite Hs, Es', Hfirst, Ea'. apply full_ranking_swap.
    + rewrite <- Hs, Es, <- Hfirst, Ea. symmetry. apply full_ranking_swap.
    + rewrite Hfirst, Ea' in Ea. now inversion Ea.
Qed.

(** *** Reading the branches back *)

Lemma first_language_rules_in langs :
  In (first_language_rules langs)
    [ []; [modern_swift]; [code_analysis_blurred];
      [modern_swift; code_analysis_blurred];
      [code_analysis_blurred; modern_swift] ].
Proof.
  destruct (first_language_rules_shape langs) as [E|(_ & _ & E)]; rewrite E.
  - destruct (existsb is_swift langs), (existsb is_analysed langs);
      in_concrete_list.
  - in_concrete_list.
Qed.

Lemma selected_size d :
  selected d "project_size" =
  if String.eqb (Dict.get_default d "project_size" "small") "large"
  then "large"
  else if String.eqb (Dict.get_default d "project_size" "small") "medium"
       then "medium" else "small".
Proof.
  unfold selected, Dict.get_default.
  now destruct (Dict.get d "project_size").
Qed.

Lemma selected_team d :
  selected d "team_size" =
  if str_in (Dict.get_default d "team_size" "solo") ["medium"; "large"]
  then "team" else "solo".
Proof.
  unfold selected, Dict.get_default.
  now destruct (Dict.get d "team_size").
Qed.

Lemma selected_flag d k :
  In k ["has_testing"; "has_git"] ->
  selected d k = if is_true d k then "true" else "false".
Proof.
  unfold selected, is_true.
  intros [<-|[<-|[]]]; now destruct (Dict.get d _).
Qed.

(** The branch selected under each of the four keys shows in the
    output. *)
Lemma observed_ranking d block :
  In block
    [ []; [modern_swift]; [code_analysis_blurred];
      [modern_swift; code_analysis_blurred];
      [code_analysis_blurred; modern_swift] ] ->
  observed_branches (ranking_with d block) = selected_branches d.
Proof.
  intros Hblock.
  unfold selected_branches, scalar_keys. cbn [map].
  rewrite selected_size, selected_team, !selected_flag by in_concrete_list.
  simpl in Hblock.
  destruct Hblock as [<-|[<-|[<-|[<-|[<-|[]]]]]];
    destruct_branches d; reflexivity.
Qed.

Lemma observed_recommend_rules self fs :
  observed_branches (map blur (recommend_rules self fs))
  = selected_branches (feature_dict fs).
Proof.
  rewrite blur_recommend_rules.
  apply observed_ranking, first_language_rules_in.
Qed.

(** Any fact can be moved to the end of the profile, where it decides the
    lookup of its key. *)
Lemma fact_moved_last f fs :
  In f fs ->
  exists fs', Permutation fs fs' /\
              Dict.get (feature_dict fs') (key f) = Some (value f).
Proof.
  intros Hin. destruct (in_split _ _ Hin) as (l1 & l2 & ->).
  exists ((l1 ++ l2) ++ [f]). split.
  - transitivity (f :: l1 ++ l2).
    + symmetry. apply Permutation_middle.
    + apply Permutation_cons_append.
  - rewrite feature_dict_get, values_of_app.
    unfold values_of at 2. simpl. rewrite String.eqb_refl. simpl.
    apply last_opt_snoc.
Qed.

Lemma value_fact k v fs :
  In v (values_of k fs) -> exists f, In f fs /\ key f = k /\ value f = v.
Proof.
  unfold values_of. rewrite in_map_iff.
  intros (f & Hv & Hin). apply filter_In in Hin. destruct Hin as [Hin Hk].
  exists f. split; [exact Hin|]. split; [now apply String.eqb_eq | exact Hv].
Qed.

Lemma selected_differ d d' k :
  In k scalar_keys -> selected d k <> selected d' k ->
  selected_branches d <> selected_branches d'.
Proof.
  intros Hk Hne Heq. apply Hne. unfold selected_branches in Heq.
  rewrite map_ext_in_iff in Heq. now apply Heq.
Qed.

(** When two facts of one key select different branches, some
    reordering of the profile changes the output. *)
Lemma recommend_rules_inconsistent self fs :
  branch_consistent fs = false ->
  exists fs', Permutation fs fs' /\
    map blur (recommend_rules self fs) <> map blur (recommend_rules self fs').
Proof.
  intros Hcons.
  destruct (branch_inconsistent_spec fs Hcons)
    as (k & v & v' & Hk & Hv & Hv' & Hne).
  destruct (value_fact _ _ _ Hv) as (f & Hf & Hkf & Hvf).
  destruct (value_fact _ _ _ Hv') as (g & Hg & Hkg & Hvg).
  destruct (fact_moved_last f fs Hf) as (fs1 & Hp1 & Hd1).
  destruct (fact_moved_last g fs Hg) as (fs2 & Hp2 & Hd2).
  rewrite Hkf, Hvf in Hd1. rewrite Hkg, Hvg in Hd2.
  assert (Hsel : selected_branches (feature_dict fs1)
                 <> selected_branches (feature_dict fs2)).
  { apply (selected_differ _ _ k Hk). unfold selected.
    now rewrite Hd1, Hd2. }
  destruct (list_eq_dec string_dec
              (selected_branches (feature_dict fs))
              (selected_branches (feature_dict fs1))) as [Heq|Hdiff].
  - exists fs2. split; [exact Hp2|]. intros H.
    apply (f_equal observed_branches) in H.
    rewrite !observed_recommend_rules in H. congruence.
  - exists fs1. split; [exact Hp1|]. intros H.
    apply (f_equal observed_branches) in H.
    rewrite !observed_recommend_rules in H. congruence.
Qed.

(** *** The reason text of [code-analysis] *)

Lemma append_length s t :
  String.length (s ++ t) = (String.length s + String.length t)%nat.
Proof. induction s as [|c s IH]; simpl; [reflexivity | now rewrite IH]. Qed.

Lemma append_cancel_r s s' t : (s ++ t = s' ++ t)%string -> s = s'.
Proof.
  revert s'. induction s as [|c s IH]; intros [|c' s'] H.
  - reflexivity.
  - apply (f_equal String.length) in H. simpl in H.
    rewrite append_length in H. lia.
  - apply (f_equal String.length) in H. simpl in H.
    rewrite append_length in H. lia.
  - simpl in H. injection H as -> H. f_equal. now apply IH.
Qed.

Lemma code_analysis_for_inj l l' :
  reason (code_analysis_for l) = reason (code_analysis_for l') -> l = l'.
Proof. apply append_cancel_r. Qed.

(** Outside the large and medium size branches the [code-analysis] of
    the output is the first one of the language block. *)
Lemma code_analysis_reason_light d block l :
  ~ In (Dict.get_default d "project_size" "small") ["large"; "medium"] ->
  In block [ [code_analysis_for l]; [modern_swift; code_analysis_for l];
             [code_analysis_for l; modern_swift] ] ->
  code_analysis_reason (full_ranking d block)
  = Some (reason (code_analysis_for l)).
Proof.
  intros Hsize Hblock.
  assert (Hl : String.eqb (Dict.get_default d "project_size" "small") "large"
               = false).
  { apply String.eqb_neq. intros E. apply Hsize. rewrite E. now left. }
  assert (Hm : String.eqb (Dict.get_default d "project_size" "small") "medium"
               = false).
  { apply String.eqb_neq. intros E. apply Hsize. rewrite E. right. now left. }
  unfold full_ranking, size_rules, team_rules, testing_rules, git_rules.
  rewrite Hl, Hm. simpl in Hblock.
  destruct Hblock as [<-|[<-|[<-|[]]]];
    destruct (str_in (Dict.get_default d "team_size" "solo") ["medium"; "large"]);
    destruct (is_true d "has_testing");
    destruct (is_true d "has_git"); reflexivity.
Qed.

Lemma first_rules_analysed langs l :
  first_analysed langs = Some l ->
  In (first_rules langs)
    [ [code_analysis_for l]; [modern_swift; code_analysis_for l];
      [code_analysis_for l; modern_swift] ].
Proof.
  intros Hl.
  destruct (first_rules_shape langs) as [E|(_ & l' & Ea & E)]; rewrite E.
  - rewrite Hl. destruct (existsb is_swift langs); in_concrete_list.
  - rewrite Hl in Ea. injection Ea as <-. in_concrete_list.
Qed.

Lemma branch_consistent_perm fs fs' :
  Permutation fs fs' -> branch_consistent fs = true ->
  branch_consistent fs' = true.
Proof.
  unfold branch_consistent. rewrite !forallb_forall.
  intros Hperm Hcons k Hk. specialize (Hcons k Hk).
  pose proof (Permutation_sym (values_of_perm k _ _ Hperm)) as Hp.
  unfold same_branch at 1.
  destruct (values_of k fs') as [|v0 rest] eqn:E; [reflexivity|].
  apply forallb_forall. intros v Hv. apply String.eqb_eq.
  apply (same_branch_spec k _ Hcons); apply (Permutation_in _ Hp);
    [now right | now left].
Qed.

Lemma size_selected_perm fs fs' :
  Permutation fs fs' -> branch_consistent fs = true ->
  In (project_size_of fs) ["large"; "medium"] ->
  In (project_size_of fs') ["large"; "medium"].
Proof.
  intros Hperm Hcons Hsize.
  pose proof (selected_perm fs fs' Hperm Hcons) as Hsel.
  unfold selected_branches, scalar_keys in Hsel. cbn [map] in Hsel.
  injection Hsel as Hsel _ _ _. rewrite !selected_size in Hsel.
  unfold project_size_of in *.
  set (x := Dict.get_default (feature_dict fs) "project_size" "small") in *.
  set (y := Dict.get_default (feature_dict fs') "project_size" "small") in *.
  destruct (String.eqb_spec y "large") as [Ey|Ny]; [left; now symmetry|].
  destruct (String.eqb_spec y "medium") as [Ey|Ny'];
    [right; left; now symmetry|].
  exfalso.
  destruct Hsize as [E|[E|[]]]; rewrite <- E in Hsel; simpl in Hsel;
    discriminate Hsel.
Qed.

(** The output changes when the first analysed language does, outside
    the large and medium size branches. *)
Lemma recommend_rules_first_analysed self fs fs' :
  Permutation fs fs' -> branch_consistent fs = true ->
  recommend_rules self fs = recommend_rules self fs' ->
  In (project_size_of fs) ["large"; "medium"] \/
  first_analysed (languages fs) = first_analysed (languages fs').
Proof.
  intros Hperm Hcons Heq.
  destruct (in_dec string_dec (project_size_of fs) ["large"; "medium"])
    as [Hsize|Hsize]; [now left | right].
  assert (Hsize' : ~ In (project_size_of fs') ["large"; "medium"]).
  { intros H. apply Hsize.
    apply (size_selected_perm fs' fs); [now symmetry | | exact H].
    now apply (branch_consistent_perm fs fs'). }
  assert (Hl : Permutation (languages fs) (languages fs'))
    by now apply (values_of_perm "languages").
  apply (f_equal code_analysis_reason) in Heq.
  rewrite !recommend_rules_first in Heq.
  destruct (first_analysed (languages fs)) as [l|] eqn:E;
    destruct (first_analysed (languages fs')) as [l'|] eqn:E'.
  - rewrite (code_analysis_reason_light _ _ l Hsize
               (first_rules_analysed _ _ E)) in Heq.
    rewrite (code_analysis_reason_light _ _ l' Hsize'
               (first_rules_analysed _ _ E')) in Heq.
    injection Heq as Heq. f_equal. now apply code_analysis_for_inj.
  - rewrite (first_analysed_perm _ _ (Permutation_sym Hl) E') in E.
    discriminate E.
  - rewrite (first_analysed_perm _ _ Hl E) in E'. discriminate E'.
  - reflexivity.
Qed.

Lemma branch_consistent_equal_values fs :
  (forall k v v', In k scalar_keys ->
     In v (values_of k fs) -> In v' (values_of k fs) -> v = v') ->
  branch_consistent fs = true.
Proof.
  intros H. unfold branch_consistent. apply forallb_forall. intros k Hk.
  unfold same_branch.
  destruct (values_of k fs) as [|v0 rest] eqn:E; [reflexivity|].
  apply forallb_forall. intros v Hv. apply String.eqb_eq. f_equal.
  apply (H k); [exact Hk | |]; rewrite E; [now right | now left].
Qed.

Lemma branch_consistent_unique_keys fs :
  (forall k, In k scalar_keys -> (count_key k fs <= 1)%nat) ->
  branch_consistent fs = true.
Proof.
  intros H. apply branch_consistent_equal_values.
  intros k v v' Hk Hv Hv'. specialize (H k Hk).
  rewrite <- values_of_length in H.
  destruct (values_of k fs) as [|v0 [|v1 rest]]; simpl in *;
    [contradiction | | lia].
  destruct Hv as [<-|[]], Hv' as [<-|[]]. reflexivity.
Qed.

(** C8 (as amended).  Call a profile branch-consistent when, for each of
    the keys [project_size], [team_size], [has_testing] and [has_git], the
    facts stored under the key all select the same branch of the engine;
    this is so when each of these keys occurs at most once, and when the
    facts stored under each of them carry the same value.  For a
    branch-consistent profile and any permutation of its facts, several
    [languages] facts included: the output is unchanged in its ids,
    weights, categories, order and reason texts, except possibly for the
    reason text of [code-analysis]; and it is unchanged altogether exactly
    when the size looked up is [large] or [medium], or the first analysed
    language (javascript, typescript, python, java, csharp) among the
    [languages] facts, if there is one, is the same before and after.  For
    a profile that is not branch-consistent some permutation of the facts
    changes the output, also apart from that reason text. *)
Theorem recommend_rules_permutation_branches :
  forall (self : RuleEngine) (features : list ProjectFeature),
    ((forall k, In k scalar_keys -> (count_key k features <= 1)%nat) ->
     branch_consistent features = true) /\
    ((forall k v v', In k scalar_keys ->
        In v (values_of k features) -> In v' (values_of k features) ->
        v = v') ->
     branch_consistent features = true) /\
    (branch_consistent features = true ->
     forall features' : list ProjectFeature,
       Permutation features features' ->
       map blur (recommend_rules self features)
         = map blur (recommend_rules self features') /\
       (recommend_rules self features = recommend_rules self features' <->
        In (project_size_of features) ["large"; "medium"] \/
        first_analysed (languages features)
          = first_analysed (languages features'))) /\
    (branch_consistent features = false ->
     exists features' : list ProjectFeature,
       Permutation features features' /\
       map blur (recommend_rules self features)
         <> map blur (recommend_rules self features')).
Proof.
  intros self fs.
  split; [apply branch_consistent_unique_keys|].
  split; [apply branch_consistent_equal_values|].
  split.
  - intros Hcons fs' Hperm. split; [|split].
    + now apply recommend_rules_blur_consistent.
    + now apply recommend_rules_first_analysed.
    + now apply recommend_rules_full_consistent.
  - apply recommend_rules_inconsistent.
Qed.

(** C8, the claim as stated, fails in two ways.  Swapping the two
    [project_size] facts [large] and [small] of a profile changes the ids
    and weights of the output.  Swapping the two [languages] facts [python]
    and [java] of a profile changes the output. *)
Lemma recommend_rules_depends_on_fact_order :
  (Permutation profile_size_large_small profile_size_small_large /\
   map id_weight (recommend_rules default_engine profile_size_large_small)
     <> map id_weight (recommend_rules default_engine profile_size_small_large)) /\
  (Permutation profile_python_java profile_java_python /\
   recommend_rules default_engine profile_python_java
     <> recommend_rules default_engine profile_java_python).
Proof.
  split; (split; [apply perm_swap|]); intros H; vm_compute in H; discriminate H.
Qed.

(** ** Instances on the sample inputs *)

Lemma rank_unique_max_sorted_stable_witness :
  let r := new_RuleRecommendation "lint" "third" 9 "style" in
  In r (rank sample_candidates) /\
  (In r sample_candidates /\
   forall c, In c sample_candidates -> name c = name r -> weight c <= weight r).
Proof.
  intros r. split; [in_concrete_list|].
  apply (proj1 (proj2 (proj2 (rank_unique_max_sorted_stable sample_candidates)))).
  in_concrete_list.
Defined.

Lemma recommend_rules_scenario_witness :
  Permutation (rev (scenario_profile "" "" "" "" ""))
    (scenario_profile "" "" "" "" "") /\
  map id_weight
    (recommend_rules default_engine (rev (scenario_profile "" "" "" "" "")))
  = [ ("implement-task", 10); ("bug-fix", 10); ("code-analysis", 9);
      ("quick-wins", 8); ("pr-review", 8); ("five", 8); ("commit", 8);
      ("continuous-improvement", 7); ("add-to-changelog", 6);
      ("rule-effectiveness-tracker", 5) ].
Proof.
  assert (H : Permutation (rev (scenario_profile "" "" "" "" ""))
                (scenario_profile "" "" "" "" ""))
    by apply Permutation_sym, Permutation_rev.
  split; [exact H|].
  rewrite (proj1 (recommend_rules_scenario default_engine "" "" "" "" "" _ H)).
  reflexivity.
Defined.

Lemma dedup_replaces_only_if_strictly_heavier_witness :
  Dict.get sample_store (name sample_later) = Some sample_stored /\
  Dict.get (dedup_step sample_store sample_later) (name sample_later)
    = Some sample_stored /\
  rank [sample_stored; sample_later] = [sample_stored].
Proof.
  split; [reflexivity|]. split.
  - exact (proj1 (proj1 dedup_replaces_only_if_strictly_heavier
                    sample_store sample_later sample_stored eq_refl)).
  - exact (proj1 (proj2 dedup_replaces_only_if_strictly_heavier)
             sample_stored sample_later eq_refl).
Defined.

Lemma candidates_independent_of_config_witness :
  let c := new_RuleRecommendation "quick-wins" "快速胜利策略" 8 "productivity" in
  In c (recommendations []) /\
  rule_table_entry _get_default_config (name c) = Some (8, "productivity") /\
  (weight c = 8 /\ category c = "productivity") /\
  recommend_rules custom_engine [] = recommend_rules default_engine [].
Proof.
  intros c. split; [in_concrete_list|]. split; [reflexivity|]. split.
  - apply (proj1 (proj2 candidates_independent_of_config) [] c);
      [in_concrete_list | reflexivity].
  - apply (proj1 candidates_independent_of_config).
Defined.

Lemma engine_construction_raises_on_unreachable_config_witness :
  sample_unstatable_files (resolved_config_path "/home/user" None)
    = Unstatable (Exception "PermissionError"
                    "/home/user/.agent-rules/rule-config.json") /\
  new_RuleEngine sample_unstatable_files sample_json_load "/home/user" None
    sample_state
  = (sample_state,
     Raise (Exception "PermissionError"
              "/home/user/.agent-rules/rule-config.json")).
Proof.
  split; [reflexivity|].
  exact (proj2 (proj2 (engine_construction_raises_on_unreachable_config
                         sample_unstatable_files sample_json_load
                         "/home/user" None sample_state)
                  _ eq_refl)).
Defined.

Lemma recommend_rules_permutation_branches_witness :
  (branch_consistent sample_repeated_profile = true /\
   Permutation sample_repeated_profile (rev sample_repeated_profile) /\
   map blur (recommend_rules default_engine sample_repeated_profile)
     = map blur (recommend_rules default_engine
                   (rev sample_repeated_profile))) /\
  (branch_consistent profile_size_large_small = false /\
   exists features' : list ProjectFeature,
     Permutation profile_size_large_small features' /\
     map blur (recommend_rules default_engine profile_size_large_small)
       <> map blur (recommend_rules default_engine features')).
Proof.
  split.
  - split; [reflexivity|]. split; [apply Permutation_rev|].
    exact (proj1 (proj1 (proj2 (proj2
             (recommend_rules_permutation_branches default_engine
                sample_repeated_profile)))
             eq_refl (rev sample_repeated_profile)
             (Permutation_rev sample_repeated_profile))).
  - split; [reflexivity|].
    exact (proj2 (proj2 (proj2
             (recommend_rules_permutation_branches default_engine
                profile_size_large_small)))
             eq_refl).
Defined.

Lemma analyze_restores_working_directory_witness :
  is_absolute (cwd sample_state) = true /\
  sample_is_dir (cwd sample_state) = true /\
  cwd (fst (analyze sample_is_dir sample_failing_probe sample_quiet_probe
              sample_quiet_probe sample_quiet_probe sample_quiet_probe
              "/project" sample_state)) = "/work" /\
  snd (analyze sample_is_dir sample_failing_probe sample_quiet_probe
         sample_quiet_probe sample_quiet_probe sample_quiet_probe
         "/project" sample_state)
    = Raise (Exception "PermissionError" "/project").
Proof.
  split; [reflexivity|]. split; [reflexivity|]. split; [|reflexivity].
  exact (proj1 (analyze_restores_working_directory sample_is_dir
                  sample_failing_probe sample_quiet_probe sample_quiet_probe
                  sample_quiet_probe sample_quiet_probe "/project"
                  sample_state eq_refl eq_refl)).
Defined.

(** ** Further properties of the engine *)

Lemma rank_nodup_names recs : NoDup (map name (rank recs)).
Proof.
  pose proof (store_inv_unique recs) as Hinv.
  apply (Permutation_NoDup (l := Dict.keys (unique_recommendations recs))).
  - rewrite <- (names_of_values _ _ Hinv).
    symmetry. apply Permutation_map, rank_perm.
  - apply Hinv.
Qed.

Lemma rank_sorted recs :
  StronglySorted (fun a b => weight b <= weight a) (rank recs).
Proof. apply sorted_reverse_sorted. Qed.

Lemma recommendations_in fs c :
  In c (recommendations fs) <->
  In c (size_rules (project_size_of fs)) \/ In c (other_rules fs).
Proof.
  unfold recommendations, other_rules, project_size_of.
  rewrite !in_app_iff. tauto.
Qed.

Lemma language_rules_ids lang :
  Forall (fun c => In (name c) other_block_ids) (language_rules lang).
Proof.
  unfold language_rules.
  destruct (String.eqb lang "swift"); [|destruct (str_in lang _)];
    forall_concrete in_concrete_list.
Qed.

Lemma other_rules_ids fs :
  Forall (fun c => In (name c) other_block_ids) (other_rules fs).
Proof.
  unfold other_rules.
  repeat (apply Forall_app; split).
  - forall_concrete in_concrete_list.
  - apply Forall_flat_map. rewrite Forall_forall. intros lang _.
    apply language_rules_ids.
  - unfold team_rules. destruct (str_in _ _); forall_concrete in_concrete_list.
  - unfold testing_rules. destruct (is_true _ _); forall_concrete in_concrete_list.
  - unfold git_rules. destruct (is_true _ _); forall_concrete in_concrete_list.
  - forall_concrete in_concrete_list.
Qed.

Lemma recommend_rules_names self fs n :
  In n (map name (recommend_rules self fs)) <->
  In n (map name (size_rules (project_size_of fs))) \/
  In n (map name (other_rules fs)).
Proof.
  unfold recommend_rules. rewrite rank_names, !in_map_iff.
  split.
  - intros (c & Hc & Hin). apply recommendations_in in Hin.
    destruct Hin; [left | right]; now exists c.
  - intros [(c & Hc & Hin)|(c & Hc & Hin)]; exists c; (split; [exact Hc|]);
      apply recommendations_in; tauto.
Qed.

Lemma other_rules_names fs n :
  In n (map name (other_rules fs)) -> In n other_block_ids.
Proof.
  rewrite in_map_iff. intros (c & <- & Hin).
  pose proof (other_rules_ids fs) as H. rewrite Forall_forall in H. auto.
Qed.

(** X1.  Exactly one size branch shows in the output, the one selected by
    the [project_size] lookup: [continuous-improvement] is recommended
    exactly for [large], [check] exactly for [medium], and [clean] exactly
    for every other value (an absent fact included). *)
Theorem exactly_one_size_branch :
  forall (self : RuleEngine) (features : list ProjectFeature),
    let names := map name (recommend_rules self features) in
    let size := project_size_of features in
    (In "continuous-improvement" names <-> size = "large") /\
    (In "check" names <-> size = "medium") /\
    (In "clean" names <-> size <> "large" /\ size <> "medium").
Proof.
  intros self fs names size. subst names.
  assert (Hother : forall n, In n ["continuous-improvement"; "check"; "clean"] ->
                             ~ In n (map name (other_rules fs))).
  { intros n Hn Hin. apply other_rules_names in Hin. simpl in Hn, Hin.
    destruct Hn as [<-|[<-|[<-|[]]]];
      repeat (destruct Hin as [Hin|Hin]; [discriminate Hin|]); exact Hin. }
  assert (Hsize : forall n, In n ["continuous-improvement"; "check"; "clean"] ->
            (In n (map name (recommend_rules self fs)) <->
             In n (map name (size_rules size)))).
  { intros n Hn. rewrite recommend_rules_names. fold size.
    specialize (Hother n Hn). tauto. }
  rewrite !Hsize by in_concrete_list.
  unfold size_rules.
  destruct (String.eqb_spec size "large") as [El|El];
    [|destruct (String.eqb_spec size "medium") as [Em|Em]];
    simpl; repeat split; intros; subst;
    try congruence; try tauto;
    repeat match goal with
           | H : _ \/ _ |- _ => destruct H
           | H : _ /\ _ |- _ => destruct H
           end;
    try discriminate; try contradiction; try congruence.
Qed.

Lemma size_rules_cases size :
  size_rules size = size_rules "large" \/
  size_rules size = size_rules "medium" \/
  size_rules size = size_rules "small".
Proof.
  unfold size_rules.
  destruct (String.eqb size "large"); [now left|].
  destruct (String.eqb size "medium"); [now right; left | now right; right].
Qed.

(** X2.  The number of recommendations is bounded whatever the size of
    the profile: at least 6 and at most 11 rules are returned. *)
Theorem recommend_rules_length_bounds :
  forall (self : RuleEngine) (features : list ProjectFeature),
    (6 <= List.length (recommend_rules self features) <= 11)%nat.
Proof.
  intros self fs.
  pose proof (rank_nodup_names (recommendations fs)) as Hnd.
  fold (recommend_rules self fs) in Hnd.
  rewrite <- (length_map name).
  set (size := project_size_of fs).
  assert (Hup : incl (map name (recommend_rules self fs)) (branch_universe size)).
  { intros n Hn. apply recommend_rules_names in Hn. fold size in Hn.
    unfold branch_universe. apply nodup_In, in_or_app.
    destruct Hn as [Hn|Hn]; [now left | right].
    now apply other_rules_names in Hn. }
  assert (Hlow : incl (branch_required size) (map name (recommend_rules self fs))).
  { intros n Hn. unfold branch_required in Hn.
    apply nodup_In, in_app_or in Hn.
    apply recommend_rules_names. fold size.
    destruct Hn as [Hn|Hn]; [now left | right].
    unfold other_rules. rewrite !map_app.
    simpl in Hn. destruct Hn as [<-|[<-|[<-|[<-|[]]]]].
    - apply in_or_app. left. in_concrete_list.
    - apply in_or_app. left. in_concrete_list.
    - apply in_or_app. left. in_concrete_list.
    - do 5 (apply in_or_app; right). in_concrete_list. }
  apply (NoDup_incl_length Hnd) in Hup.
  apply (NoDup_incl_length (NoDup_nodup string_dec _)) in Hlow.
  remember (List.length (map name (recommend_rules self fs))) as len eqn:Hlen.
  clear Hlen Hnd.
  unfold branch_universe, branch_required in *.
  destruct (size_rules_cases size) as [E|[E|E]]; rewrite E in *;
    vm_compute in Hup, Hlow; lia.
Qed.

Lemma values_of_other k f fs :
  key f <> k -> values_of k (f :: fs) = values_of k fs.
Proof.
  intros Hne. unfold values_of. simpl.
  destruct (String.eqb_spec (key f) k); [contradiction | reflexivity].
Qed.

(** X3.  Facts the engine does not look at change nothing: a fact whose
    key is none of [project_size], [team_size], [has_testing], [has_git]
    and which is not a [languages] fact of a language the engine knows
    (so every [frameworks], [has_cicd], [has_docker], [has_documentation]
    and [project_maturity] fact, and a [languages] fact such as rust or go)
    can be added to or removed from a profile, at any position, without
    changing the output. *)
Theorem ignored_facts_do_not_matter :
  forall (self : RuleEngine) (fs1 fs2 : list ProjectFeature)
         (f : ProjectFeature),
    ignored_fact f ->
    recommend_rules self (fs1 ++ f :: fs2) = recommend_rules self (fs1 ++ fs2).
Proof.
  intros self fs1 fs2 f [Hkey Hlang].
  unfold recommend_rules. f_equal.
  assert (Hlook : forall k, In k scalar_keys ->
            Dict.get (feature_dict (fs1 ++ f :: fs2)) k
            = Dict.get (feature_dict (fs1 ++ fs2)) k).
  { intros k Hk. rewrite !feature_dict_get, !values_of_app.
    rewrite values_of_other; [reflexivity|]. congruence. }
  assert (Hflat : flat_map language_rules (languages (fs1 ++ f :: fs2))
                  = flat_map language_rules (languages (fs1 ++ fs2))).
  { change languages with (values_of "languages").
    rewrite !values_of_app, !flat_map_app. f_equal.
    destruct (String.eqb_spec (key f) "languages") as [E|E].
    - unfold values_of. simpl. rewrite E. simpl. now rewrite (Hlang E).
    - now rewrite values_of_other. }
  unfold recommendations, testing_rules, git_rules, is_true, Dict.get_default.
  rewrite Hflat.
  rewrite (Hlook "project_size"), (Hlook "team_size"), (Hlook "has_testing"),
    (Hlook "has_git") by (simpl; tauto).
  reflexivity.
Qed.

Lemma ignored_facts_do_not_matter_witness :
  ignored_fact sample_ignored_fact /\
  recommend_rules default_engine
    (firstn 2 sample_profile ++ sample_ignored_fact :: skipn 2 sample_profile)
  = recommend_rules default_engine sample_profile.
Proof.
  assert (H : ignored_fact sample_ignored_fact).
  { split.
    - simpl. intros [H|[H|[H|[H|[]]]]]; discriminate H.
    - intros H. discriminate H. }
  split; [exact H|].
  exact (ignored_facts_do_not_matter default_engine
           (firstn 2 sample_profile) (skipn 2 sample_profile)
           sample_ignored_fact H).
Defined.

Lemma set_new_snoc {V} (u : Dict.t V) k v :
  Dict.get u k = None -> Dict.set u k v = u ++ [(k, v)].
Proof.
  induction u as [|[k' v'] u IH]; simpl; [reflexivity|].
  destruct (String.eqb k' k); [discriminate|].
  intros H. now rewrite IH.
Qed.

Lemma unique_recommendations_nodup l :
  NoDup (map name l) ->
  unique_recommendations l = map (fun r => (name r, r)) l.
Proof.
  induction l as [|r l IH] using rev_ind; [reflexivity|].
  rewrite map_app. simpl. intros Hnd.
  pose proof (NoDup_app_remove_r _ _ Hnd) as Hl.
  rewrite unique_recommendations_snoc, (IH Hl), map_app. simpl.
  unfold dedup_step.
  assert (Hnew : Dict.get (map (fun r0 => (name r0, r0)) l) (name r) = None).
  { apply DictFacts.get_none. unfold Dict.keys. rewrite map_map. simpl.
    intros Hin.
    apply NoDup_remove_2 in Hnd. rewrite app_nil_r in Hnd. contradiction. }
  rewrite Hnew. now apply set_new_snoc.
Qed.

Lemma sorted_reverse_fixed {A} (sort_key : A -> Z) l :
  StronglySorted (fun a b => sort_key b <= sort_key a) l ->
  sorted_reverse sort_key l = l.
Proof.
  induction 1 as [|x l Hl IH Hx]; simpl; [reflexivity|].
  rewrite IH. destruct l as [|y l]; [reflexivity|]. simpl.
  inversion Hx; subst.
  destruct (Z.ltb_spec (sort_key x) (sort_key y)); [lia | reflexivity].
Qed.

(** X4.  Ranking is idempotent: ranking an already ranked list returns
    it unchanged, so the output of [recommend_rules] is a fixed point of
    the deduplicate-and-sort step. *)
Theorem rank_idempotent :
  forall recs : list RuleRecommendation, rank (rank recs) = rank recs.
Proof.
  intros recs.
  pose proof (rank_nodup_names recs) as Hnd.
  pose proof (rank_sorted recs) as Hs.
  unfold rank at 1.
  rewrite (unique_recommendations_nodup _ Hnd).
  unfold Dict.values. rewrite map_map. simpl. rewrite map_id.
  now apply sorted_reverse_fixed.
Qed.

(** ** Installing the recommended rules *)

Lemma fromkeys_keys_fresh l (d : Dict.t unit) :
  NoDup (Dict.keys d ++ l) ->
  Dict.keys (fold_left (fun d k => Dict.set d k tt) l d) = Dict.keys d ++ l.
Proof.
  revert d. induction l as [|k l IH]; intros d Hnd; simpl.
  - now rewrite app_nil_r.
  - assert (Hk : Dict.mem d k = false).
    { destruct (Dict.mem d k) eqn:E; [|reflexivity].
      apply DictFacts.mem_in in E. apply NoDup_remove_2 in Hnd.
      exfalso. apply Hnd. apply in_or_app. now left. }
    rewrite IH; rewrite DictFacts.keys_set, Hk, <- app_assoc; [reflexivity|].
    exact Hnd.
Qed.

Lemma fromkeys_keys_inv l (d : Dict.t unit) :
  NoDup (Dict.keys d) ->
  NoDup (Dict.keys (fold_left (fun d k => Dict.set d k tt) l d)) /\
  forall k, In k (Dict.keys (fold_left (fun d k => Dict.set d k tt) l d))
            <-> In k (Dict.keys d) \/ In k l.
Proof.
  revert d. induction l as [|x l IH]; intros d Hnd; simpl.
  - split; [exact Hnd | intros; tauto].
  - assert (Hnd' : NoDup (Dict.keys (Dict.set d x tt))).
    { rewrite DictFacts.keys_set. destruct (Dict.mem d x) eqn:E; [exact Hnd|].
      apply NoDup_app; [exact Hnd | repeat constructor; tauto |].
      intros a Ha [<-|[]]. apply DictFacts.mem_in in Ha. congruence. }
    destruct (IH _ Hnd') as [H1 H2]. split; [exact H1|].
    intros k. rewrite H2, DictFacts.keys_set.
    destruct (Dict.mem d x) eqn:E.
    + apply DictFacts.mem_in in E. split; [tauto|].
      intros [H|[<-|H]]; tauto.
    + rewrite in_app_iff. simpl. tauto.
Qed.

(** X5.  [list(dict.fromkeys(...))] in [install_rules] returns each name
    once and loses none.  On the output of the engine it removes nothing:
    the names handed to the CLAUDE.md installer are always the three
    foundational names followed by the recommended names in ranked
    order. *)
Theorem unique_rule_names_of_recommendations :
  (forall recommendations : list RuleRecommendation,
     NoDup (unique_rule_names recommendations) /\
     forall n, In n (unique_rule_names recommendations) <->
               In n foundational_rule_names \/
               In n (map name recommendations)) /\
  (forall (self : RuleEngine) (features : list ProjectFeature),
     unique_rule_names (recommend_rules self features)
     = foundational_rule_names ++ map name (recommend_rules self features)).
Proof.
  split.
  - intros recs. unfold unique_rule_names, dict_fromkeys.
    destruct (fromkeys_keys_inv
                (foundational_rule_names ++ map name recs) Dict.empty)
      as [H1 H2]; [constructor|].
    split; [exact H1|]. intros n. rewrite H2, in_app_iff. simpl. tauto.
  - intros self fs. unfold unique_rule_names, dict_fromkeys.
    rewrite fromkeys_keys_fresh; [reflexivity|]. simpl Dict.keys. simpl app.
    pose proof (rank_nodup_names (recommendations fs)) as Hnd.
    fold (recommend_rules self fs) in Hnd.
    assert (Hno : forall n, In n foundational_rule_names ->
                            ~ In n (map name (recommend_rules self fs))).
    { intros n Hn Hin. apply recommend_rules_names in Hin.
      assert (Hu : In n (branch_universe (project_size_of fs))).
      { unfold branch_universe. apply nodup_In, in_or_app.
        destruct Hin as [Hin|Hin]; [now left | right].
        now apply other_rules_names in Hin. }
      clear Hin. unfold branch_universe in Hu.
      destruct (size_rules_cases (project_size_of fs)) as [E|[E|E]];
        rewrite E in Hu; vm_compute in Hu;
        simpl in Hn; destruct Hn as [<-|[<-|[<-|[]]]];
        repeat (destruct Hu as [Hu|Hu]; [discriminate Hu|]); exact Hu. }
    repeat (constructor;
            [simpl; intros Hin;
             repeat (destruct Hin as [Hin|Hin]; [discriminate Hin|]);
             revert Hin; apply Hno; in_concrete_list|]).
    exact Hnd.
Qed.

Lemma split_lines_nonempty s : split_lines s <> [].
Proof.
  destruct s as [|c s]; simpl; [discriminate|].
  destruct (Ascii.eqb c newline); [discriminate|].
  destruct (split_lines s); discriminate.
Qed.

Lemma join_lines_cons line lines :
  lines <> [] -> join_lines (line :: lines) = (line ++ LF ++ join_lines lines)%string.
Proof. destruct lines; [contradiction | reflexivity]. Qed.

Lemma join_split_lines s : join_lines (split_lines s) = s.
Proof.
  induction s as [|c s IH]; [reflexivity|]. simpl.
  destruct (Ascii.eqb_spec c newline) as [->|Hne].
  - rewrite join_lines_cons by apply split_lines_nonempty.
    rewrite IH. reflexivity.
  - pose proof (split_lines_nonempty s) as Hs.
    destruct (split_lines s) as [|line lines]; [contradiction|].
    destruct lines as [|l2 lines].
    + unfold join_lines in *. simpl in *. congruence.
    + rewrite join_lines_cons in * by discriminate.
      change (String c (line ++ LF ++ join_lines (l2 :: lines))%string
              = String c s).
      now rewrite IH.
Qed.

Section ClaudeRulesFacts.
Variable str_strip : string -> string.
Local Abbreviation fence := (is_fence str_strip).

Lemma closing_fence_none lines i :
  Forall (fun l => fence l = false) lines ->
  closing_fence str_strip lines i = None.
Proof.
  intros H. revert i. induction H as [|l lines Hl _ IH]; intros i; simpl.
  - reflexivity.
  - rewrite Hl. apply IH.
Qed.

Lemma closing_fence_found hdr close body i :
  Forall (fun l => fence l = false) hdr ->
  fence close = true ->
  closing_fence str_strip (hdr ++ close :: body) i = Some (i + List.length hdr)%nat.
Proof.
  intros H Hc. revert i. induction H as [|l hdr Hl _ IH]; intros i; simpl.
  - rewrite Hc. f_equal. lia.
  - rewrite Hl, IH. f_equal. lia.
Qed.

(** X6.  Removing the front matter of a rule file.  The text is kept
    whole when its first line is not a [---] fence, and also when the
    opening fence is never closed; otherwise everything up to and
    including the first closing fence is dropped and the rest is kept
    unchanged. *)
Theorem rule_body_front_matter :
  forall (content first : string) (rest : list string),
    split_lines content = first :: rest ->
    (fence first = false -> rule_body str_strip content = Ok content) /\
    (Forall (fun l => fence l = false) rest ->
     rule_body str_strip content = Ok content) /\
    (forall (hdr : list string) (close : string) (body : list string),
       rest = hdr ++ close :: body ->
       fence first = true ->
       Forall (fun l => fence l = false) hdr ->
       fence close = true ->
       rule_body str_strip content = Ok (join_lines body)).
Proof.
  intros content first rest Hsplit.
  unfold rule_body, start_idx. rewrite Hsplit.
  split; [|split].
  - intros ->. simpl. rewrite <- Hsplit. now rewrite join_split_lines.
  - intros Hrest. rewrite (closing_fence_none _ _ Hrest).
    destruct (fence first); simpl; rewrite <- Hsplit;
      now rewrite join_split_lines.
  - intros hdr close body -> Hf Hhdr Hc.
    rewrite Hf, (closing_fence_found _ _ _ _ Hhdr Hc).
    f_equal. f_equal.
    replace (1 + List.length hdr + 1)%nat with (S (List.length hdr + 1)) by lia.
    simpl. rewrite skipn_app.
    rewrite skipn_all2 by lia. simpl.
    replace (List.length hdr + 1 - List.length hdr)%nat with 1%nat by lia.
    reflexivity.
Qed.

Lemma rule_body_returns content :
  exists body, rule_body str_strip content = Ok body.
Proof.
  unfold rule_body, start_idx.
  pose proof (split_lines_nonempty content) as Hne.
  destruct (split_lines content) as [|first rest]; [contradiction|].
  destruct (fence first); [destruct (closing_fence _ _ _)|]; eexists; reflexivity.
Qed.

(** X7.  Splitting a text at line feeds and joining the lines again gives
    the text back, and a split never returns the empty list: the access to
    [lines[0]] cannot fail and [rule_body] always returns. *)
Theorem rule_body_total :
  forall content : string,
    join_lines (split_lines content) = content /\
    split_lines content <> [] /\
    exists body, rule_body str_strip content = Ok body.
Proof.
  intros content.
  split; [apply join_split_lines|]. split; [apply split_lines_nonempty|].
  apply rule_body_returns.
Qed.
End ClaudeRulesFacts.

Lemma rule_body_front_matter_witness :
  split_lines (join_lines sample_rule_lines)
    = "---" :: ["description: commit rule"] ++ "---" :: ["# Commit"; "Use short subjects."] /\
  rule_body (fun s => s) (join_lines sample_rule_lines)
    = Ok (join_lines ["# Commit"; "Use short subjects."]).
Proof.
  assert (H : split_lines (join_lines sample_rule_lines)
    = "---" :: ["description: commit rule"] ++ "---" :: ["# Commit"; "Use short subjects."])
    by reflexivity.
  split; [exact H|].
  apply (proj2 (proj2 (rule_body_front_matter (fun s => s) _ _ _ H))
           ["description: commit rule"] "---" ["# Commit"; "Use short subjects."]).
  - reflexivity.
  - reflexivity.
  - repeat constructor.
  - reflexivity.
Defined.






Section ClaudeInstallFacts.
Variable str_strip : string -> string.
Variable files : Path -> file_state.
Variable self : PathManager.





End ClaudeInstallFacts.

(** ** The probes *)

Lemma fst_probe_bind {A B} (m : Probe A) (k : A -> Probe B) :
  fst (probe_bind m k) =
  match snd m with
  | Ok a => fst m ++ fst (k a)
  | Raise _ => fst m
  end.
Proof. now destruct m as [fs [a|e]]. Qed.

Lemma snd_probe_bind {A B} (m : Probe A) (k : A -> Probe B) :
  snd (probe_bind m k) =
  match snd m with
  | Ok a => snd (k a)
  | Raise e => Raise e
  end.
Proof. now destruct m as [fs [a|e]]. Qed.

Lemma fst_probe_try m : fst (probe_try m) = fst m.
Proof. now destruct m as [fs [a|e]]. Qed.

Lemma snd_probe_try m : snd (probe_try m) = Ok tt.
Proof. now destruct m as [fs [[]|e]]. Qed.

Lemma analyze_scan host is_dir project_path s :
  is_absolute (cwd s) = true ->
  is_dir (cwd s) = true ->
  is_dir (chdir_target s project_path) = true ->
  ProjectAnalyzer_analyze host is_dir project_path s =
    ({| cwd := cwd s; warnings := warnings s;
        self_features := fst (scan_project host project_path) |},
     match snd (scan_project host project_path) with
     | Ok _ => Ok (fst (scan_project host project_path))
     | Raise e => Raise e
     end).
Proof.
  intros Habs Hdir Htarget.
  unfold chdir_target in Htarget.
  unfold ProjectAnalyzer_analyze, analyze, scan_project, set_features,
    working_directory, Path_cwd, get_features, try_finally, os_chdir,
    run_probe, bind.
  simpl. rewrite Htarget.
  destruct (_analyze_project_size host project_path) as [f1 [[]|e1]];
    [destruct (_analyze_languages host project_path) as [f2 [[]|e2]];
     [destruct (_analyze_frameworks host project_path) as [f3 [[]|e3]];
      [destruct (_analyze_team_info host project_path) as [f4 [[]|e4]];
       [destruct (_analyze_toolchain host project_path) as [f5 [[]|e5]]|]|]|]|];
    simpl; rewrite Habs, Hdir; simpl; rewrite ?app_nil_r, <- ?app_assoc;
    reflexivity.
Qed.

(** X9.  When the working directory can be switched to the project and
    back, [analyze] returns exactly the facts of the five probes, in probe
    order, whatever [self.features] held before: every analysis starts
    from an empty list.  When a probe raises, the exception propagates,
    the facts gathered up to that point stay in [self.features], and the
    working directory and the log are as before the call. *)
Theorem analyze_returns_fresh_scan :
  forall (host : Host) (is_dir : Path -> bool) (project_path : Path)
         (s : State),
    is_absolute (cwd s) = true ->
    is_dir (cwd s) = true ->
    is_dir (chdir_target s project_path) = true ->
    let scan := scan_project host project_path in
    let s' := fst (ProjectAnalyzer_analyze host is_dir project_path s) in
    cwd s' = cwd s /\ warnings s' = warnings s /\
    self_features s' = fst scan /\
    (snd scan = Ok tt ->
     snd (ProjectAnalyzer_analyze host is_dir project_path s) = Ok (fst scan)) /\
    (forall e, snd scan = Raise e ->
     snd (ProjectAnalyzer_analyze host is_dir project_path s) = Raise e).
Proof.
  intros host is_dir project_path s Habs Hdir Htarget scan s'.
  subst s'. rewrite (analyze_scan host is_dir project_path s Habs Hdir Htarget).
  fold scan. simpl. repeat split.
  - intros ->. reflexivity.
  - intros e ->. reflexivity.
Qed.

Section ProbeFacts.
Variable host : Host.
Variable root : Path.

Lemma probe_bind_call {A B} (a : A) (k : A -> Probe B) :
  probe_bind (probe_call (Ok a)) k = k a.
Proof. unfold probe_bind, probe_call. simpl. now destruct (k a). Qed.

Lemma probe_bind_call_raise {A B} (e : exn) (k : A -> Probe B) :
  probe_bind (probe_call (Raise e)) k = ([], Raise e).
Proof. reflexivity. Qed.

Lemma match_frameworks_returns table test :
  snd (match_frameworks table test) = Ok tt.
Proof.
  induction table as [|[framework names] table IH]; simpl; [reflexivity|].
  rewrite snd_probe_bind. now destruct (existsb test names).
Qed.

Lemma package_json_frameworks_returns :
  exists_succeeds host root ->
  snd (package_json_frameworks host root) = Ok tt.
Proof.
  intros Hex. unfold package_json_frameworks.
  destruct (Hex "package.json") as [present ->]. rewrite probe_bind_call.
  destruct present; [apply snd_probe_try | reflexivity].
Qed.

Lemma python_file_frameworks_returns file_name :
  exists_succeeds host root ->
  snd (python_file_frameworks host root file_name) = Ok tt.
Proof.
  intros Hex. unfold python_file_frameworks.
  destruct (Hex file_name) as [present ->]. rewrite probe_bind_call.
  destruct present; [apply snd_probe_try | reflexivity].
Qed.

Lemma analyze_frameworks_returns :
  exists_succeeds host root ->
  snd (_analyze_frameworks host root) = Ok tt.
Proof.
  intros Hex. unfold _analyze_frameworks.
  rewrite snd_probe_bind, (package_json_frameworks_returns Hex).
  rewrite snd_probe_bind, (python_file_frameworks_returns _ Hex).
  now apply python_file_frameworks_returns.
Qed.

Lemma analyze_team_info_returns :
  exists_succeeds host root ->
  snd (_analyze_team_info host root) = Ok tt.
Proof.
  intros Hex. unfold _analyze_team_info.
  destruct (Hex ".git") as [present ->]. rewrite probe_bind_call.
  destruct present; [|reflexivity].
  rewrite snd_probe_bind. simpl. apply snd_probe_try.
Qed.

Lemma analyze_team_info_raises e :
  path_present host root ".git" = Raise e ->
  _analyze_team_info host root = ([], Raise e).
Proof. intros H. unfold _analyze_team_info. now rewrite H. Qed.

Lemma detect_cicd_returns indicators :
  exists_succeeds host root ->
  snd (detect_cicd host root indicators) = Ok tt.
Proof.
  intros Hex. induction indicators as [|i rest IH]; [reflexivity|].
  cbn [detect_cicd].
  destruct (Hex i) as [present ->]. rewrite probe_bind_call.
  now destruct present.
Qed.

Lemma detect_documentation_returns :
  exists_succeeds host root ->
  snd (detect_documentation host root) = Ok tt.
Proof.
  intros Hex. unfold detect_documentation.
  destruct (Hex "README.md") as [present ->]. rewrite probe_bind_call.
  destruct present; [apply snd_probe_try | reflexivity].
Qed.

Lemma scan_code_returns patterns file_count line_count :
  rglob_succeeds host root ->
  exists counts, scan_code host root patterns file_count line_count = Ok counts.
Proof.
  intros Hok. revert file_count line_count.
  induction patterns as [|p rest IH]; intros fc lc; simpl.
  - now eexists.
  - destruct (Hok p) as [files ->]. apply IH.
Qed.

Lemma any_indicator_returns indicators :
  rglob_succeeds host root ->
  exists_succeeds host root ->
  exists found, any_indicator host root indicators = Ok found.
Proof.
  intros Hok Hex. induction indicators as [|i rest IH]; simpl.
  - now eexists.
  - destruct (String.prefix "*." i).
    + destruct (Hok i) as [[|f files] ->]; [exact IH | now eexists].
    + destruct (Hex i) as [[|] ->]; [now eexists | exact IH].
Qed.

Lemma detect_languages_returns table :
  rglob_succeeds host root ->
  exists_succeeds host root ->
  snd (detect_languages host root table) = Ok tt.
Proof.
  intros Hok Hex. induction table as [|[lang indicators] table IH];
    [reflexivity|].
  cbn [detect_languages].
  destruct (any_indicator_returns indicators Hok Hex) as [found ->].
  rewrite probe_bind_call.
  rewrite snd_probe_bind. now destruct found.
Qed.

Lemma analyze_project_size_returns :
  rglob_succeeds host root ->
  snd (_analyze_project_size host root) = Ok tt.
Proof.
  intros Hok. unfold _analyze_project_size.
  destruct (scan_code_returns code_patterns 0 0 Hok) as [[fc lc] ->].
  reflexivity.
Qed.

Lemma analyze_toolchain_returns :
  rglob_succeeds host root ->
  exists_succeeds host root ->
  snd (_analyze_toolchain host root) = Ok tt.
Proof.
  intros Hok Hex. unfold _analyze_toolchain.
  destruct (any_indicator_returns test_indicators Hok Hex) as [found ->].
  rewrite probe_bind_call.
  pose proof (detect_cicd_returns ci_indicators Hex) as Hc.
  pose proof (detect_documentation_returns Hex) as Hd.
  destruct (Hex "Dockerfile") as [docker ->]. rewrite probe_bind_call.
  destruct (detect_cicd host root ci_indicators) as [fc rc].
  destruct (detect_documentation host root) as [fd rd].
  simpl in Hc, Hd. subst rc rd.
  destruct found; destruct docker; reflexivity.
Qed.

Lemma scan_project_returns :
  rglob_succeeds host root ->
  exists_succeeds host root ->
  snd (scan_project host root) = Ok tt.
Proof.
  intros Hok Hex. unfold scan_project, _analyze_languages.
  rewrite snd_probe_bind, (analyze_project_size_returns Hok).
  rewrite snd_probe_bind, (detect_languages_returns _ Hok Hex).
  rewrite snd_probe_bind, (analyze_frameworks_returns Hex).
  rewrite snd_probe_bind, (analyze_team_info_returns Hex).
  now apply analyze_toolchain_returns.
Qed.
End ProbeFacts.

(** X10.  Only a failing query of the file system can make the scan
    fail.  When the recursive globs and the existence tests answer, the
    five probes all return, whatever else goes wrong: unreadable source
    files, a [package.json] that is not valid JSON or not an object,
    unreadable dependency files or README, a missing [git] executable, a
    non-zero exit code, a commit count that is not a number.  The
    framework and team probes use no glob and return whenever the
    existence tests answer.  The existence tests are not guarded: when
    the test for [.git] raises, the team probe raises the same exception
    and records nothing. *)
Theorem scan_fails_only_on_queries :
  forall (host : Host) (root : Path),
    (exists_succeeds host root ->
     snd (_analyze_frameworks host root) = Ok tt /\
     snd (_analyze_team_info host root) = Ok tt /\
     (rglob_succeeds host root -> snd (scan_project host root) = Ok tt)) /\
    (forall e,
       path_present host root ".git" = Raise e ->
       _analyze_team_info host root = ([], Raise e)).
Proof.
  intros host root. split.
  - intros Hex.
    split; [now apply analyze_frameworks_returns|].
    split; [now apply analyze_team_info_returns|].
    intros Hok. now apply scan_project_returns.
  - intros e. apply analyze_team_info_raises.
Qed.

Lemma scan_fails_only_on_queries_witness :
  exists_succeeds sample_host "/project" /\
  rglob_succeeds sample_host "/project" /\
  snd (scan_project sample_host "/project") = Ok tt.
Proof.
  assert (Hex : exists_succeeds sample_host "/project")
    by (intros name; eexists; reflexivity).
  assert (H : rglob_succeeds sample_host "/project").
  { intros pattern. simpl.
    destruct (String.eqb pattern "*.py"); eexists; reflexivity. }
  split; [exact Hex|]. split; [exact H|].
  exact (proj2 (proj2 (proj1 (scan_fails_only_on_queries sample_host "/project")
                         Hex)) H).
Defined.

(** X11.  A failing [rglob] is not swallowed.  When the first glob of the
    size probe raises, the scan raises the same exception without having
    recorded any fact, and so does [analyze], which leaves
    [self.features] empty and the working directory restored. *)
Theorem rglob_failure_propagates :
  forall (host : Host) (is_dir : Path -> bool) (project_path : Path)
         (s : State) (e : exn),
    rglob host project_path "*.py" = Raise e ->
    is_absolute (cwd s) = true ->
    is_dir (cwd s) = true ->
    is_dir (chdir_target s project_path) = true ->
    scan_project host project_path = ([], Raise e) /\
    ProjectAnalyzer_analyze host is_dir project_path s =
      ({| cwd := cwd s; warnings := warnings s; self_features := [] |},
       Raise e).
Proof.
  intros host is_dir project_path s e Hglob Habs Hdir Htarget.
  assert (Hscan : scan_project host project_path = ([], Raise e)).
  { unfold scan_project, _analyze_project_size. simpl. now rewrite Hglob. }
  split; [exact Hscan|].
  rewrite (analyze_scan host is_dir project_path s Habs Hdir Htarget).
  now rewrite Hscan.
Qed.

Lemma count_key_app k l1 l2 :
  count_key k (l1 ++ l2) = (count_key k l1 + count_key k l2)%nat.
Proof. unfold count_key. now rewrite filter_app, length_app. Qed.

Lemma count_key_outside k l ks :
  keys_within l ks -> ~ In k ks -> count_key k l = 0%nat.
Proof.
  unfold keys_within, count_key. intros H Hk.
  induction H as [|f l Hf _ IH]; simpl; [reflexivity|].
  destruct (String.eqb_spec (key f) k) as [E|E]; [|exact IH].
  subst k. contradiction.
Qed.

Lemma keys_within_app l1 l2 ks1 ks2 :
  keys_within l1 ks1 -> keys_within l2 ks2 -> keys_within (l1 ++ l2) (ks1 ++ ks2).
Proof.
  unfold keys_within. intros H1 H2. apply Forall_app. split.
  - eapply Forall_impl; [|exact H1]. intros f Hf. apply in_or_app. now left.
  - eapply Forall_impl; [|exact H2]. intros f Hf. apply in_or_app. now right.
Qed.

Lemma keys_within_nil ks : keys_within [] ks.
Proof. constructor. Qed.

#[local] Hint Resolve keys_within_nil : core.

Ltac keys_concrete :=
  unfold keys_within; forall_concrete in_concrete_list.

Ltac count_concrete k :=
  unfold count_key; simpl;
  repeat match goal with
         | |- context [String.eqb ?a k] =>
             destruct (String.eqb_spec a k); subst; simpl
         end;
  try lia; try discriminate.

Ltac nodup_concrete :=
  repeat (apply NoDup_cons; [simpl; intuition discriminate|]);
  apply NoDup_nil.

Ltac destruct_host_calls host root :=
  repeat first
    [ progress simpl
    | match goal with
      | |- context [path_present host root ?x] =>
          destruct (path_present host root x) as [[|]|?]
      | |- context [run_git host root ?a] =>
          destruct (run_git host root a) as [[? ?]|?]
      | |- context [py_int host ?a] => destruct (py_int host a)
      | |- context [read_file host root ?a] => destruct (read_file host root a)
      | |- context [Z.eqb ?a 0] => destruct (Z.eqb a 0)
      | |- context [Z.ltb 20 ?a] => destruct (Z.ltb 20 a)
      end ].

Lemma keys_within_bind {A B} (m : Probe A) (k : A -> Probe B) ks :
  keys_within (fst m) ks ->
  (forall a, keys_within (fst (k a)) ks) ->
  keys_within (fst (probe_bind m k)) ks.
Proof.
  intros Hm Hk. rewrite fst_probe_bind. unfold keys_within in *.
  destruct (snd m) as [a|e]; [|exact Hm].
  apply Forall_app. split; [exact Hm | apply Hk].
Qed.

Lemma keys_within_call {A} (r : result A) ks :
  keys_within (fst (probe_call r)) ks.
Proof. apply Forall_nil. Qed.

Lemma keys_within_try m ks :
  keys_within (fst m) ks -> keys_within (fst (probe_try m)) ks.
Proof. now rewrite fst_probe_try. Qed.

Section ProbeKeys.
Variable host : Host.
Variable root : Path.

Lemma size_keys :
  keys_within (fst (_analyze_project_size host root)) ["project_size"] /\
  (List.length (fst (_analyze_project_size host root)) <= 1)%nat.
Proof.
  unfold _analyze_project_size.
  destruct (scan_code host root code_patterns 0 0) as [[fc lc]|e]; simpl.
  - split; [keys_concrete | lia].
  - split; [constructor | lia].
Qed.

Lemma detect_languages_keys table :
  keys_within (fst (detect_languages host root table)) ["languages"].
Proof.
  induction table as [|[lang indicators] table IH]; [apply Forall_nil|].
  cbn [detect_languages].
  apply keys_within_bind; [apply keys_within_call|]. intros found.
  apply keys_within_bind; [|intros _; exact IH].
  destruct found; [keys_concrete | apply Forall_nil].
Qed.

Lemma match_frameworks_keys table test :
  keys_within (fst (match_frameworks table test)) ["frameworks"].
Proof.
  induction table as [|[framework names] table IH]; [apply Forall_nil|].
  cbn [match_frameworks].
  apply keys_within_bind; [|intros _; exact IH].
  destruct (existsb test names); [keys_concrete | apply Forall_nil].
Qed.

Lemma package_json_frameworks_keys :
  keys_within (fst (package_json_frameworks host root)) ["frameworks"].
Proof.
  unfold package_json_frameworks.
  apply keys_within_bind; [apply keys_within_call|].
  intros [|]; [|apply Forall_nil].
  apply keys_within_try.
  apply keys_within_bind; [apply keys_within_call|]. intros package_data.
  apply keys_within_bind; [apply keys_within_call|]. intros dependencies.
  apply match_frameworks_keys.
Qed.

Lemma python_file_frameworks_keys file_name :
  keys_within (fst (python_file_frameworks host root file_name)) ["frameworks"].
Proof.
  unfold python_file_frameworks.
  apply keys_within_bind; [apply keys_within_call|].
  intros [|]; [|apply Forall_nil].
  apply keys_within_try.
  apply keys_within_bind; [apply keys_within_call|]. intros content.
  apply match_frameworks_keys.
Qed.

Lemma frameworks_keys :
  keys_within (fst (_analyze_frameworks host root)) ["frameworks"].
Proof.
  unfold _analyze_frameworks.
  apply keys_within_bind; [apply package_json_frameworks_keys|]. intros _.
  apply keys_within_bind; [apply python_file_frameworks_keys|]. intros _.
  apply python_file_frameworks_keys.
Qed.

Lemma team_keys :
  keys_within (fst (_analyze_team_info host root))
    ["has_git"; "team_size"; "project_maturity"] /\
  NoDup (map key (fst (_analyze_team_info host root))).
Proof.
  unfold _analyze_team_info, keys_within.
  destruct_host_calls host root;
    (split; [forall_concrete in_concrete_list | nodup_concrete]).
Qed.

Lemma toolchain_keys :
  keys_within (fst (_analyze_toolchain host root))
    ["has_testing"; "has_cicd"; "has_docker"; "has_documentation"] /\
  NoDup (map key (fst (_analyze_toolchain host root))).
Proof.
  unfold _analyze_toolchain, detect_documentation, keys_within.
  destruct (any_indicator host root test_indicators) as [found|e];
    [|split; [apply Forall_nil | apply NoDup_nil]].
  destruct found;
    destruct_host_calls host root;
    (split; [forall_concrete in_concrete_list | nodup_concrete]).
Qed.

(** The facts of a scan, probe by probe; a probe that was not reached has
    no facts. *)
Lemma scan_project_split_size :
  exists f2 f3 f4 f5,
    fst (scan_project host root)
    = fst (_analyze_project_size host root) ++ f2 ++ f3 ++ f4 ++ f5 /\
    keys_within f2 ["languages"] /\
    keys_within f3 ["frameworks"] /\
    (keys_within f4 ["has_git"; "team_size"; "project_maturity"] /\
     NoDup (map key f4)) /\
    (keys_within f5
       ["has_testing"; "has_cicd"; "has_docker"; "has_documentation"] /\
     NoDup (map key f5)) /\
    (f4 = [] \/ f4 = fst (_analyze_team_info host root)).
Proof.
  assert (Hnil : forall ks, keys_within [] ks /\
                            NoDup (map key (@nil ProjectFeature))).
  { intros ks. split; constructor. }
  pose proof (detect_languages_keys language_indicators) as K2.
  pose proof frameworks_keys as K3.
  pose proof team_keys as K4.
  pose proof toolchain_keys as K5.
  fold (_analyze_languages host root) in K2.
  unfold scan_project.
  rewrite fst_probe_bind.
  destruct (snd (_analyze_project_size host root)) as [[]|e1];
    [|exists [], [], [], []; rewrite !app_nil_r;
      repeat split; try apply Forall_nil; try apply NoDup_nil; now left].
  rewrite fst_probe_bind.
  destruct (snd (_analyze_languages host root)) as [[]|e2];
    [|exists (fst (_analyze_languages host root)), [], [], [];
      rewrite !app_nil_r;
      repeat split; try apply Forall_nil; try apply NoDup_nil;
      try assumption; now left].
  rewrite fst_probe_bind.
  destruct (snd (_analyze_frameworks host root)) as [[]|e3];
    [|exists (fst (_analyze_languages host root)),
             (fst (_analyze_frameworks host root)), [], [];
      rewrite !app_nil_r;
      repeat split; try apply Forall_nil; try apply NoDup_nil;
      try assumption; now left].
  rewrite fst_probe_bind.
  destruct (snd (_analyze_team_info host root)) as [[]|e4].
  - exists (fst (_analyze_languages host root)),
           (fst (_analyze_frameworks host root)),
           (fst (_analyze_team_info host root)),
           (fst (_analyze_toolchain host root)).
    repeat split; try assumption; try apply K4; try apply K5. now right.
  - exists (fst (_analyze_languages host root)),
           (fst (_analyze_frameworks host root)),
           (fst (_analyze_team_info host root)), [].
    rewrite !app_nil_r.
    repeat split; try assumption; try apply K4;
      try apply Forall_nil; try apply NoDup_nil. now right.
Qed.

Lemma scan_project_split :
  exists f1 f2 f3 f4 f5,
    fst (scan_project host root) = f1 ++ f2 ++ f3 ++ f4 ++ f5 /\
    (keys_within f1 ["project_size"] /\ (List.length f1 <= 1)%nat) /\
    keys_within f2 ["languages"] /\
    keys_within f3 ["frameworks"] /\
    (keys_within f4 ["has_git"; "team_size"; "project_maturity"] /\
     NoDup (map key f4)) /\
    (keys_within f5
       ["has_testing"; "has_cicd"; "has_docker"; "has_documentation"] /\
     NoDup (map key f5)) /\
    (f4 = [] \/ f4 = fst (_analyze_team_info host root)).
Proof.
  destruct scan_project_split_size as (f2 & f3 & f4 & f5 & H).
  exists (fst (_analyze_project_size host root)), f2, f3, f4, f5.
  split; [apply H|]. split; [apply size_keys | apply H].
Qed.
End ProbeKeys.

Lemma count_key_notin k l : ~ In k (map key l) -> count_key k l = 0%nat.
Proof.
  unfold count_key. induction l as [|f l IH]; simpl; [reflexivity|].
  intros H. destruct (String.eqb_spec (key f) k); [tauto|]. apply IH. tauto.
Qed.

Lemma count_key_nodup k l : NoDup (map key l) -> (count_key k l <= 1)%nat.
Proof.
  induction l as [|f l IH]; simpl; intros H; [unfold count_key; simpl; lia|].
  inversion H as [|? ? Hn Hl]; subst.
  unfold count_key in *. simpl.
  destruct (String.eqb_spec (key f) k) as [<-|Hne]; [|now apply IH].
  simpl. pose proof (count_key_notin _ _ Hn) as H0.
  unfold count_key in H0. rewrite H0. lia.
Qed.

Lemma count_key_le_length k l : (count_key k l <= List.length l)%nat.
Proof. unfold count_key. apply filter_length_le. Qed.

Lemma count_key_bound k l ks n :
  keys_within l ks -> (count_key k l <= n)%nat ->
  (count_key k l <= if str_in k ks then n else 0)%nat.
Proof.
  intros Hk Hn. destruct (str_in k ks) eqn:E; [exact Hn|].
  rewrite (count_key_outside k l ks Hk); [lia|].
  intros Hin. unfold str_in in E.
  assert (existsb (String.eqb k) ks = true); [|congruence].
  apply existsb_exists. exists k. split; [exact Hin | apply String.eqb_refl].
Qed.

Lemma keys_within_incl l ks ks' :
  keys_within l ks -> incl ks ks' -> keys_within l ks'.
Proof.
  unfold keys_within. intros H Hi. eapply Forall_impl; [|exact H].
  intros f Hf. now apply Hi.
Qed.

Lemma values_of_count_zero k l : count_key k l = 0%nat -> values_of k l = [].
Proof.
  intros H. apply length_zero_iff_nil. now rewrite values_of_length.
Qed.

Lemma scan_single_keys host root k :
  In k single_keys ->
  (count_key k (fst (scan_project host root)) <= 1)%nat.
Proof.
  intros Hk.
  destruct (scan_project_split host root)
    as (f1 & f2 & f3 & f4 & f5 & -> & [K1 L1] & K2 & K3 & [K4 N4] & [K5 N5] & _).
  rewrite !count_key_app.
  pose proof (count_key_bound k f1 _ 1 K1
                (Nat.le_trans _ _ _ (count_key_le_length k f1) L1)) as B1.
  pose proof (count_key_bound k f2 _ 0 K2) as B2.
  pose proof (count_key_bound k f3 _ 0 K3) as B3.
  pose proof (count_key_bound k f4 _ 1 K4 (count_key_nodup k f4 N4)) as B4.
  pose proof (count_key_bound k f5 _ 1 K5 (count_key_nodup k f5 N5)) as B5.
  assert (Z2 : (count_key k f2 = 0)%nat).
  { apply (count_key_outside k f2 _ K2).
    simpl in Hk. simpl. intuition (subst; discriminate). }
  assert (Z3 : (count_key k f3 = 0)%nat).
  { apply (count_key_outside k f3 _ K3).
    simpl in Hk. simpl. intuition (subst; discriminate). }
  clear B2 B3.
  simpl in Hk.
  destruct Hk as [<-|[<-|[<-|[<-|[<-|[<-|[<-|[<-|[]]]]]]]]];
    simpl in B1, B4, B5; lia.
Qed.

(** X12.  The profile a scan produces.  Every fact has one of the ten
    known keys, and each key other than [languages] and [frameworks]
    occurs at most once: [project_size], [has_git], [team_size],
    [project_maturity], [has_testing], [has_cicd] (even when several CI
    configurations are present), [has_docker], [has_documentation].  This
    holds of the facts gathered so far also when a probe raises. *)
Theorem scan_profile_keys :
  forall (host : Host) (root : Path),
    let facts := fst (scan_project host root) in
    keys_within facts known_keys /\
    forall k, In k single_keys -> (count_key k facts <= 1)%nat.
Proof.
  intros host root facts. subst facts. split.
  - destruct (scan_project_split host root)
      as (f1 & f2 & f3 & f4 & f5 & -> & [K1 _] & K2 & K3 & [K4 _] & [K5 _] & _).
    unfold keys_within in *.
    repeat (apply Forall_app; split);
      [ apply (keys_within_incl _ _ _ K1)
      | apply (keys_within_incl _ _ _ K2)
      | apply (keys_within_incl _ _ _ K3)
      | apply (keys_within_incl _ _ _ K4)
      | apply (keys_within_incl _ _ _ K5) ];
      intros k Hk; simpl in Hk;
      repeat (destruct Hk as [<-|Hk]; [in_concrete_list|]); contradiction.
  - intros k Hk. now apply scan_single_keys.
Qed.

Lemma scan_profile_keys_witness :
  In "has_git" single_keys /\
  (count_key "has_git" (fst (scan_project sample_host "/project")) <= 1)%nat.
Proof.
  split; [in_concrete_list|].
  apply (proj2 (scan_profile_keys sample_host "/project")). in_concrete_list.
Defined.

Lemma recommend_rules_blur_perm self fs fs' :
  Permutation fs fs' ->
  (forall k, In k scalar_keys -> (count_key k fs <= 1)%nat) ->
  map blur (recommend_rules self fs) = map blur (recommend_rules self fs').
Proof.
  intros Hperm Hcount.
  rewrite !blur_recommend_rules.
  rewrite (ranking_with_ext (feature_dict fs) (feature_dict fs'));
    [|intros k Hk; apply lookup_perm_unique; auto].
  assert (Hl : Permutation (languages fs) (languages fs'))
    by now apply (values_of_perm "languages").
  pose proof (existsb_perm is_swift _ _ Hl) as Hs.
  pose proof (existsb_perm is_analysed _ _ Hl) as Ha.
  destruct (first_language_rules_shape (languages fs)) as [E|(Es & Ea & E)];
    destruct (first_language_rules_shape (languages fs')) as [E'|(Es' & Ea' & E')];
    rewrite E, E'.
  - now rewrite Hs, Ha.
  - rewrite Hs, Ha, Es', Ea'. apply ranking_with_swap.
  - rewrite <- Hs, <- Ha, Es, Ea. symmetry. apply ranking_with_swap.
  - reflexivity.
Qed.

(** X13.  On a profile produced by a scan the engine does not depend on
    the order of the facts: any reordering of the scanned facts gives the
    same recommendations, in the same order, up to the reason text of
    [code-analysis]. *)
Theorem scanned_profile_order_insensitive :
  forall (host : Host) (root : Path) (self : RuleEngine)
         (features' : list ProjectFeature),
    Permutation (fst (scan_project host root)) features' ->
    map blur (recommend_rules self (fst (scan_project host root)))
    = map blur (recommend_rules self features').
Proof.
  intros host root self fs' Hperm.
  apply recommend_rules_blur_perm; [exact Hperm|].
  intros k Hk. apply scan_single_keys.
  simpl in Hk. destruct Hk as [<-|[<-|[<-|[<-|[]]]]]; in_concrete_list.
Qed.

Lemma scanned_profile_order_insensitive_witness :
  Permutation (fst (scan_project sample_host "/project"))
    (rev (fst (scan_project sample_host "/project"))) /\
  map blur (recommend_rules default_engine
              (fst (scan_project sample_host "/project")))
  = map blur (recommend_rules default_engine
                (rev (fst (scan_project sample_host "/project")))).
Proof.
  split; [apply Permutation_rev|].
  exact (scanned_profile_order_insensitive sample_host "/project"
           default_engine _ (Permutation_rev _)).
Defined.

Lemma recommendations_forall (P : RuleRecommendation -> Prop) fs :
  Forall P core_rules ->
  Forall P (size_rules (project_size_of fs)) ->
  (forall lang, Forall P (language_rules lang)) ->
  Forall P (team_rules (Dict.get_default (feature_dict fs) "team_size" "solo")) ->
  Forall P (testing_rules (feature_dict fs)) ->
  Forall P (git_rules (feature_dict fs)) ->
  P tracker ->
  Forall P (recommendations fs).
Proof.
  intros Hc Hs Hl Ht Hte Hg Htr. unfold recommendations.
  repeat (apply Forall_app; split); auto.
  apply Forall_flat_map. rewrite Forall_forall. intros lang _. apply Hl.
Qed.

Ltac forall_blocks tac :=
  apply recommendations_forall;
  [ forall_concrete tac
  | unfold size_rules;
    destruct (String.eqb _ "large"); [|destruct (String.eqb _ "medium")];
    forall_concrete tac
  | intros lang; unfold language_rules;
    destruct (String.eqb lang "swift"); [|destruct (str_in lang _)];
    forall_concrete tac
  | idtac
  | unfold testing_rules; destruct (is_true _ _); forall_concrete tac
  | idtac
  | tac ].

Lemma lookup_absent k fs :
  count_key k fs = 0%nat -> Dict.get (feature_dict fs) k = None.
Proof.
  intros H. rewrite feature_dict_get, (values_of_count_zero _ _ H).
  reflexivity.
Qed.

Lemma changelog_iff self fs :
  In "add-to-changelog" (map name (recommend_rules self fs)) <->
  str_in (Dict.get_default (feature_dict fs) "team_size" "solo")
    ["medium"; "large"] = true.
Proof.
  unfold recommend_rules. rewrite rank_names. split.
  - intros Hin. destruct (str_in _ _) eqn:E; [reflexivity|]. exfalso.
    apply in_map_iff in Hin. destruct Hin as (c & Hc & Hin).
    assert (H : Forall (fun c => name c <> "add-to-changelog")
                  (recommendations fs)).
    { forall_blocks ltac:(simpl; discriminate).
      - unfold team_rules. rewrite E. constructor.
      - unfold git_rules. destruct (is_true _ _);
          forall_concrete ltac:(simpl; discriminate). }
    rewrite Forall_forall in H. now apply (H c Hin).
  - intros E. unfold recommendations, team_rules. rewrite E.
    rewrite !map_app. do 3 (apply in_or_app; right).
    apply in_or_app; left. in_concrete_list.
Qed.

Lemma team_info_without_git host root :
  path_present host root ".git" = Ok false ->
  fst (_analyze_team_info host root) = [].
Proof. unfold _analyze_team_info. now intros ->. Qed.

(** X14.  A project without a [.git] directory.  The scan records no
    [has_git], [team_size] or [project_maturity] fact, and the engine then
    never recommends [add-to-changelog]; if [commit] is recommended it is
    the candidate of the small size branch, with weight 6. *)
Theorem no_git_no_team_rules :
  forall (host : Host) (root : Path) (self : RuleEngine),
    path_present host root ".git" = Ok false ->
    let facts := fst (scan_project host root) in
    (forall f, In f facts ->
       ~ In (key f) ["has_git"; "team_size"; "project_maturity"]) /\
    ~ In "add-to-changelog" (map name (recommend_rules self facts)) /\
    (forall r, In r (recommend_rules self facts) ->
       name r = "commit" -> weight r = 6).
Proof.
  intros host root self Hgit facts. subst facts.
  destruct (scan_project_split host root)
    as (f1 & f2 & f3 & f4 & f5 & Hsplit & [K1 _] & K2 & K3 & _ & [K5 _] & H4).
  assert (E4 : f4 = []).
  { destruct H4 as [->| ->]; [reflexivity | now apply team_info_without_git]. }
  subst f4. rewrite Hsplit. simpl app.
  assert (Hkeys : keys_within (f1 ++ f2 ++ f3 ++ f5)
            (["project_size"] ++ ["languages"] ++ ["frameworks"]
             ++ ["has_testing"; "has_cicd"; "has_docker"; "has_documentation"])).
  { repeat apply keys_within_app; assumption. }
  set (fs := f1 ++ f2 ++ f3 ++ f5) in *.
  assert (Hzero : forall k, In k ["has_git"; "team_size"; "project_maturity"] ->
                            count_key k fs = 0%nat).
  { intros k Hk. apply (count_key_outside k fs _ Hkeys).
    simpl in Hk. simpl. intuition (subst; discriminate). }
  split; [|split].
  - intros f Hf Hk.
    pose proof (Hzero _ Hk) as Hz.
    unfold keys_within in Hkeys. rewrite Forall_forall in Hkeys.
    specialize (Hkeys f Hf). simpl in Hk, Hkeys.
    intuition congruence.
  - rewrite changelog_iff. unfold Dict.get_default.
    rewrite lookup_absent by (apply Hzero; in_concrete_list).
    discriminate.
  - intros r Hr Hn. apply recommend_rules_sub in Hr.
    assert (H : Forall (fun c => name c = "commit" -> weight c = 6)
                  (recommendations fs)).
    { forall_blocks ltac:(simpl; intros H; first [discriminate H | reflexivity]).
      - unfold team_rules. destruct (str_in _ _);
          forall_concrete ltac:(simpl; intros H; discriminate H).
      - unfold git_rules, is_true.
        rewrite lookup_absent by (apply Hzero; in_concrete_list).
        constructor. }
    rewrite Forall_forall in H. now apply (H r Hr).
Qed.

Lemma no_git_no_team_rules_witness :
  path_present sample_host "/project" ".git" = Ok false /\
  ~ In "add-to-changelog"
      (map name (recommend_rules default_engine
                   (fst (scan_project sample_host "/project")))).
Proof.
  split; [reflexivity|].
  exact (proj1 (proj2 (no_git_no_team_rules sample_host "/project"
                         default_engine eq_refl))).
Defined.

Lemma scan_project_facts host root :
  snd (scan_project host root) = Ok tt ->
  fst (scan_project host root) =
    fst (_analyze_project_size host root)
    ++ fst (_analyze_languages host root)
    ++ fst (_analyze_frameworks host root)
    ++ fst (_analyze_team_info host root)
    ++ fst (_analyze_toolchain host root).
Proof.
  unfold scan_project.
  rewrite snd_probe_bind, fst_probe_bind.
  destruct (snd (_analyze_project_size host root)) as [[]|e1]; [|discriminate].
  rewrite snd_probe_bind, fst_probe_bind.
  destruct (snd (_analyze_languages host root)) as [[]|e2]; [|discriminate].
  rewrite snd_probe_bind, fst_probe_bind.
  destruct (snd (_analyze_frameworks host root)) as [[]|e3]; [|discriminate].
  rewrite snd_probe_bind, fst_probe_bind.
  destruct (snd (_analyze_team_info host root)) as [[]|e4]; [|discriminate].
  reflexivity.
Qed.

Lemma team_size_values host root :
  values_of "team_size" (fst (_analyze_team_info host root)) =
  match team_size_value host root with
  | Some v => [v]
  | None => []
  end.
Proof.
  unfold _analyze_team_info, team_size_value, git_log_authors, values_of.
  destruct (path_present host root ".git") as [[|]|e0]; [|reflexivity..].
  rewrite probe_bind_call.
  destruct (run_git host root ["git"; "log"; "--format=%ae"])
    as [[rc1 out1]|e1]; [|reflexivity].
  cbn [probe_bind probe_append probe_call probe_ret probe_try fst snd app].
  destruct (rc1 =? 0);
    cbn [probe_bind probe_append probe_call probe_ret probe_try fst snd app];
    (destruct (run_git host root ["git"; "rev-list"; "--count"; "HEAD"])
       as [[rc2 out2]|e2];
     [cbn [probe_bind probe_append probe_call probe_ret probe_try fst snd app];
      destruct (rc2 =? 0);
      [cbn [probe_bind probe_append probe_call probe_ret probe_try fst snd app];
       destruct (py_int host (py_strip host out2))|]|]);
    reflexivity.
Qed.

Lemma scan_team_lookup host root :
  snd (scan_project host root) = Ok tt ->
  Dict.get (feature_dict (fst (scan_project host root))) "team_size"
  = team_size_value host root.
Proof.
  intros Hok. rewrite feature_dict_get, (scan_project_facts host root Hok).
  rewrite !values_of_app. unfold _analyze_languages.
  assert (Hz : forall l ks, keys_within l ks -> ~ In "team_size" ks ->
                            values_of "team_size" l = []).
  { intros l ks Hk Hn. apply values_of_count_zero.
    now apply (count_key_outside _ _ ks). }
  rewrite (Hz _ _ (proj1 (size_keys host root)))
    by (simpl; intuition discriminate).
  rewrite (Hz _ _ (detect_languages_keys host root language_indicators))
    by (simpl; intuition discriminate).
  rewrite (Hz _ _ (frameworks_keys host root))
    by (simpl; intuition discriminate).
  rewrite (Hz _ _ (proj1 (toolchain_keys host root)))
    by (simpl; intuition discriminate).
  rewrite team_size_values, app_nil_r. simpl.
  now destruct (team_size_value host root).
Qed.

Lemma classify_team_collaborative contributors :
  str_in (classify_team contributors) ["medium"; "large"] = (3 <? contributors).
Proof.
  unfold classify_team.
  destruct (Z.ltb_spec 10 contributors);
    destruct (Z.ltb_spec 3 contributors);
    destruct (Z.ltb_spec 1 contributors); try reflexivity; lia.
Qed.

Lemma count_contributors_positive host stdout :
  1 <= count_contributors host stdout.
Proof.
  unfold count_contributors.
  pose proof (split_lines_nonempty (py_strip host stdout)) as Hne.
  destruct (split_lines (py_strip host stdout)) as [|line lines] eqn:E;
    [contradiction|].
  assert (Hin : In line (nodup string_dec (line :: lines)))
    by (apply nodup_In; now left).
  destruct (nodup string_dec (line :: lines)); [contradiction | simpl; lia].
Qed.

(** X15.  From the git history to the team rules.  When the scan
    succeeds, [add-to-changelog] is recommended exactly when the project
    has a [.git] directory and the author query exits with code 0 and
    lists more than three distinct authors.  The count of authors is never
    below one: an empty output counts as one author. *)
Theorem team_rules_threshold :
  forall (host : Host) (root : Path) (self : RuleEngine),
    snd (scan_project host root) = Ok tt ->
    (In "add-to-changelog"
        (map name (recommend_rules self (fst (scan_project host root))))
     <->
     path_present host root ".git" = Ok true /\
     exists stdout,
       run_git host root git_log_authors = Ok (0, stdout) /\
       3 < count_contributors host stdout) /\
    (forall stdout, 1 <= count_contributors host stdout).
Proof.
  intros host root self Hscan.
  split; [|intros; apply count_contributors_positive].
  rewrite changelog_iff. unfold Dict.get_default.
  rewrite (scan_team_lookup host root Hscan).
  unfold team_size_value.
  destruct (path_present host root ".git") as [[|]|e0];
    [|split; [discriminate | intros [H _]; discriminate H]..].
  destruct (run_git host root git_log_authors) as [[rc stdout]|e].
  - destruct (Z.eqb_spec rc 0) as [->|Hrc].
    + rewrite classify_team_collaborative. split.
      * intros H. split; [reflexivity|]. exists stdout.
        split; [reflexivity | now apply Z.ltb_lt].
      * intros [_ (out & Hout & Hc)]. inversion Hout; subst.
        now apply Z.ltb_lt.
    + split; [discriminate|].
      intros [_ (out & Hout & _)]. inversion Hout; subst. contradiction.
  - split; [discriminate|]. intros [_ (out & Hout & _)]. discriminate Hout.
Qed.

Lemma team_rules_threshold_witness :
  snd (scan_project sample_team_host "/project") = Ok tt /\
  In "add-to-changelog"
    (map name (recommend_rules default_engine
                 (fst (scan_project sample_team_host "/project")))).
Proof.
  assert (H : snd (scan_project sample_team_host "/project") = Ok tt)
    by reflexivity.
  split; [exact H|].
  apply (proj1 (team_rules_threshold sample_team_host "/project"
                  default_engine H)).
  split; [reflexivity|]. eexists. split; [reflexivity|].
  vm_compute. reflexivity.
Defined.

Lemma snd_scan_languages host root :
  snd (scan_project host root) = Ok tt ->
  snd (_analyze_languages host root) = Ok tt.
Proof.
  unfold scan_project. rewrite snd_probe_bind.
  destruct (snd (_analyze_project_size host root)) as [[]|e1]; [|discriminate].
  rewrite snd_probe_bind.
  destruct (snd (_analyze_languages host root)) as [[]|e2];
    [reflexivity | discriminate].
Qed.

Lemma any_indicator_detected host root indicators found :
  any_indicator host root indicators = Ok found ->
  found = language_detected host root indicators.
Proof.
  unfold language_detected.
  induction indicators as [|indicator rest IH]; simpl.
  - now intros [= <-].
  - unfold indicator_present at 1.
    destruct (String.prefix "*." indicator).
    + destruct (rglob host root indicator) as [[|file files]|e];
        [exact IH | now intros [= <-] | discriminate].
    + destruct (path_present host root indicator) as [[|]|e];
        [now intros [= <-] | exact IH | discriminate].
Qed.

Lemma detect_languages_values host root table :
  snd (detect_languages host root table) = Ok tt ->
  map value (fst (detect_languages host root table)) =
  map fst (filter (fun p => language_detected host root (snd p)) table).
Proof.
  induction table as [|[lang indicators] table IH]; [reflexivity|].
  cbn [detect_languages filter snd].
  destruct (any_indicator host root indicators) as [found|e] eqn:E;
    [|discriminate].
  rewrite <- (any_indicator_detected _ _ _ _ E).
  destruct found; simpl.
  - intros H. f_equal. apply IH.
    destruct (detect_languages host root table) as [fs r]. exact H.
  - intros H. apply IH.
    destruct (detect_languages host root table) as [fs r]. exact H.
Qed.

Lemma values_of_all k l :
  keys_within l [k] -> values_of k l = map value l.
Proof.
  unfold keys_within, values_of. induction 1 as [|f l Hf _ IH]; simpl;
    [reflexivity|].
  destruct Hf as [<-|[]]. rewrite String.eqb_refl. simpl. now rewrite IH.
Qed.

(** X16.  The languages of a scanned profile.  When the scan succeeds,
    the [languages] facts are exactly the languages with a present
    indicator, each once, in the fixed order javascript, typescript,
    python, rust, go, swift, java, csharp. *)
Theorem scanned_languages :
  forall (host : Host) (root : Path),
    snd (scan_project host root) = Ok tt ->
    languages (fst (scan_project host root)) =
      map fst (filter (fun p => language_detected host root (snd p))
                 language_indicators) /\
    NoDup (languages (fst (scan_project host root))).
Proof.
  intros host root Hok.
  assert (E : languages (fst (scan_project host root)) =
              map fst (filter (fun p => language_detected host root (snd p))
                         language_indicators)).
  { change languages with (values_of "languages").
    rewrite (scan_project_facts host root Hok), !values_of_app.
    assert (Hz : forall l ks, keys_within l ks -> ~ In "languages" ks ->
                              values_of "languages" l = []).
    { intros l ks Hk Hn. apply values_of_count_zero.
      now apply (count_key_outside _ _ ks). }
    rewrite (Hz _ _ (proj1 (size_keys host root)))
      by (simpl; intuition discriminate).
    rewrite (Hz _ _ (frameworks_keys host root))
      by (simpl; intuition discriminate).
    rewrite (Hz _ _ (proj1 (team_keys host root)))
      by (simpl; intuition discriminate).
    rewrite (Hz _ _ (proj1 (toolchain_keys host root)))
      by (simpl; intuition discriminate).
    rewrite app_nil_r. simpl.
    unfold _analyze_languages.
    rewrite values_of_all by apply detect_languages_keys.
    apply detect_languages_values. now apply snd_scan_languages. }
  split; [exact E|]. rewrite E.
  assert (Hnd : NoDup (map fst language_indicators)) by nodup_concrete.
  revert Hnd. generalize language_indicators.
  induction l as [|p l IH]; simpl; intros Hnd; [constructor|].
  inversion Hnd as [|? ? Hn Hl]; subst.
  destruct (language_detected host root (snd p)); simpl; [|now apply IH].
  constructor; [|now apply IH].
  intros Hin. apply Hn. apply in_map_iff in Hin.
  destruct Hin as (q & Hq & Hin). apply filter_In in Hin.
  apply in_map_iff. exists q. tauto.
Qed.

Lemma scanned_languages_witness :
  snd (scan_project sample_host "/project") = Ok tt /\
  languages (fst (scan_project sample_host "/project")) = ["python"].
Proof.
  assert (H : snd (scan_project sample_host "/project") = Ok tt)
    by reflexivity.
  split; [exact H|].
  rewrite (proj1 (scanned_languages sample_host "/project" H)).
  reflexivity.
Defined.

Lemma readable_lines_app host l1 l2 :
  readable_lines host (l1 ++ l2)
  = readable_lines host l1 + readable_lines host l2.
Proof.
  induction l1 as [|f l1 IH]; simpl; [reflexivity|].
  destruct (count_lines host f); rewrite IH; lia.
Qed.

Lemma readable_lines_nonneg host l : 0 <= readable_lines host l.
Proof.
  induction l as [|f l IH]; simpl; [lia|].
  destruct (count_lines host f); lia.
Qed.

Lemma count_file_lines_spec host files line_count :
  count_file_lines host files line_count
  = line_count + readable_lines host files.
Proof.
  revert line_count. induction files as [|f files IH]; intros lc; simpl;
    [lia|].
  destruct (count_lines host f); rewrite IH; lia.
Qed.

Lemma scan_code_spec host root patterns file_count line_count :
  rglob_succeeds host root ->
  scan_code host root patterns file_count line_count =
  Ok (file_count + Z.of_nat (List.length (matched_files host root patterns)),
      line_count + readable_lines host (matched_files host root patterns)).
Proof.
  intros Hok. revert file_count line_count.
  induction patterns as [|p rest IH]; intros fc lc; simpl.
  - f_equal. f_equal; lia.
  - destruct (Hok p) as [files ->]. rewrite IH.
    rewrite count_file_lines_spec, length_app, readable_lines_app.
    f_equal. f_equal; lia.
Qed.

Lemma scan_size_lookup host root :
  rglob_succeeds host root ->
  project_size_of (fst (scan_project host root)) =
  classify_size
    (Z.of_nat (List.length (matched_files host root code_patterns)))
    (readable_lines host (matched_files host root code_patterns)).
Proof.
  intros Hok. unfold project_size_of, Dict.get_default.
  rewrite feature_dict_get.
  destruct (scan_project_split_size host root)
    as (f2 & f3 & f4 & f5 & -> & K2 & K3 & [K4 _] & [K5 _] & _).
  rewrite !values_of_app.
  assert (Hz : forall l ks, keys_within l ks -> ~ In "project_size" ks ->
                            values_of "project_size" l = []).
  { intros l ks Hk Hn. apply values_of_count_zero.
    now apply (count_key_outside _ _ ks). }
  rewrite (Hz _ _ K2) by (simpl; intuition discriminate).
  rewrite (Hz _ _ K3) by (simpl; intuition discriminate).
  rewrite (Hz _ _ K4) by (simpl; intuition discriminate).
  rewrite (Hz _ _ K5) by (simpl; intuition discriminate).
  rewrite app_nil_r.
  unfold _analyze_project_size.
  rewrite (scan_code_spec host root code_patterns 0 0 Hok).
  reflexivity.
Qed.

(** X17.  From the source tree to the size branch.  When the globs
    answer, the size the engine switches on is the classification of the
    number of files matched by the eight code patterns and of the number
    of lines of those files that can be read: a file that cannot be
    opened or decoded counts as a file and adds no line.  More than 50
    matched files therefore always select the large branch. *)
Theorem scanned_project_size :
  forall (host : Host) (root : Path) (self : RuleEngine),
    rglob_succeeds host root ->
    let files := matched_files host root code_patterns in
    project_size_of (fst (scan_project host root)) =
      classify_size (Z.of_nat (List.length files)) (readable_lines host files) /\
    0 <= readable_lines host files /\
    ((50 < List.length files)%nat ->
     In "continuous-improvement"
       (map name (recommend_rules self (fst (scan_project host root))))).
Proof.
  intros host root self Hok files.
  pose proof (scan_size_lookup host root Hok) as Hsize. fold files in Hsize.
  split; [exact Hsize|]. split; [apply readable_lines_nonneg|].
  intros Hmany. apply recommend_rules_names. left. rewrite Hsize.
  unfold classify_size.
  destruct (Z.ltb_spec 50 (Z.of_nat (List.length files))); [|lia].
  in_concrete_list.
Qed.

Lemma scanned_project_size_witness :
  rglob_succeeds sample_host "/project" /\
  project_size_of (fst (scan_project sample_host "/project")) = "small".
Proof.
  assert (H : rglob_succeeds sample_host "/project").
  { intros pattern. simpl.
    destruct (String.eqb pattern "*.py"); eexists; reflexivity. }
  split; [exact H|].
  rewrite (proj1 (scanned_project_size sample_host "/project"
                    default_engine H)).
  reflexivity.
Defined.

(** X18.  The three classifications are monotone: more files or lines
    never lower the size, more contributors never lower the team size,
    more commits never lower the maturity. *)
Theorem classifications_monotone :
  (forall file_count file_count' line_count line_count',
     file_count <= file_count' -> line_count <= line_count' ->
     (size_level (classify_size file_count line_count)
      <= size_level (classify_size file_count' line_count'))%nat) /\
  (forall contributors contributors',
     contributors <= contributors' ->
     (team_level (classify_team contributors)
      <= team_level (classify_team contributors'))%nat) /\
  (forall commits commits',
     commits <= commits' ->
     (maturity_level (classify_maturity commits)
      <= maturity_level (classify_maturity commits'))%nat).
Proof.
  repeat split.
  - intros fc fc' lc lc' Hf Hl. unfold classify_size.
    destruct (Z.ltb_spec 50 fc), (Z.ltb_spec 10000 lc),
      (Z.ltb_spec 50 fc'), (Z.ltb_spec 10000 lc'),
      (Z.ltb_spec 10 fc), (Z.ltb_spec 1000 lc),
      (Z.ltb_spec 10 fc'), (Z.ltb_spec 1000 lc');
      simpl; try lia; vm_compute; lia.
  - intros c c' Hc. unfold classify_team.
    destruct (Z.ltb_spec 10 c), (Z.ltb_spec 10 c'),
      (Z.ltb_spec 3 c), (Z.ltb_spec 3 c'),
      (Z.ltb_spec 1 c), (Z.ltb_spec 1 c'); simpl; try lia; vm_compute; lia.
  - intros c c' Hc. unfold classify_maturity.
    destruct (Z.ltb_spec 100 c), (Z.ltb_spec 100 c'),
      (Z.ltb_spec 10 c), (Z.ltb_spec 10 c'); simpl; try lia; vm_compute; lia.
Qed.

Lemma classifications_monotone_witness :
  (size_level (classify_size 10 1000)
   <= size_level (classify_size 11 1000))%nat.
Proof.
  apply (proj1 classifications_monotone); lia.
Defined.


Lemma analyze_returns_fresh_scan_witness :
  is_absolute (cwd sample_used_state) = true /\
  sample_is_dir (cwd sample_used_state) = true /\
  sample_is_dir (chdir_target sample_used_state "/project") = true /\
  self_features
    (fst (ProjectAnalyzer_analyze sample_host sample_is_dir "/project"
            sample_used_state))
  = fst (scan_project sample_host "/project").
Proof.
  split; [reflexivity|]. split; [reflexivity|]. split; [reflexivity|].
  exact (proj1 (proj2 (proj2
           (analyze_returns_fresh_scan sample_host sample_is_dir "/project"
              sample_used_state eq_refl eq_refl eq_refl)))).
Defined.

Lemma rglob_failure_propagates_witness :
  rglob sample_failing_host "/project" "*.py"
    = Raise (Exception "PermissionError" "*.py") /\
  ProjectAnalyzer_analyze sample_failing_host sample_is_dir "/project"
    sample_used_state
  = ({| cwd := "/work"; warnings := []; self_features := [] |},
     Raise (Exception "PermissionError" "*.py")).
Proof.
  split; [reflexivity|].
  exact (proj2 (rglob_failure_propagates sample_failing_host sample_is_dir
                  "/project" sample_used_state _ eq_refl eq_refl eq_refl
                  eq_refl)).
Defined.
